(** * The network-builder query engine (src/services/networkBuilder.ts)

    A shallow embedding of the class [NetworkBuilder]: its constructor
    (adjacency index), [searchNodes], [expandFromSeeds], [buildNetwork] and
    [selectTopNodesByDegree], followed by the properties of the engine.

    Conventions of the embedding.
    - A JavaScript [Set<string>] is a duplicate-free list in insertion order,
      a [Map<string, V>] an association list in insertion order ([set] on an
      existing key keeps the key's position and replaces the value).
    - Strings are ASCII strings; [toLowerCase] and [trim] act on the ASCII
      letters and the ASCII white space.
    - Numbers that the engine counts with (sizes, degrees, depths, caps) are
      integers ([Z] or [nat]), taken below 2^53 where a JavaScript number
      holds them exactly; the colour scale is computed on binary64 floats,
      as in the source.
    - A node object is identified by its position in [allNodes]; the writes
      of step 8 of [buildNetwork] go to that position, and [buildNetwork]
      returns the engine it leaves behind together with its result. *)

From Stdlib Require Import ZArith List String Ascii Bool Lia Arith.
From Stdlib Require Import Permutation Sorted.
From Stdlib Require Import PrimFloat FloatOps SpecFloat Uint63.
From Stdlib Require Import DecimalString.
Import ListNotations.

Local Open Scope string_scope.
Local Open Scope list_scope.
Local Open Scope Z_scope.

(** ** JavaScript values, strings, arrays, sets and maps *)

Module Js.

Inductive value : Type :=
| Undefined
| Null
| Str (s : string)
| Num (z : Z)
| Boolean (b : bool)
| Obj.

(** Truthiness, as used by [a || b]. *)
Definition truthy (v : value) : bool :=
  match v with
  | Undefined | Null => false
  | Str s => negb (String.eqb s "")
  | Num z => negb (z =? 0)
  | Boolean b => b
  | Obj => true
  end.

Definition or (a b : value) : value := if truthy a then a else b.

Definition string_of_Z (z : Z) : string := NilZero.string_of_int (Z.to_int z).

(** [String(v)]. *)
Definition String_of (v : value) : string :=
  match v with
  | Undefined => "undefined"
  | Null => "null"
  | Str s => s
  | Num z => string_of_Z z
  | Boolean true => "true"
  | Boolean false => "false"
  | Obj => "[object Object]"
  end.

Definition of_option (o : option string) : value :=
  match o with Some s => Str s | None => Undefined end.

Definition of_number (o : option Z) : value :=
  match o with Some z => Num z | None => Undefined end.

(** [String.prototype.toLowerCase] on a string of ASCII characters: only the
    letters A to Z change. *)
Definition lower_ascii (c : ascii) : ascii :=
  let n := nat_of_ascii c in
  if (Nat.leb 65 n && Nat.leb n 90)%bool then ascii_of_nat (n + 32) else c.

Fixpoint toLowerCase (s : string) : string :=
  match s with
  | EmptyString => EmptyString
  | String.String c s' => String.String (lower_ascii c) (toLowerCase s')
  end.

(** The white space and line terminators that [String.prototype.trim]
    strips, among the ASCII characters: TAB, LF, VT, FF, CR and the space. *)
Definition is_space (c : ascii) : bool :=
  let n := nat_of_ascii c in
  (Nat.leb 9 n && Nat.leb n 13 || Nat.eqb n 32)%bool.

Fixpoint trimStart (l : list ascii) : list ascii :=
  match l with
  | c :: l' => if is_space c then trimStart l' else l
  | [] => []
  end.

Definition trim (s : string) : string :=
  string_of_list_ascii
    (rev (trimStart (rev (trimStart (list_ascii_of_string s))))).

(** [s.includes(t)]: [t] occurs in [s] as a contiguous substring. *)
Fixpoint includes (s t : string) : bool :=
  if String.prefix t s then true
  else match s with
       | EmptyString => false
       | String.String _ s' => includes s' t
       end.

(** [xs.includes(x)] on an array of strings. *)
Definition Array_includes (xs : list string) (x : string) : bool :=
  existsb (String.eqb x) xs.

(** [xs.slice(0, n)]: a negative [n] counts from the end. *)
Definition slice0 {A : Type} (xs : list A) (n : Z) : list A :=
  if n <? 0 then firstn (Z.to_nat (Z.of_nat (List.length xs) + n)) xs
  else firstn (Z.to_nat n) xs.

(** [xs.sort(cmp)]: the stable sort of ECMAScript, as an insertion sort
    that keeps an element in front of the later elements it ties with. *)
Fixpoint sort_insert {A : Type} (cmp : A -> A -> Z) (x : A) (l : list A) : list A :=
  match l with
  | [] => [x]
  | y :: l' => if cmp x y <=? 0 then x :: l else y :: sort_insert cmp x l'
  end.

Fixpoint sort {A : Type} (cmp : A -> A -> Z) (l : list A) : list A :=
  match l with
  | [] => []
  | x :: l' => sort_insert cmp x (sort cmp l')
  end.

(** *** [Set<string>] *)

Definition JsSet := list string.

Definition set_has (s : JsSet) (x : string) : bool := existsb (String.eqb x) s.

Definition set_add (s : JsSet) (x : string) : JsSet :=
  if set_has s x then s else s ++ [x].

Definition new_Set (xs : list string) : JsSet := fold_left set_add xs [].

(** *** [Map<string, V>] *)

Definition JsMap (V : Type) := list (string * V).

Fixpoint map_get {V : Type} (m : JsMap V) (k : string) : option V :=
  match m with
  | [] => None
  | (k', v) :: m' => if String.eqb k k' then Some v else map_get m' k
  end.

Definition map_has {V : Type} (m : JsMap V) (k : string) : bool :=
  match map_get m k with Some _ => true | None => false end.

Fixpoint map_set {V : Type} (m : JsMap V) (k : string) (v : V) : JsMap V :=
  match m with
  | [] => [(k, v)]
  | (k', v') :: m' =>
      if String.eqb k k' then (k', v) :: m' else (k', v') :: map_set m' k v
  end.

Definition map_values {V : Type} (m : JsMap V) : list V := map snd m.
Definition map_keys {V : Type} (m : JsMap V) : list string := map fst m.

(** *** Numbers of the colour scale *)

Definition number (z : Z) : float :=
  if z <? 0 then PrimFloat.opp (PrimFloat.of_uint63 (Uint63.of_Z (- z)))
  else PrimFloat.of_uint63 (Uint63.of_Z z).

(** [Math.round]: the nearest integer, a tie going towards +infinity. *)
Definition Math_round (x : float) : Z :=
  match Prim2SF x with
  | S754_finite s m e =>
      let n := if s then Z.neg m else Z.pos m in
      if 0 <=? e then n * 2 ^ e
      else (2 * n + 2 ^ (- e)) / (2 * 2 ^ (- e))
  | _ => 0
  end.

End Js.

Import Js.

(** ** The data model (src/types.ts) *)

(** [GraphNode].  The fields the engine reads or writes are record fields;
    every other own property of the object (time, usc_title, title, x, y, ...)
    is kept in [attrs], which only the attribute lookup of [searchNodes]
    reads. *)
Record GraphNode : Type := {
  id : string;
  name : string;
  node_type : string;
  val : option Z;
  totalVal : option Z;
  color : option string;
  baseColor : option string;
  display_label : option string;
  properties : option (list (string * Js.value));
  full_name : option string;
  text : option string;
  section_text : option string;
  index_heading : option string;
  attrs : list (string * Js.value)
}.

(** [link.source] and [link.target] are a string or a node object, of which
    the engine reads the [id] only. *)
Inductive Endpoint : Type :=
| EpId (s : string)
| EpNode (node_id : string).

Definition endpointId (e : Endpoint) : string :=
  match e with EpId s => s | EpNode s => s end.

Record GraphLink : Type := {
  source : Endpoint;
  target : Endpoint;
  edge_type : string;
  action : string;
  time : option string;
  usc_title : option string;
  source_title : option string;
  weight : option Z;
  definition : option string;
  location : option string;
  timestamp : option string
}.

Definition sourceId (l : GraphLink) : string := endpointId (source l).
Definition targetId (l : GraphLink) : string := endpointId (target l).

(** [NetworkBuilderState]; [allowedTitles], [allowedSections] and
    [seedNodeIds] are never read by the engine and are left out. *)
Record NetworkBuilderState : Type := {
  searchTerms : list string;
  searchFields : list string;
  allowedNodeTypes : list string;
  allowedEdgeTypes : list string;
  expansionDepth : Z;
  maxNodesPerExpansion : Z;
  maxTotalNodes : Z
}.

Record FilteredGraph : Type := {
  nodes : list GraphNode;
  links : list GraphLink;
  truncated : bool;
  matchedCount : nat
}.

Inductive SearchLogic : Type := AND | OR.
Inductive RankingMode : Type := RankGlobal | RankSubgraph.

Record Neighbor : Type := {
  neighborId : string;
  edgeType : string
}.

(** The engine instance. *)
Record NetworkBuilder : Type := {
  allNodes : list GraphNode;
  allLinks : list GraphLink;
  adjacencyMap : JsMap (list Neighbor)
}.

(** ** The constructor: building the adjacency index *)

Definition neighborsOf (m : JsMap (list Neighbor)) (nodeId : string) : list Neighbor :=
  match map_get m nodeId with Some l => l | None => [] end.

(** [this.adjacencyMap.get(k)!.push(n)] *)
Definition adj_push (m : JsMap (list Neighbor)) (k : string) (n : Neighbor)
  : JsMap (list Neighbor) :=
  map_set m k (neighborsOf m k ++ [n]).

Definition addLink (m : JsMap (list Neighbor)) (link : GraphLink)
  : JsMap (list Neighbor) :=
  let m1 := if map_has m (sourceId link) then m else map_set m (sourceId link) [] in
  let m2 := if map_has m1 (targetId link) then m1 else map_set m1 (targetId link) [] in
  let m3 := adj_push m2 (sourceId link)
              {| neighborId := targetId link; edgeType := edge_type link |} in
  adj_push m3 (targetId link)
    {| neighborId := sourceId link; edgeType := edge_type link |}.

Definition new_NetworkBuilder (nodes0 : list GraphNode) (links0 : list GraphLink)
  : NetworkBuilder :=
  {| allNodes := nodes0;
     allLinks := links0;
     adjacencyMap := fold_left addLink links0 [] |}.

(** ** [searchNodes] *)

(** The own properties of a node object, for [(node as any)[field]]. *)
Definition ownProperties (node : GraphNode) : JsMap Js.value :=
  [ ("id", Str (id node));
    ("name", Str (name node));
    ("node_type", Str (node_type node));
    ("val", of_number (val node));
    ("totalVal", of_number (totalVal node));
    ("color", of_option (color node));
    ("baseColor", of_option (baseColor node));
    ("display_label", of_option (display_label node));
    ("properties", match properties node with Some _ => Obj | None => Undefined end);
    ("full_name", of_option (full_name node));
    ("text", of_option (text node));
    ("section_text", of_option (section_text node));
    ("index_heading", of_option (index_heading node)) ]
  ++ attrs node.

Definition getAttr (node : GraphNode) (field : string) : Js.value :=
  match map_get (ownProperties node) field with
  | Some v => v
  | None => Undefined
  end.

(** [node.properties?.key] *)
Definition prop (node : GraphNode) (key : string) : Js.value :=
  match properties node with
  | Some ps => match map_get ps key with Some v => v | None => Undefined end
  | None => Undefined
  end.

(** The [switch] of [searchNodes], for the fields that assign [value]. *)
Definition fieldValue (node : GraphNode) (field : string) : Js.value :=
  if String.eqb field "text" then
    Js.or (Js.or (Js.or (prop node "text") (of_option (text node)))
                 (of_option (section_text node)))
          (of_option (index_heading node))
  else if String.eqb field "full_name" then
    Js.or (prop node "full_name") (of_option (full_name node))
  else if String.eqb field "display_label" then
    of_option (display_label node)
  else if String.eqb field "definition" then
    prop node "definition"
  else if String.eqb field "entity" then
    if String.eqb (node_type node) "entity" then Str (name node) else Null
  else if String.eqb field "concept" then
    if String.eqb (node_type node) "concept" then Str (name node) else Null
  else getAttr node field.

(** What one search field pushes on [searchableValues]. *)
Definition fieldStrings (node : GraphNode) (field : string) : list string :=
  if String.eqb field "properties" then
    match properties node with
    | Some ps =>
        flat_map (fun kv => match snd kv with
                            | Str s => [toLowerCase s]
                            | _ => []
                            end) ps
    | None => []
    end
  else
    match fieldValue node field with
    | Null | Undefined => []
    | v => [toLowerCase (String_of v)]
    end.

Definition searchableValues (node : GraphNode) (fields : list string) : list string :=
  flat_map (fieldStrings node) fields.

Definition termFound (values : list string) (term : string) : bool :=
  existsb (fun searchableValue => includes searchableValue term) values.

Definition nodeMatches (logic : SearchLogic) (normalizedTerms values : list string) : bool :=
  match logic with
  | OR => existsb (termFound values) normalizedTerms
  | AND => forallb (termFound values) normalizedTerms
  end.

Definition searchNodes (nb : NetworkBuilder) (terms fields : list string)
  (logic : SearchLogic) : JsSet :=
  let normalizedTerms := map (fun t => trim (toLowerCase t)) terms in
  fold_left
    (fun matchedIds node =>
       if nodeMatches logic normalizedTerms (searchableValues node fields)
       then set_add matchedIds (id node)
       else matchedIds)
    (allNodes nb) [].

(** ** [expandFromSeeds] *)

Definition limitedNeighbors (nb : NetworkBuilder) (maxNeighborsPerNode : Z)
  (allowedEdgeTypes : list string) (nodeId : string) : list Neighbor :=
  let neighbors := neighborsOf (adjacencyMap nb) nodeId in
  let filteredNeighbors :=
    if (0 <? List.length allowedEdgeTypes)%nat
    then filter (fun n => Array_includes allowedEdgeTypes (edgeType n)) neighbors
    else neighbors in
  if 0 <? maxNeighborsPerNode
  then slice0 filteredNeighbors maxNeighborsPerNode
  else filteredNeighbors.

(** The body of [limitedNeighbors.forEach], on the pair
    ([nextLayer], [expanded]). *)
Definition visit (st : JsSet * JsSet) (n : Neighbor) : JsSet * JsSet :=
  if set_has (snd st) (neighborId n) then st
  else (set_add (fst st) (neighborId n), set_add (snd st) (neighborId n)).

(** One iteration of the [for] loop: [currentLayer.forEach]. *)
Definition expandLayer (nb : NetworkBuilder) (maxNeighborsPerNode : Z)
  (allowedEdgeTypes : list string) (currentLayer expanded : JsSet) : JsSet * JsSet :=
  fold_left
    (fun st nodeId =>
       fold_left visit
         (limitedNeighbors nb maxNeighborsPerNode allowedEdgeTypes nodeId) st)
    currentLayer ([], expanded).

(** The [for] loop with its [break]; [iterations] is what is left of [depth]. *)
Fixpoint expandLoop (nb : NetworkBuilder) (maxNeighborsPerNode : Z)
  (allowedEdgeTypes : list string) (iterations : nat)
  (currentLayer expanded : JsSet) : JsSet :=
  match iterations with
  | O => expanded
  | S k =>
      let st := expandLayer nb maxNeighborsPerNode allowedEdgeTypes
                  currentLayer expanded in
      if (List.length (fst st) =? 0)%nat then snd st
      else expandLoop nb maxNeighborsPerNode allowedEdgeTypes k (fst st) (snd st)
  end.

Definition expandFromSeeds (nb : NetworkBuilder) (seedIds : JsSet) (depth : Z)
  (maxNeighborsPerNode : Z) (allowedEdgeTypes : list string) : JsSet :=
  expandLoop nb maxNeighborsPerNode allowedEdgeTypes (Z.to_nat depth)
    (new_Set seedIds) (new_Set seedIds).

(** ** [selectTopNodesByDegree] *)

Definition selectTopNodesByDegree (nb : NetworkBuilder) (nodeIds : JsSet)
  (maxNodes : Z) : list string :=
  let nodeDegrees :=
    fold_left
      (fun m nodeId =>
         map_set m nodeId (Z.of_nat (List.length (neighborsOf (adjacencyMap nb) nodeId))))
      nodeIds [] in
  map fst (slice0 (Js.sort (fun a b => snd b - snd a) nodeDegrees) maxNodes).

(** ** [buildNetwork] *)

Definition emptyResult : FilteredGraph :=
  {| nodes := []; links := []; truncated := false; matchedCount := 0%nat |}.

(** [state.searchTerms.length > 0 && state.searchFields.length > 0] *)
Definition searchUsed (state : NetworkBuilderState) : bool :=
  ((0 <? List.length (searchTerms state))%nat
   && (0 <? List.length (searchFields state))%nat)%bool.

(** [this.allNodes.find(n => n.id === id)] *)
Definition findNode (nb : NetworkBuilder) (nodeId : string) : option GraphNode :=
  find (fun n => String.eqb (id n) nodeId) (allNodes nb).

(** Step 1 and 1b: the pair ([candidateNodeIds], [seedNodeIds]), or [None]
    where the source returns the empty result. *)
Definition step1 (nb : NetworkBuilder) (state : NetworkBuilderState)
  (searchLogic : SearchLogic) : option (JsSet * JsSet) :=
  if searchUsed state then
    let seedNodeIds :=
      searchNodes nb (searchTerms state) (searchFields state) searchLogic in
    if (List.length seedNodeIds =? 0)%nat then None
    else if 0 <? expansionDepth state then
      let candidateNodeIds :=
        expandFromSeeds nb seedNodeIds (expansionDepth state)
          (maxNodesPerExpansion state) (allowedEdgeTypes state) in
      if (0 <? List.length (allowedNodeTypes state))%nat then
        Some (new_Set
                (filter
                   (fun nodeId =>
                      match findNode nb nodeId with
                      | None => false
                      | Some node =>
                          if set_has seedNodeIds nodeId then true
                          else Array_includes (allowedNodeTypes state) (node_type node)
                      end)
                   candidateNodeIds),
              seedNodeIds)
      else Some (candidateNodeIds, seedNodeIds)
    else Some (new_Set seedNodeIds, seedNodeIds)
  else Some (new_Set (map id (allNodes nb)), []).

(** Step 2: the seeds are filtered by type; the result is the new
    [candidateNodeIds] ([seedNodeIds] is not read again). *)
Definition seedsAfterFilter (nb : NetworkBuilder) (state : NetworkBuilderState)
  (seedNodeIds : JsSet) : JsSet :=
  new_Set
    (filter
       (fun nodeId =>
          match findNode nb nodeId with
          | None => false
          | Some node =>
              ((0 <? List.length (allowedNodeTypes state))%nat
               && Array_includes (allowedNodeTypes state) (node_type node))%bool
          end)
       seedNodeIds).

Definition step2 (nb : NetworkBuilder) (state : NetworkBuilderState)
  (cs : JsSet * JsSet) : option JsSet :=
  let (candidateNodeIds, seedNodeIds) := cs in
  if searchUsed state then
    let kept := seedsAfterFilter nb state seedNodeIds in
    if (List.length kept =? 0)%nat then None
    else Some (new_Set
                 (filter
                    (fun nodeId =>
                       (set_has kept nodeId || negb (set_has seedNodeIds nodeId))%bool)
                    candidateNodeIds))
  else Some candidateNodeIds.

Definition candidateIds (nb : NetworkBuilder) (state : NetworkBuilderState)
  (searchLogic : SearchLogic) : option JsSet :=
  match step1 nb state searchLogic with
  | None => None
  | Some cs => step2 nb state cs
  end.

(** A reference to a node object: its position in [allNodes] and its
    content. *)
Definition NodeRef : Type := (nat * GraphNode)%type.

Definition nodeRefs (nb : NetworkBuilder) : list NodeRef :=
  combine (seq 0 (List.length (allNodes nb))) (allNodes nb).

(** Step 3 *)
Definition candidateNodeMap (nb : NetworkBuilder) (candidateNodeIds : JsSet)
  : JsMap NodeRef :=
  fold_left
    (fun m r => if set_has candidateNodeIds (id (snd r))
                then map_set m (id (snd r)) r else m)
    (nodeRefs nb) [].

(** Step 4 *)
Definition edgeTypeMatch (state : NetworkBuilderState) (link : GraphLink) : bool :=
  ((0 <? List.length (allowedEdgeTypes state))%nat
   && Array_includes (allowedEdgeTypes state) (edge_type link))%bool.

Definition candidateLinks (nb : NetworkBuilder) (state : NetworkBuilderState)
  (cmap : JsMap NodeRef) : list GraphLink :=
  filter
    (fun link =>
       (edgeTypeMatch state link && map_has cmap (sourceId link)
        && map_has cmap (targetId link))%bool)
    (allLinks nb).

(** Step 5 *)
Definition nodesWithEdges (clinks : list GraphLink) : JsSet :=
  fold_left (fun s link => set_add (set_add s (sourceId link)) (targetId link))
    clinks [].

Definition typeMatch (state : NetworkBuilderState) (n : GraphNode) : bool :=
  ((List.length (allowedNodeTypes state) =? 0)%nat
   || Array_includes (allowedNodeTypes state) (node_type n))%bool.

Definition connectedNodeIds (state : NetworkBuilderState) (cmap : JsMap NodeRef)
  (clinks : list GraphLink) : JsSet :=
  new_Set
    (map (fun r => id (snd r))
       (filter
          (fun r => (set_has (nodesWithEdges clinks) (id (snd r))
                     && typeMatch state (snd r))%bool)
          (map_values cmap))).

(** Step 6 *)

(** [m.get(k) || 0] *)
Definition degreeOf (m : JsMap Z) (k : string) : Z :=
  match map_get m k with Some d => d | None => 0 end.

(** The degree count over a list of links ([nodeDegrees], [nodeDegree]). *)
Definition countDegrees (ls : list GraphLink) : JsMap Z :=
  fold_left
    (fun m link =>
       let m1 := map_set m (sourceId link) (degreeOf m (sourceId link) + 1) in
       map_set m1 (targetId link) (degreeOf m1 (targetId link) + 1))
    ls [].

Definition isTruncated (state : NetworkBuilderState) (connected : JsSet) : bool :=
  maxTotalNodes state <? Z.of_nat (List.length connected).

Definition finalNodeIds (nb : NetworkBuilder) (state : NetworkBuilderState)
  (nodeRankingMode : RankingMode) (clinks : list GraphLink) (connected : JsSet)
  : JsSet :=
  if isTruncated state connected then
    match nodeRankingMode with
    | RankSubgraph =>
        let nodeDegrees := countDegrees clinks in
        let topNodes :=
          slice0
            (Js.sort (fun a b => degreeOf nodeDegrees b - degreeOf nodeDegrees a)
               (filter (fun nodeId => map_has nodeDegrees nodeId) connected))
            (maxTotalNodes state) in
        new_Set topNodes
    | RankGlobal =>
        new_Set (selectTopNodesByDegree nb connected (maxTotalNodes state))
    end
  else connected.

(** Step 7 *)
Definition selectedNodeMap (nb : NetworkBuilder) (state : NetworkBuilderState)
  (final : JsSet) : JsMap NodeRef :=
  fold_left
    (fun m r => if set_has final (id (snd r)) then
                  if typeMatch state (snd r) then map_set m (id (snd r)) r else m
                else m)
    (nodeRefs nb) [].

(** The fresh link objects, with string endpoints. *)
Definition freshLink (link : GraphLink) : GraphLink :=
  {| source := EpId (sourceId link);
     target := EpId (targetId link);
     action := action link;
     edge_type := edge_type link;
     time := time link;
     usc_title := usc_title link;
     source_title := source_title link;
     weight := weight link;
     definition := definition link;
     location := location link;
     timestamp := timestamp link |}.

Definition finalLinks (clinks : list GraphLink) (smap : JsMap NodeRef)
  : list GraphLink :=
  map freshLink
    (filter (fun link => (map_has smap (sourceId link)
                          && map_has smap (targetId link))%bool)
       clinks).

(** Step 8: degrees and colours, written into the selected node objects. *)

(** [nodeDegree.get(node.id) || 1] *)
Definition displayDegree (nodeDegree : JsMap Z) (nodeId : string) : Z :=
  match map_get nodeDegree nodeId with
  | Some d => if d =? 0 then 1 else d
  | None => 1
  end.

(** [node.val = v; node.totalVal = node.val] *)
Definition assignVal (node : GraphNode) (v : Z) : GraphNode :=
  {| id := id node; name := name node; node_type := node_type node;
     val := Some v; totalVal := Some v;
     color := color node; baseColor := baseColor node;
     display_label := display_label node; properties := properties node;
     full_name := full_name node; text := text node;
     section_text := section_text node; index_heading := index_heading node;
     attrs := attrs node |}.

(** [node.color = c; node.baseColor = c] *)
Definition assignColor (node : GraphNode) (c : string) : GraphNode :=
  {| id := id node; name := name node; node_type := node_type node;
     val := val node; totalVal := totalVal node;
     color := Some c; baseColor := Some c;
     display_label := display_label node; properties := properties node;
     full_name := full_name node; text := text node;
     section_text := section_text node; index_heading := index_heading node;
     attrs := attrs node |}.

(** [n.val] once the first loop of step 8 has set it. *)
Definition valOf (node : GraphNode) : Z :=
  match val node with Some v => v | None => 0 end.

(** [Math.max(...nodes.map(n => n.val), 1)] *)
Definition maxValOf (ns : list GraphNode) : Z :=
  fold_right Z.max 1 (map valOf ns).

Definition strength (maxVal v : Z) : float :=
  PrimFloat.div (number v) (number maxVal).

Definition channel (c1 c2 : Z) (t : float) : Z :=
  Math_round (PrimFloat.add (number c1) (PrimFloat.mul (number (c2 - c1)) t)).

Definition rgb (r g b : Z) : string :=
  ("rgb(" ++ string_of_Z r ++ ", " ++ string_of_Z g ++ ", " ++ string_of_Z b ++ ")")%string.

Definition sectionColorScale (t : float) : string :=
  rgb (channel 0x9B 0x41 t) (channel 0x96 0x37 t) (channel 0xC9 0x8F t).

Definition entityConceptColorScale (t : float) : string :=
  rgb (channel 0xF9 0xF0 t) (channel 0xD9 0xA7 t) (channel 0x9B 0x34 t).

Definition nodeColor (maxVal : Z) (node : GraphNode) : string :=
  let t := strength maxVal (valOf node) in
  if (String.eqb (node_type node) "section" || String.eqb (node_type node) "index")%bool
  then sectionColorScale t
  else if (String.eqb (node_type node) "entity"
           || String.eqb (node_type node) "concept")%bool
  then entityConceptColorScale t
  else "#AFBBE8".

(** The two [nodes.forEach] loops, on the contents of the selected objects. *)
Definition paint (nodeDegree : JsMap Z) (rs : list NodeRef) : list NodeRef :=
  let rs1 := map (fun r => (fst r, assignVal (snd r) (displayDegree nodeDegree (id (snd r))))) rs in
  let maxVal := maxValOf (map snd rs1) in
  map (fun r => (fst r, assignColor (snd r) (nodeColor maxVal (snd r)))) rs1.

(** Writing an object back at its position. *)
Fixpoint store (h : list GraphNode) (i : nat) (node : GraphNode) : list GraphNode :=
  match h, i with
  | [], _ => []
  | _ :: h', O => node :: h'
  | x :: h', S j => x :: store h' j node
  end.

Definition storeAll (h : list GraphNode) (rs : list NodeRef) : list GraphNode :=
  fold_left (fun h' r => store h' (fst r) (snd r)) rs h.

(** Steps 3 to 8, from the candidate identifiers. *)
Definition assemble (nb : NetworkBuilder) (state : NetworkBuilderState)
  (nodeRankingMode : RankingMode) (candidateNodeIds : JsSet)
  : FilteredGraph * NetworkBuilder :=
  let cmap := candidateNodeMap nb candidateNodeIds in
  let clinks := candidateLinks nb state cmap in
  let connected := connectedNodeIds state cmap clinks in
  let final := finalNodeIds nb state nodeRankingMode clinks connected in
  let smap := selectedNodeMap nb state final in
  let links1 := finalLinks clinks smap in
  let painted := paint (countDegrees links1) (map_values smap) in
  ({| nodes := map snd painted;
      links := links1;
      truncated := isTruncated state connected;
      matchedCount := List.length connected |},
   {| allNodes := storeAll (allNodes nb) painted;
      allLinks := allLinks nb;
      adjacencyMap := adjacencyMap nb |}).

(** [buildNetwork]: the result and the engine after the call. *)
Definition buildNetwork (nb : NetworkBuilder) (state : NetworkBuilderState)
  (searchLogic : SearchLogic) (nodeRankingMode : RankingMode)
  : FilteredGraph * NetworkBuilder :=
  match candidateIds nb state searchLogic with
  | None => (emptyResult, nb)
  | Some candidateNodeIds => assemble nb state nodeRankingMode candidateNodeIds
  end.

(** ** Sample snapshots *)

Module Sample.

Definition node (i n t : string) : GraphNode :=
  {| id := i; name := n; node_type := t;
     val := None; totalVal := None; color := None; baseColor := None;
     display_label := None; properties := None; full_name := None;
     text := None; section_text := None; index_heading := None;
     attrs := [] |}.

Definition link (s t ty : string) : GraphLink :=
  {| source := EpId s; target := EpId t; edge_type := ty; action := "";
     time := None; usc_title := None; source_title := None; weight := None;
     definition := None; location := None; timestamp := None |}.

(** The snapshot of the scenarios of the specification:
    A (section), B (entity), C (concept); A-B reference, B-C definition. *)
Definition abc : NetworkBuilder :=
  new_NetworkBuilder
    [node "A" "A" "section"; node "B" "B" "entity"; node "C" "C" "concept"]
    [link "A" "B" "reference"; link "B" "C" "definition"].

Definition query (terms fields nodeTypes edgeTypes : list string)
  (depth cap : Z) : NetworkBuilderState :=
  {| searchTerms := terms; searchFields := fields;
     allowedNodeTypes := nodeTypes; allowedEdgeTypes := edgeTypes;
     expansionDepth := depth; maxNodesPerExpansion := 0;
     maxTotalNodes := cap |}.

(** A star: A linked to B, C and D. *)
Definition star : NetworkBuilder :=
  new_NetworkBuilder
    [node "A" "A" "section"; node "B" "B" "entity"; node "C" "C" "concept";
     node "D" "D" "index"]
    [link "A" "B" "reference"; link "A" "C" "reference"; link "A" "D" "hierarchy"].

(** A node that refers to itself. *)
Definition loop : NetworkBuilder :=
  new_NetworkBuilder [node "A" "A" "section"] [link "A" "A" "reference"].

(** The snapshot [abc] in which A arrives with a [val] of 7. *)
Definition abc7 : NetworkBuilder :=
  new_NetworkBuilder
    [assignVal (node "A" "A" "section") 7; node "B" "B" "entity";
     node "C" "C" "concept"]
    [link "A" "B" "reference"; link "B" "C" "definition"].

End Sample.

(** ** Notions used in the statements *)

(** The four node types of [NodeType]. *)
Definition allNodeTypes : list string := ["section"; "entity"; "concept"; "index"].

(** Every edge type that occurs in the adjacency index is in [types]. *)
Definition coversEdgeTypes (types : list string) (adj : JsMap (list Neighbor)) : bool :=
  forallb (fun kv => forallb (fun n => Array_includes types (edgeType n)) (snd kv)) adj.

(** The degree of [x] in a list of links: the number of link ends at [x]
    (a link from [x] to [x] has two). *)
Fixpoint degreeIn (x : string) (ls : list GraphLink) : Z :=
  match ls with
  | [] => 0
  | l :: ls' =>
      (if String.eqb (sourceId l) x then 1 else 0)
      + (if String.eqb (targetId l) x then 1 else 0)
      + degreeIn x ls'
  end.

(** [x] is an end of some link of [ls]. *)
Definition hasIncidentLink (x : string) (ls : list GraphLink) : bool :=
  existsb (fun l => (String.eqb (sourceId l) x || String.eqb (targetId l) x)%bool) ls.

(** A node without its runtime-computed properties [val], [totalVal],
    [color] and [baseColor]. *)
Definition stable (node : GraphNode) : GraphNode :=
  {| id := id node; name := name node; node_type := node_type node;
     val := None; totalVal := None; color := None; baseColor := None;
     display_label := display_label node; properties := properties node;
     full_name := full_name node; text := text node;
     section_text := section_text node; index_heading := index_heading node;
     attrs := attrs node |}.

(** The search fields of [NetworkBuilderState.searchFields]. *)
Definition recognizedFields : list string :=
  ["text"; "full_name"; "display_label"; "definition"; "entity"; "concept";
   "properties"].

Definition recognizedField (field : string) : bool :=
  Array_includes recognizedFields field.

(** The shape of the two [allNodes.forEach] loops of steps 3 and 7: the
    references that pass [keep] are entered in a map under their [id]. *)
Definition collect (keep : NodeRef -> bool) (rs : list NodeRef) (m : JsMap NodeRef)
  : JsMap NodeRef :=
  fold_left (fun m' r => if keep r then map_set m' (id (snd r)) r else m') rs m.

(** Every entry of the map is filed under the [id] of its node. *)
Definition keyed (m : JsMap NodeRef) : Prop :=
  Forall (fun kv => fst kv = id (snd (snd kv))) m.

(** The candidate [x] is connected and of an allowed type: it is the end of
    a candidate link and the node filed under it passes [typeMatch]. *)
Definition connectedAndTyped (state : NetworkBuilderState) (cmap : JsMap NodeRef)
  (clinks : list GraphLink) (x : string) : bool :=
  match map_get cmap x with
  | Some r => (hasIncidentLink x clinks && typeMatch state (snd r))%bool
  | None => false
  end.

(** The count before truncation: the candidates that are connected and of an
    allowed type; no candidate is left where the query is cut short. *)
Definition preTruncationCount (nb : NetworkBuilder) (state : NetworkBuilderState)
  (searchLogic : SearchLogic) : nat :=
  match candidateIds nb state searchLogic with
  | None => 0%nat
  | Some c =>
      let cmap := candidateNodeMap nb c in
      List.length
        (filter (connectedAndTyped state cmap (candidateLinks nb state cmap))
           (map_keys cmap))
  end.

(** The links of step 4: the snapshot links of an allowed edge type between
    two candidates (none where the query is cut short). *)
Definition candidateLinksOf (nb : NetworkBuilder) (state : NetworkBuilderState)
  (searchLogic : SearchLogic) : list GraphLink :=
  match candidateIds nb state searchLogic with
  | None => []
  | Some c => candidateLinks nb state (candidateNodeMap nb c)
  end.

(** The engine with the runtime-computed properties of its nodes cleared. *)
Definition stableEngine (nb : NetworkBuilder) : NetworkBuilder :=
  {| allNodes := map stable (allNodes nb);
     allLinks := allLinks nb;
     adjacencyMap := adjacencyMap nb |}.

Definition stableRef (r : NodeRef) : NodeRef := (fst r, stable (snd r)).

Definition stableMap (m : JsMap NodeRef) : JsMap NodeRef :=
  map (fun kv => (fst kv, stableRef (snd kv))) m.

(** ** Notions used for the adjacency index and the expansion *)

(** What one link contributes to the adjacency list of [x]: the target when
    [x] is the source, then the source when [x] is the target. *)
Definition linkIncidences (x : string) (link : GraphLink) : list Neighbor :=
  (if String.eqb (sourceId link) x
   then [{| neighborId := targetId link; edgeType := edge_type link |}] else [])
  ++ (if String.eqb (targetId link) x
      then [{| neighborId := sourceId link; edgeType := edge_type link |}] else []).

(** The adjacency list of [x] read off the link list. *)
Definition incidences (x : string) (ls : list GraphLink) : list Neighbor :=
  flat_map (linkIncidences x) ls.

(** The identifiers one expansion step reaches from [y]. *)
Definition successors (nb : NetworkBuilder) (maxNeighborsPerNode : Z)
  (allowedEdgeTypes : list string) (y : string) : list string :=
  map neighborId (limitedNeighbors nb maxNeighborsPerNode allowedEdgeTypes y).

(** [x] is at most [k] expansion steps away from a seed. *)
Fixpoint within (nb : NetworkBuilder) (maxNeighborsPerNode : Z)
  (allowedEdgeTypes : list string) (seedIds : JsSet) (k : nat) (x : string) : Prop :=
  match k with
  | O => In x seedIds
  | S k' =>
      within nb maxNeighborsPerNode allowedEdgeTypes seedIds k' x
      \/ exists y, within nb maxNeighborsPerNode allowedEdgeTypes seedIds k' y
                   /\ In x (successors nb maxNeighborsPerNode allowedEdgeTypes y)
  end.

(** The degree that [selectTopNodesByDegree] ranks by. *)
Definition adjacencyDegree (nb : NetworkBuilder) (x : string) : Z :=
  Z.of_nat (List.length (neighborsOf (adjacencyMap nb) x)).

(** The connected identifiers of step 5 (none where the query is cut
    short). *)
Definition connectedIdsOf (nb : NetworkBuilder) (state : NetworkBuilderState)
  (searchLogic : SearchLogic) : JsSet :=
  match candidateIds nb state searchLogic with
  | None => []
  | Some c =>
      connectedNodeIds state (candidateNodeMap nb c)
        (candidateLinks nb state (candidateNodeMap nb c))
  end.

(** How many nodes [k] expansion steps can add per seed when each node
    contributes at most [c] neighbours: c + c^2 + ... + c^k. *)
Fixpoint hopBudget (c k : nat) : nat :=
  match k with
  | O => 0
  | S k' => c * (1 + hopBudget c k')
  end.

(** The state of the loop of [expandFromSeeds] after [i] iterations:
    [expanded] holds what is at most [i] steps from a seed, the current
    layer is part of it, and what one step reaches from the rest of
    [expanded] is in [expanded] already. *)
Definition loopInv (nb : NetworkBuilder) (maxNeighborsPerNode : Z)
  (allowedEdgeTypes : list string) (seedIds : JsSet) (i : nat)
  (layer expanded : JsSet) : Prop :=
  (forall x, In x expanded
             <-> within nb maxNeighborsPerNode allowedEdgeTypes seedIds i x)
  /\ incl layer expanded
  /\ (forall y, In y expanded -> ~ In y layer ->
        forall x, In x (successors nb maxNeighborsPerNode allowedEdgeTypes y) ->
                  In x expanded).

(** The degree by which a ranking mode orders the connected identifiers:
    the length of the adjacency list, or the degree in the links of
    step 4. *)
Definition rankDegree (nb : NetworkBuilder) (state : NetworkBuilderState)
  (searchLogic : SearchLogic) (nodeRankingMode : RankingMode) (x : string) : Z :=
  match nodeRankingMode with
  | RankGlobal => adjacencyDegree nb x
  | RankSubgraph => degreeIn x (candidateLinksOf nb state searchLogic)
  end.

(** ** The callers of the engine (src/App.tsx) *)

Module App.

(** [{ ...node, val: degree, totalVal: node.totalVal }]: a copy of the node
    object with [val] replaced. *)
Definition withVal (node : GraphNode) (degree : Z) : GraphNode :=
  {| id := id node; name := name node; node_type := node_type node;
     val := Some degree; totalVal := totalVal node;
     color := color node; baseColor := baseColor node;
     display_label := display_label node; properties := properties node;
     full_name := full_name node; text := text node;
     section_text := section_text node; index_heading := index_heading node;
     attrs := attrs node |}.

(** The parameter object of [executeBottomUpSearch]. *)
Record BottomUpParams : Type := {
  keywords : string;
  expansionDegree : Z;
  maxNodes : Z;
  nodeTypes : list string;
  edgeTypes : list string;
  searchFields : list string;
  searchLogic : SearchLogic;
  nodeRankingMode : RankingMode
}.

(** [s.split(sep)] for a one-character separator. *)
Fixpoint split (sep : ascii) (s : string) : list string :=
  match s with
  | EmptyString => [EmptyString]
  | String.String c s' =>
      if Ascii.eqb c sep then EmptyString :: split sep s'
      else match split sep s' with
           | t :: ts => String.String c t :: ts
           | [] => [String.String c EmptyString]
           end
  end.

(** [params.keywords.split(',').map(t => t.trim()).filter(t => t)] *)
Definition searchTermsOf (keywords0 : string) : list string :=
  filter (fun t => negb (String.eqb t "")) (map trim (split "," keywords0)).

(** The sum of the degrees of the two ends of a link, by which
    [executeBottomUpSearch] sorts the links. *)
Definition linkDegree (nodeDegrees : JsMap Z) (link : GraphLink) : Z :=
  degreeOf nodeDegrees (sourceId link) + degreeOf nodeDegrees (targetId link).

(** [finalLinks] and [linksTruncated]. *)
Definition capLinks (limit : Z) (filtered : FilteredGraph) : list GraphLink * bool :=
  if limit <? Z.of_nat (List.length (links filtered)) then
    let nodeDegrees := countDegrees (links filtered) in
    (slice0
       (Js.sort (fun a b => linkDegree nodeDegrees b - linkDegree nodeDegrees a)
          (links filtered))
       limit,
     true)
  else (links filtered, false).

(** The graph that [executeBottomUpSearch] hands to [setDisplayGraph]. *)
Definition displayGraphOf (limit : Z) (filtered : FilteredGraph) : FilteredGraph :=
  let finalLinks := fst (capLinks limit filtered) in
  let linksTruncated := snd (capLinks limit filtered) in
  let nodesInFinalLinks := nodesWithEdges finalLinks in
  {| nodes := filter (fun n => set_has nodesInFinalLinks (id n)) (nodes filtered);
     links := finalLinks;
     truncated := (truncated filtered || linksTruncated)%bool;
     matchedCount := matchedCount filtered |}.

(** [executeBottomUpSearch]: [None] where the callback returns at once (no
    builder, or no search field); otherwise the displayed graph and the
    engine after the query. *)
Definition executeBottomUpSearch (builder : option NetworkBuilder) (limit : Z)
  (params : BottomUpParams) : option (FilteredGraph * NetworkBuilder) :=
  match builder with
  | None => None
  | Some nb =>
      if (List.length (searchFields params) =? 0)%nat then None
      else
        let terms := searchTermsOf (keywords params) in
        let builderState :=
          Build_NetworkBuilderState terms (searchFields params)
            (nodeTypes params) (edgeTypes params)
            (expansionDegree params) 100 (maxNodes params) in
        let filtered :=
          buildNetwork nb builderState (searchLogic params) (nodeRankingMode params) in
        Some (displayGraphOf limit (fst filtered), snd filtered)
  end.

(** [sourceNode?.node_type && enabledNodeTypes.has(sourceNode.node_type)],
    with [sourceNode] found by identifier among the displayed nodes. *)
Definition enabledEnd (enabledNodeTypes : JsSet) (ns : list GraphNode)
  (endId : string) : bool :=
  match find (fun n => String.eqb (id n) endId) ns with
  | Some node =>
      (negb (String.eqb (node_type node) "")
       && set_has enabledNodeTypes (node_type node))%bool
  | None => false
  end.

(** The memoized [filteredDisplayGraph]; the two enabled sets are
    duplicate-free lists, their [size] the length. *)
Definition filteredDisplayGraph (buildMode : string)
  (enabledCategories enabledNodeTypes : JsSet) (displayGraph : FilteredGraph)
  : FilteredGraph :=
  if negb (String.eqb buildMode "bottomUp") then displayGraph
  else
    let byCategory :=
      if ((0 <? List.length enabledCategories)%nat
          && (List.length enabledCategories <? 3)%nat)%bool
      then filter (fun link =>
                     (negb (String.eqb (edge_type link) "")
                      && set_has enabledCategories (edge_type link))%bool)
             (links displayGraph)
      else links displayGraph in
    let filteredLinks :=
      if (0 <? List.length enabledNodeTypes)%nat
      then filter (fun link =>
                     (enabledEnd enabledNodeTypes (nodes displayGraph) (sourceId link)
                      && enabledEnd enabledNodeTypes (nodes displayGraph)
                           (targetId link))%bool)
             byCategory
      else byCategory in
    let connectedNodeIds := nodesWithEdges filteredLinks in
    let freshLinks := map freshLink filteredLinks in
    let nodeDegrees := countDegrees freshLinks in
    {| nodes :=
         map (fun node => withVal node (displayDegree nodeDegrees (id node)))
           (filter (fun n => set_has connectedNodeIds (id n)) (nodes displayGraph));
       links := freshLinks;
       truncated := truncated displayGraph;
       matchedCount := matchedCount displayGraph |}.

(** The bottom-up effect without keywords: the full graph of the scope,
    capped at [maxHops] nodes and [limit] links. *)
Definition noSearchDisplayGraph (maxHops : option Z) (limit : Z)
  (fullNodes : list GraphNode) (fullLinks : list GraphLink) : FilteredGraph :=
  let cappedNodes :=
    match maxHops with
    | Some h => if h <? Z.of_nat (List.length fullNodes)
                then slice0 fullNodes h else fullNodes
    | None => fullNodes
    end in
  let allowed := new_Set (map id cappedNodes) in
  let cappedLinks0 :=
    filter (fun l => (set_has allowed (sourceId l) && set_has allowed (targetId l))%bool)
      fullLinks in
  let linksWereCapped := limit <? Z.of_nat (List.length cappedLinks0) in
  let cappedLinks := if linksWereCapped then slice0 cappedLinks0 limit else cappedLinks0 in
  let nodesWereCapped :=
    negb (List.length cappedNodes =? List.length fullNodes)%nat in
  {| nodes := cappedNodes;
     links := cappedLinks;
     truncated := (nodesWereCapped || linksWereCapped)%bool;
     matchedCount := List.length cappedNodes |}.

End App.

(** A string has a character that is not white space. *)
Definition hasNonSpace (l : list ascii) : bool :=
  existsb (fun c => negb (is_space c)) l.

(** ** The graph queries behind the side panels (src/api.ts)

    The functions of [api.ts] first resolve a graph through the cache
    ([getGraphOrThrow]); they are modelled on the node and link lists of the
    graph so resolved. *)

Module Api.

(** [scopedKey(time, id)], the template [`${time}::${id}`]. *)
Definition scopedKey (time0 : Js.value) (nodeId : string) : string :=
  (String_of time0 ++ "::" ++ nodeId)%string.

(** [n.time === timeScope] on a node, whose [time] is among [attrs]. *)
Definition nodeInScope (timeScope : string) (n : GraphNode) : bool :=
  match getAttr n "time" with
  | Str t => String.eqb t timeScope
  | _ => false
  end.

(** [link.time === timeScope] *)
Definition linkInScope (timeScope : string) (link : GraphLink) : bool :=
  match time link with
  | Some t => String.eqb t timeScope
  | None => false
  end.

(** [new Map(graph.nodes.map(n => [scopedKey(n.time, String(n.id)), n]))] *)
Definition nodeMap (ns : list GraphNode) : JsMap GraphNode :=
  fold_left (fun m n => map_set m (scopedKey (getAttr n "time") (id n)) n) ns [].

Record Stats : Type := {
  totalDocuments : nat;
  totalTriples : nat;
  totalActors : nat;
  categories : list (string * Z)
}.

(** The counting loop of [fetchStats]; an object keeps the insertion order
    of its keys (edge types are not array indices). *)
Definition edgeTypeCounts (ls : list GraphLink) : JsMap Z :=
  fold_left
    (fun m link => map_set m (edge_type link) (degreeOf m (edge_type link) + 1))
    ls [].

Definition fetchStats (ns : list GraphNode) (ls : list GraphLink) : Stats :=
  {| totalDocuments := List.length ns;
     totalTriples := List.length ls;
     totalActors := List.length ns;
     categories := edgeTypeCounts ls |}.

(** The properties of a link that a row copies. *)
Definition linkTimestamp (link : GraphLink) : option string := timestamp link.
Definition linkAction (link : GraphLink) : string := action link.
Definition linkLocation (link : GraphLink) : option string := location link.
Definition linkEdgeType (link : GraphLink) : string := edge_type link.
Definition linkDefinition (link : GraphLink) : option string := definition link.
Definition nodeId (n : GraphNode) : string := id n.

(** [x || null] on an optional string. *)
Definition orNull (o : option string) : option string :=
  match o with
  | Some s => if String.eqb s "" then None else Some s
  | None => None
  end.

(** [node?.name || String(id)] *)
Definition nameOr (node : option GraphNode) (endId : string) : string :=
  match node with
  | Some n => if String.eqb (name n) "" then endId else name n
  | None => endId
  end.

(** [node?.node_type && enabledNodeTypes.includes(node.node_type)], the
    node being looked up in [nodeMap] under the time scope. *)
Definition typeEnabled (nm : JsMap GraphNode) (timeScope : string)
  (enabledNodeTypes : list string) (endId : string) : bool :=
  match map_get nm (scopedKey (Str timeScope) endId) with
  | Some n =>
      (negb (String.eqb (node_type n) "")
       && Array_includes enabledNodeTypes (node_type n))%bool
  | None => false
  end.

(** The links of the time scope that touch the actor. *)
Definition relatedLinksOf (ls : list GraphLink) (timeScope actorNodeId : string)
  : list GraphLink :=
  filter
    (fun link =>
       (linkInScope timeScope link
        && (String.eqb (sourceId link) actorNodeId
            || String.eqb (targetId link) actorNodeId))%bool)
    ls.

(** The text chain of [fetchDocumentText]. *)
Definition fetchDocumentText (ns : list GraphNode) (docId timeScope : string)
  : Js.value :=
  let fallback := Str "No text available for this node." in
  match find (fun n => (String.eqb (id n) docId && nodeInScope timeScope n)%bool) ns with
  | Some node =>
      Js.or (Js.or (Js.or (Js.or (Js.or (prop node "text") (of_option (text node)))
                                 (of_option (section_text node)))
                          (prop node "full_name"))
                   (of_option (full_name node)))
            fallback
  | None => fallback
  end.

Record Relationship : Type := {
  id : nat;
  doc_id : string;
  timestamp : option string;
  actor : string;
  action : string;
  target : string;
  location : option string;
  tags : list string;
  actor_type : option string;
  target_type : option string;
  actor_id : string;
  target_id : string;
  edge_type : option string;
  definition : option string;
  actor_display_label : option string;
  target_display_label : option string
}.

(** The row that [fetchActorRelationships] makes of a link. *)
Definition toRelationship (nm : JsMap GraphNode) (timeScope : string)
  (idx : nat) (link : GraphLink) : Relationship :=
  let sourceNode := map_get nm (scopedKey (Str timeScope) (sourceId link)) in
  let targetNode := map_get nm (scopedKey (Str timeScope) (targetId link)) in
  {| id := idx;
     doc_id := sourceId link;
     timestamp := orNull (linkTimestamp link);
     actor := nameOr sourceNode (sourceId link);
     action := linkAction link;
     target := nameOr targetNode (targetId link);
     location := orNull (linkLocation link);
     tags := [];
     actor_type := option_map node_type sourceNode;
     target_type := option_map node_type targetNode;
     actor_id := sourceId link;
     target_id := targetId link;
     edge_type := Some (linkEdgeType link);
     definition := linkDefinition link;
     actor_display_label :=
       match sourceNode with Some n => display_label n | None => None end;
     target_display_label :=
       match targetNode with Some n => display_label n | None => None end |}.

(** [links.map((link, idx) => ...)] *)
Definition mapWithIndex {A B : Type} (f : nat -> A -> B) (l : list A) : list B :=
  map (fun p => f (fst p) (snd p)) (combine (seq 0 (List.length l)) l).

(** [fetchActorRelationships]: the rows and [totalBeforeFilter].  The
    parameters that the function does not read (clusterIds, yearRange,
    includeUndated, keywords, maxHops) are left out; [enabledNodeTypes] is
    optional. *)
Definition fetchActorRelationships (ns : list GraphNode) (ls : list GraphLink)
  (actorId : string) (categories0 : list string) (timeScope : string)
  (enabledNodeTypes : option (list string)) : list Relationship * nat :=
  match find (fun n => (String.eqb (nodeId n) actorId && nodeInScope timeScope n)%bool)
          ns with
  | None => ([], 0%nat)
  | Some actorNode =>
      let nm := nodeMap ns in
      let relatedLinks0 := relatedLinksOf ls timeScope (nodeId actorNode) in
      let totalBeforeFilter := List.length relatedLinks0 in
      let relatedLinks1 :=
        if ((0 <? List.length categories0)%nat
            && (List.length categories0 <? 3)%nat)%bool
        then filter (fun link => Array_includes categories0 (linkEdgeType link))
               relatedLinks0
        else relatedLinks0 in
      let relatedLinks :=
        match enabledNodeTypes with
        | Some types =>
            if ((0 <? List.length types)%nat && (List.length types <? 3)%nat)%bool
            then filter (fun link =>
                           (typeEnabled nm timeScope types (sourceId link)
                            && typeEnabled nm timeScope types (targetId link))%bool)
                   relatedLinks1
            else relatedLinks1
        | None => relatedLinks1
        end in
      (mapWithIndex (toRelationship nm timeScope) relatedLinks, totalBeforeFilter)
  end.

(** [fetchNodeRelationships] passes no [enabledNodeTypes]. *)
Definition fetchNodeRelationships (ns : list GraphNode) (ls : list GraphLink)
  (nodeId0 : string) (categories0 : list string) (timeScope : string)
  : list Relationship * nat :=
  fetchActorRelationships ns ls nodeId0 categories0 timeScope None.

End Api.

(** The three edge types of [GraphLink.edge_type] (src/types.ts). *)
Definition allEdgeTypes : list string := ["definition"; "reference"; "hierarchy"].

(** The number of links of an edge type. *)
Definition linksOfType (c : string) (ls : list GraphLink) : nat :=
  List.length (filter (fun l => String.eqb (edge_type l) c) ls).

(** The sum of the counts of a table. *)
Definition totalCount (m : JsMap Z) : Z := fold_right Z.add 0 (map_values m).

(** The star of [Sample.star] as a graph of the time scope 2024, with one
    link of another scope. *)
Module ApiSample.

Definition inScope (t : string) (n : GraphNode) : GraphNode :=
  {| id := id n; name := name n; node_type := node_type n;
     val := val n; totalVal := totalVal n; color := color n;
     baseColor := baseColor n; display_label := display_label n;
     properties := properties n; full_name := full_name n; text := text n;
     section_text := section_text n; index_heading := index_heading n;
     attrs := ("time", Str t) :: attrs n |}.

Definition linkInScope (t : string) (l : GraphLink) : GraphLink :=
  {| source := source l; target := target l; edge_type := edge_type l;
     action := action l; time := Some t; usc_title := usc_title l;
     source_title := source_title l; weight := weight l;
     definition := definition l; location := location l;
     timestamp := timestamp l |}.

Definition nodes : list GraphNode :=
  map (inScope "2024") (allNodes Sample.star).

Definition links : list GraphLink :=
  map (linkInScope "2024") (allLinks Sample.star)
  ++ [linkInScope "2015" (Sample.link "A" "B" "definition")].

End ApiSample.

(** The links of [ls] that touch [x], and those that go from [x] to [x]. *)
Definition incidentLinks (x : string) (ls : list GraphLink) : list GraphLink :=
  filter (fun l => (String.eqb (sourceId l) x || String.eqb (targetId l) x)%bool) ls.

Definition selfLinks (x : string) (ls : list GraphLink) : list GraphLink :=
  filter (fun l => (String.eqb (sourceId l) x && String.eqb (targetId l) x)%bool) ls.

(** The type test of step 5 removes no connected candidate: every entry of
    [candidateNodeMap] that is an end of a link of step 4 has a type that
    passes (vacuously so where the query is cut short). *)
Definition typeFilterKeepsConnected (nb : NetworkBuilder)
  (state : NetworkBuilderState) (searchLogic : SearchLogic) : bool :=
  match candidateIds nb state searchLogic with
  | None => true
  | Some c =>
      let cmap := candidateNodeMap nb c in
      forallb
        (fun kv => (negb (hasIncidentLink (fst kv) (candidateLinks nb state cmap))
                    || typeMatch state (snd (snd kv)))%bool)
        cmap
  end.

(** Every character of the string is an ASCII character (below 128): the
    strings on which [toLowerCase] and [trim] are those of JavaScript. *)
Definition isAscii (s : string) : bool :=
  forallb (fun c => (nat_of_ascii c <? 128)%nat) (list_ascii_of_string s).

(** * Properties *)

(** ** Sets and maps *)

Section SetFacts.

Lemma set_has_In (s : JsSet) (x : string) : set_has s x = true <-> In x s.
Proof.
  unfold set_has. rewrite existsb_exists. split.
  - intros [y [Hy Heq]]. apply String.eqb_eq in Heq. now subst.
  - intros H. exists x. split; [assumption | apply String.eqb_refl].
Qed.

Lemma set_has_false (s : JsSet) (x : string) : set_has s x = false <-> ~ In x s.
Proof.
  rewrite <- set_has_In. destruct (set_has s x); split; congruence.
Qed.

Lemma set_add_In (s : JsSet) (x y : string) :
  In y (set_add s x) <-> In y s \/ y = x.
Proof.
  unfold set_add. destruct (set_has s x) eqn:E.
  - apply set_has_In in E. split; [tauto | intros [H | ->]; assumption].
  - rewrite in_app_iff. simpl. intuition congruence.
Qed.

Lemma set_add_incl (s : JsSet) (x : string) : incl s (set_add s x).
Proof. intros y Hy. apply set_add_In. now left. Qed.

Lemma set_add_NoDup (s : JsSet) (x : string) : NoDup s -> NoDup (set_add s x).
Proof.
  intros H. unfold set_add. destruct (set_has s x) eqn:E; [assumption |].
  apply set_has_false in E.
  apply NoDup_app; [assumption | repeat constructor; simpl; tauto |].
  intros y Hy [<- | []]. contradiction.
Qed.

Lemma fold_set_add_In (xs : list string) (s : JsSet) (y : string) :
  In y (fold_left set_add xs s) <-> In y s \/ In y xs.
Proof.
  revert s. induction xs as [| x xs IH]; intros s; simpl.
  - tauto.
  - rewrite IH, set_add_In. intuition congruence.
Qed.

Lemma fold_set_add_NoDup (xs : list string) (s : JsSet) :
  NoDup s -> NoDup (fold_left set_add xs s).
Proof.
  revert s. induction xs as [| x xs IH]; intros s H; simpl; [assumption |].
  apply IH. now apply set_add_NoDup.
Qed.

Lemma new_Set_In (xs : list string) (y : string) : In y (new_Set xs) <-> In y xs.
Proof. unfold new_Set. rewrite fold_set_add_In. simpl. tauto. Qed.

Lemma new_Set_NoDup (xs : list string) : NoDup (new_Set xs).
Proof. apply fold_set_add_NoDup. constructor. Qed.

Lemma fold_set_add_fresh (xs : list string) (s : JsSet) :
  NoDup (s ++ xs) -> fold_left set_add xs s = s ++ xs.
Proof.
  revert s. induction xs as [| x xs IH]; intros s H; simpl.
  - now rewrite app_nil_r.
  - assert (E : set_add s x = s ++ [x]).
    { unfold set_add. destruct (set_has s x) eqn:E; [| reflexivity].
      apply set_has_In in E. apply NoDup_remove_2 in H.
      exfalso. apply H. apply in_or_app. now left. }
    rewrite E. rewrite IH; rewrite <- app_assoc; simpl; [reflexivity | assumption].
Qed.

(** Copying a set gives the same set. *)
Lemma new_Set_id (xs : list string) : NoDup xs -> new_Set xs = xs.
Proof. intros H. unfold new_Set. now rewrite fold_set_add_fresh. Qed.

End SetFacts.

Section MapFacts.

Context {V : Type}.

Lemma map_get_set_same (m : JsMap V) (k : string) (v : V) :
  map_get (map_set m k v) k = Some v.
Proof.
  induction m as [| [k' v'] m IH]; simpl.
  - now rewrite String.eqb_refl.
  - destruct (String.eqb k k') eqn:E; simpl; rewrite E; [reflexivity | assumption].
Qed.

Lemma map_get_set_other (m : JsMap V) (k k0 : string) (v : V) :
  k0 <> k -> map_get (map_set m k v) k0 = map_get m k0.
Proof.
  intros Hne. induction m as [| [k' v'] m IH]; simpl.
  - apply String.eqb_neq in Hne. now rewrite Hne.
  - destruct (String.eqb k k') eqn:E; simpl.
    + apply String.eqb_eq in E. subst k'.
      apply String.eqb_neq in Hne. now rewrite Hne.
    + now rewrite IH.
Qed.

Lemma map_has_keys (m : JsMap V) (k : string) :
  map_has m k = true <-> In k (map_keys m).
Proof.
  unfold map_has. induction m as [| [k' v'] m IH]; simpl.
  - split; [discriminate | tauto].
  - destruct (String.eqb k k') eqn:E.
    + apply String.eqb_eq in E. subst. tauto.
    + apply String.eqb_neq in E. rewrite IH. intuition congruence.
Qed.

Lemma map_get_In (m : JsMap V) (k : string) (v : V) :
  map_get m k = Some v -> In (k, v) m.
Proof.
  induction m as [| [k' v'] m IH]; simpl; [discriminate |].
  destruct (String.eqb k k') eqn:E.
  - apply String.eqb_eq in E. subst. intros [= ->]. now left.
  - intros H. right. now apply IH.
Qed.

Lemma map_set_keys_In (m : JsMap V) (k k0 : string) (v : V) :
  In k0 (map_keys (map_set m k v)) <-> In k0 (map_keys m) \/ k0 = k.
Proof.
  induction m as [| [k' v'] m IH]; simpl.
  - intuition congruence.
  - destruct (String.eqb k k') eqn:E; simpl.
    + apply String.eqb_eq in E. subst. intuition congruence.
    + rewrite IH. tauto.
Qed.

Lemma map_set_keys_NoDup (m : JsMap V) (k : string) (v : V) :
  NoDup (map_keys m) -> NoDup (map_keys (map_set m k v)).
Proof.
  induction m as [| [k' v'] m IH]; simpl; intros H.
  - repeat constructor. simpl. tauto.
  - destruct (String.eqb k k') eqn:E; simpl; [assumption |].
    inversion H as [| ? ? Hn Hd]; subst. constructor; [| now apply IH].
    fold (map_keys (map_set m k v)). rewrite map_set_keys_In.
    apply String.eqb_neq in E. intros [Hin | Heq]; [contradiction | congruence].
Qed.

Lemma map_set_In (m : JsMap V) (k : string) (v : V) (e : string * V) :
  In e (map_set m k v) -> In e m \/ e = (k, v).
Proof.
  induction m as [| [k' v'] m IH]; simpl.
  - intros [<- | []]. now right.
  - destruct (String.eqb k k') eqn:E; simpl.
    + apply String.eqb_eq in E. subst. intros [<- | H]; tauto.
    + intros [<- | H]; [tauto |]. destruct (IH H); tauto.
Qed.

Lemma map_set_length_new (m : JsMap V) (k : string) (v : V) :
  map_has m k = false -> map_set m k v = m ++ [(k, v)].
Proof.
  unfold map_has. induction m as [| [k' v'] m IH]; simpl; [reflexivity |].
  destruct (String.eqb k k') eqn:E; [discriminate |].
  intros H. now rewrite IH.
Qed.

End MapFacts.

(** ** Search: AND against OR *)

Lemma searchNodes_In (nb : NetworkBuilder) (terms fields : list string)
  (logic : SearchLogic) (x : string) :
  In x (searchNodes nb terms fields logic) <->
  exists node, In node (allNodes nb) /\ id node = x /\
    nodeMatches logic (map (fun t => trim (toLowerCase t)) terms)
      (searchableValues node fields) = true.
Proof.
  unfold searchNodes.
  set (nt := map (fun t => trim (toLowerCase t)) terms).
  assert (G : forall ns acc,
    In x (fold_left (fun matchedIds node =>
            if nodeMatches logic nt (searchableValues node fields)
            then set_add matchedIds (id node) else matchedIds) ns acc) <->
    In x acc \/ exists node, In node ns /\ id node = x /\
      nodeMatches logic nt (searchableValues node fields) = true).
  { induction ns as [| n ns IH]; intros acc; simpl.
    - split; [tauto | intros [H | [? [[] _]]]; assumption].
    - rewrite IH. destruct (nodeMatches logic nt (searchableValues n fields)) eqn:E.
      + rewrite set_add_In. split.
        * intros [[H | ->] | [m [Hm Hr]]]; [tauto | right; exists n; tauto |].
          right. exists m. tauto.
        * intros [H | [m [[<- | Hm] [Hid Hr]]]]; [tauto | left; right; congruence |].
          right. exists m. tauto.
      + split.
        * intros [H | [m [Hm Hr]]]; [tauto |]. right. exists m. tauto.
        * intros [H | [m [[<- | Hm] [Hid Hr]]]]; [tauto | congruence |].
          right. exists m. tauto. }
  rewrite G. simpl. tauto.
Qed.

Lemma forallb_existsb_nonempty {A : Type} (p : A -> bool) (l : list A) :
  l <> [] -> forallb p l = true -> existsb p l = true.
Proof.
  destruct l as [| a l]; [congruence |]. simpl. intros _ H.
  apply andb_true_iff in H. destruct H as [H _]. now rewrite H.
Qed.

(** C9.  With at least one search term, a node that matches under AND logic
    matches under OR logic, and every identifier returned by [searchNodes]
    under AND is returned under OR for the same terms and fields. *)
Theorem searchNodes_AND_subset_OR (nb : NetworkBuilder) (terms fields : list string) :
  terms <> [] ->
  (forall node : GraphNode,
      nodeMatches AND (map (fun t => trim (toLowerCase t)) terms)
        (searchableValues node fields) = true ->
      nodeMatches OR (map (fun t => trim (toLowerCase t)) terms)
        (searchableValues node fields) = true) /\
  (forall x : string,
      set_has (searchNodes nb terms fields AND) x = true ->
      set_has (searchNodes nb terms fields OR) x = true).
Proof.
  intros Hne.
  assert (Hnode : forall node : GraphNode,
      nodeMatches AND (map (fun t => trim (toLowerCase t)) terms)
        (searchableValues node fields) = true ->
      nodeMatches OR (map (fun t => trim (toLowerCase t)) terms)
        (searchableValues node fields) = true).
  { intros node H. simpl in *. apply forallb_existsb_nonempty; [| assumption].
    destruct terms; [congruence | discriminate]. }
  split; [exact Hnode |].
  intros x H. apply set_has_In in H. apply set_has_In.
  apply searchNodes_In in H. destruct H as [node [Hin [Hid Hm]]].
  apply searchNodes_In. exists node. auto.
Qed.

Lemma searchNodes_AND_subset_OR_witness :
  ["b"; "B"] <> [] /\
  set_has (searchNodes Sample.abc ["b"; "B"] ["entity"] OR) "B" = true.
Proof.
  split; [discriminate |].
  apply (proj2 (searchNodes_AND_subset_OR Sample.abc ["b"; "B"] ["entity"]
                  ltac:(discriminate)) "B").
  reflexivity.
Defined.

(** ** Expansion *)

Lemma visit_incl (st : JsSet * JsSet) (n : Neighbor) : incl (snd st) (snd (visit st n)).
Proof.
  unfold visit. destruct (set_has (snd st) (neighborId n)); simpl.
  - apply incl_refl.
  - apply set_add_incl.
Qed.

Lemma fold_visit_incl (ns : list Neighbor) (st : JsSet * JsSet) :
  incl (snd st) (snd (fold_left visit ns st)).
Proof.
  revert st. induction ns as [| n ns IH]; intros st; simpl.
  - apply incl_refl.
  - eapply incl_tran; [apply visit_incl | apply IH].
Qed.

Lemma expandLayer_incl (nb : NetworkBuilder) (cap : Z) (types : list string)
  (layer expanded : JsSet) :
  incl expanded (snd (expandLayer nb cap types layer expanded)).
Proof.
  unfold expandLayer.
  change expanded with (snd (@nil string, expanded)) at 1.
  generalize (@nil string, expanded) as st.
  induction layer as [| x layer IH]; intros st; simpl.
  - apply incl_refl.
  - eapply incl_tran; [apply fold_visit_incl | apply IH].
Qed.

Lemma expandLoop_incl_start (nb : NetworkBuilder) (cap : Z) (types : list string)
  (k : nat) (layer expanded : JsSet) :
  incl expanded (expandLoop nb cap types k layer expanded).
Proof.
  revert layer expanded. induction k as [| k IH]; intros layer expanded; simpl.
  - apply incl_refl.
  - destruct (List.length (fst (expandLayer nb cap types layer expanded)) =? 0)%nat.
    + apply expandLayer_incl.
    + eapply incl_tran; [apply expandLayer_incl | apply IH].
Qed.

Lemma expandLoop_succ_incl (nb : NetworkBuilder) (cap : Z) (types : list string)
  (k : nat) (layer expanded : JsSet) :
  incl (expandLoop nb cap types k layer expanded)
       (expandLoop nb cap types (S k) layer expanded).
Proof.
  revert layer expanded. induction k as [| k IH]; intros layer expanded.
  - simpl.
    destruct (List.length (fst (expandLayer nb cap types layer expanded)) =? 0)%nat;
      apply expandLayer_incl.
  - change (expandLoop nb cap types (S (S k)) layer expanded) with
      (let st := expandLayer nb cap types layer expanded in
       if (List.length (fst st) =? 0)%nat then snd st
       else expandLoop nb cap types (S k) (fst st) (snd st)).
    change (expandLoop nb cap types (S k) layer expanded) with
      (let st := expandLayer nb cap types layer expanded in
       if (List.length (fst st) =? 0)%nat then snd st
       else expandLoop nb cap types k (fst st) (snd st)).
    cbv zeta.
    destruct (List.length (fst (expandLayer nb cap types layer expanded)) =? 0)%nat.
    + apply incl_refl.
    + apply IH.
Qed.

(** C8.  The set returned at depth [d] is included in the set returned at
    depth [d + 1], all other arguments being the same (stated for every
    integer depth, the non-negative ones in particular). *)
Theorem expandFromSeeds_depth_monotone (nb : NetworkBuilder) (seedIds : JsSet)
  (allowedEdgeTypes : list string) (maxNeighborsPerNode d : Z) (x : string) :
  set_has (expandFromSeeds nb seedIds d maxNeighborsPerNode allowedEdgeTypes) x = true ->
  set_has (expandFromSeeds nb seedIds (d + 1) maxNeighborsPerNode allowedEdgeTypes) x = true.
Proof.
  rewrite !set_has_In. unfold expandFromSeeds.
  destruct (Z_lt_le_dec d 0) as [Hneg | Hpos].
  - replace (Z.to_nat (d + 1)) with O by lia. replace (Z.to_nat d) with O by lia.
    auto.
  - replace (Z.to_nat (d + 1)) with (S (Z.to_nat d)) by lia.
    apply expandLoop_succ_incl.
Qed.

Lemma expandFromSeeds_depth_monotone_witness :
  set_has (expandFromSeeds Sample.abc ["A"] (1 + 1) 0 ["reference"; "definition"]) "B" = true.
Proof.
  apply (expandFromSeeds_depth_monotone Sample.abc ["A"] ["reference"; "definition"] 0 1 "B").
  reflexivity.
Defined.

(** *** The empty edge-type allow-list in [expandFromSeeds] *)

Lemma coversEdgeTypes_neighbors (types : list string) (adj : JsMap (list Neighbor))
  (k : string) (n : Neighbor) :
  coversEdgeTypes types adj = true ->
  In n (neighborsOf adj k) -> Array_includes types (edgeType n) = true.
Proof.
  unfold coversEdgeTypes, neighborsOf. intros Hc Hin.
  destruct (map_get adj k) as [l |] eqn:E; [| contradiction].
  apply map_get_In in E. rewrite forallb_forall in Hc.
  specialize (Hc _ E). simpl in Hc. rewrite forallb_forall in Hc. now apply Hc.
Qed.

Lemma filter_all {A : Type} (p : A -> bool) (l : list A) :
  (forall a, In a l -> p a = true) -> filter p l = l.
Proof.
  induction l as [| a l IH]; simpl; intros H; [reflexivity |].
  rewrite (H a (or_introl eq_refl)). f_equal. apply IH. intros b Hb. apply H. now right.
Qed.

Lemma limitedNeighbors_empty_allow_list (nb : NetworkBuilder) (cap : Z)
  (types : list string) (nodeId : string) :
  coversEdgeTypes types (adjacencyMap nb) = true ->
  limitedNeighbors nb cap [] nodeId = limitedNeighbors nb cap types nodeId.
Proof.
  intros Hc. unfold limitedNeighbors. simpl.
  destruct (0 <? List.length types)%nat; [| reflexivity].
  rewrite filter_all; [reflexivity |].
  intros n Hn. eapply coversEdgeTypes_neighbors; eassumption.
Qed.

Lemma expandLayer_empty_allow_list (nb : NetworkBuilder) (cap : Z)
  (types : list string) (layer expanded : JsSet) :
  coversEdgeTypes types (adjacencyMap nb) = true ->
  expandLayer nb cap [] layer expanded = expandLayer nb cap types layer expanded.
Proof.
  intros Hc. unfold expandLayer. generalize (@nil string, expanded) as st.
  induction layer as [| x layer IH]; intros st; simpl; [reflexivity |].
  rewrite (limitedNeighbors_empty_allow_list nb cap types x Hc). apply IH.
Qed.

Lemma expandLoop_empty_allow_list (nb : NetworkBuilder) (cap : Z)
  (types : list string) (k : nat) (layer expanded : JsSet) :
  coversEdgeTypes types (adjacencyMap nb) = true ->
  expandLoop nb cap [] k layer expanded = expandLoop nb cap types k layer expanded.
Proof.
  intros Hc. revert layer expanded.
  induction k as [| k IH]; intros layer expanded; simpl; [reflexivity |].
  rewrite (expandLayer_empty_allow_list nb cap types layer expanded Hc).
  destruct (List.length (fst (expandLayer nb cap types layer expanded)) =? 0)%nat;
    [reflexivity | apply IH].
Qed.

(** C2, as the code has it.  With an empty [allowedEdgeTypes] list
    [expandFromSeeds] filters no edge by type: it returns the set it returns
    for any allow-list that contains every edge type of the adjacency index,
    and that set contains every seed. *)
Theorem expandFromSeeds_empty_allow_list (nb : NetworkBuilder) (seedIds : JsSet)
  (depth maxNeighborsPerNode : Z) (types : list string) :
  coversEdgeTypes types (adjacencyMap nb) = true ->
  expandFromSeeds nb seedIds depth maxNeighborsPerNode [] =
  expandFromSeeds nb seedIds depth maxNeighborsPerNode types /\
  (forall x, In x seedIds ->
             set_has (expandFromSeeds nb seedIds depth maxNeighborsPerNode []) x = true).
Proof.
  intros Hc. split.
  - unfold expandFromSeeds. now apply expandLoop_empty_allow_list.
  - intros x Hx. apply set_has_In. unfold expandFromSeeds.
    apply expandLoop_incl_start. now apply new_Set_In.
Qed.

Lemma expandFromSeeds_empty_allow_list_witness :
  expandFromSeeds Sample.abc ["A"] 2 0 [] = ["A"; "B"; "C"] /\
  expandFromSeeds Sample.abc ["A"] 2 0 ["reference"; "definition"] = ["A"; "B"; "C"].
Proof.
  destruct (expandFromSeeds_empty_allow_list Sample.abc ["A"] 2 0
              ["reference"; "definition"] eq_refl) as [H _].
  split; [reflexivity |]. rewrite <- H. reflexivity.
Defined.

(** C2, as stated, fails: from the seed A, with the empty allow-list, one
    iteration adds the neighbour B. *)
Lemma expandFromSeeds_empty_allow_list_adds_neighbors :
  1 <= 1 /\
  expandFromSeeds Sample.abc ["A"] 1 0 [] = ["A"; "B"] /\
  expandFromSeeds Sample.abc ["A"] 1 0 [] <> ["A"].
Proof.
  split; [lia |]. split; [reflexivity | discriminate].
Qed.

(** ** The empty node-type allow-list in a search query *)

Lemma searchUsed_true (state : NetworkBuilderState) :
  searchTerms state <> [] -> searchFields state <> [] -> searchUsed state = true.
Proof.
  unfold searchUsed. destruct (searchTerms state), (searchFields state);
    intros H1 H2; try congruence; reflexivity.
Qed.

Lemma filter_none {A : Type} (p : A -> bool) (l : list A) :
  (forall a, In a l -> p a = false) -> filter p l = [].
Proof.
  induction l as [| a l IH]; simpl; intros H; [reflexivity |].
  rewrite (H a (or_introl eq_refl)). apply IH. intros b Hb. apply H. now right.
Qed.

Lemma seedsAfterFilter_empty_allow_list (nb : NetworkBuilder)
  (state : NetworkBuilderState) (seedNodeIds : JsSet) :
  allowedNodeTypes state = [] -> seedsAfterFilter nb state seedNodeIds = [].
Proof.
  intros H. unfold seedsAfterFilter. rewrite H. simpl.
  rewrite filter_none; [reflexivity |].
  intros x _. now destruct (findNode nb x).
Qed.

(** C1, as the code has it.  In a query that searches (terms and fields both
    non-empty), an empty [allowedNodeTypes] makes the seed re-filter of step 2
    reject every seed, and [buildNetwork] returns the empty result with
    [matchedCount] 0, leaving the engine as it was. *)
Theorem buildNetwork_search_empty_node_types (nb : NetworkBuilder)
  (state : NetworkBuilderState) (searchLogic : SearchLogic)
  (nodeRankingMode : RankingMode) :
  searchTerms state <> [] -> searchFields state <> [] ->
  allowedNodeTypes state = [] ->
  (forall seedNodeIds, seedsAfterFilter nb state seedNodeIds = []) /\
  buildNetwork nb state searchLogic nodeRankingMode = (emptyResult, nb).
Proof.
  intros Ht Hf Hn. split.
  - intros s. now apply seedsAfterFilter_empty_allow_list.
  - unfold buildNetwork, candidateIds.
    destruct (step1 nb state searchLogic) as [[c s] |]; [| reflexivity].
    unfold step2. rewrite (searchUsed_true state Ht Hf).
    now rewrite (seedsAfterFilter_empty_allow_list nb state s Hn).
Qed.

Lemma buildNetwork_search_empty_node_types_witness :
  buildNetwork Sample.abc
    (Sample.query ["B"] ["entity"] [] ["reference"; "definition"] 1 10)
    OR RankGlobal = (emptyResult, Sample.abc).
Proof.
  apply (buildNetwork_search_empty_node_types Sample.abc
           (Sample.query ["B"] ["entity"] [] ["reference"; "definition"] 1 10)
           OR RankGlobal); simpl; [discriminate | discriminate | reflexivity].
Defined.

(** C1, as stated, fails: the search for B yields the seed B, the empty
    allow-list gives the empty result, and the four node types give A, B
    and C. *)
Lemma buildNetwork_empty_node_types_not_match_all :
  searchNodes Sample.abc ["B"] ["entity"] OR = ["B"] /\
  seedsAfterFilter Sample.abc
    (Sample.query ["B"] ["entity"] [] ["reference"; "definition"] 1 10) ["B"] = [] /\
  map id (nodes (fst (buildNetwork Sample.abc
    (Sample.query ["B"] ["entity"] allNodeTypes ["reference"; "definition"] 1 10)
    OR RankGlobal))) = ["A"; "B"; "C"] /\
  fst (buildNetwork Sample.abc
         (Sample.query ["B"] ["entity"] [] ["reference"; "definition"] 1 10)
         OR RankGlobal) <>
  fst (buildNetwork Sample.abc
         (Sample.query ["B"] ["entity"] allNodeTypes ["reference"; "definition"] 1 10)
         OR RankGlobal).
Proof.
  repeat split; try reflexivity. vm_compute. discriminate.
Qed.

(** ** The node maps of steps 3 and 7 *)

Lemma fold_left_ext {A B : Type} (f g : A -> B -> A) (l : list B) (a : A) :
  (forall x y, f x y = g x y) -> fold_left f l a = fold_left g l a.
Proof.
  intros H. revert a. induction l as [| b l IH]; intros a; simpl; [reflexivity |].
  rewrite H. apply IH.
Qed.

Lemma candidateNodeMap_collect (nb : NetworkBuilder) (c : JsSet) :
  candidateNodeMap nb c = collect (fun r => set_has c (id (snd r))) (nodeRefs nb) [].
Proof. reflexivity. Qed.

Lemma selectedNodeMap_collect (nb : NetworkBuilder) (state : NetworkBuilderState)
  (final : JsSet) :
  selectedNodeMap nb state final =
  collect (fun r => (set_has final (id (snd r)) && typeMatch state (snd r))%bool)
    (nodeRefs nb) [].
Proof.
  unfold selectedNodeMap, collect. apply fold_left_ext. intros m r.
  destruct (set_has final (id (snd r))), (typeMatch state (snd r)); reflexivity.
Qed.

Section Collect.

Variable keep : NodeRef -> bool.

Lemma map_set_keyed (m : JsMap NodeRef) (r : NodeRef) :
  keyed m -> keyed (map_set m (id (snd r)) r).
Proof.
  unfold keyed. induction m as [| [k v] m IH]; simpl; intros H.
  - repeat constructor.
  - inversion H as [| ? ? Hk Hm]; subst. simpl in Hk.
    destruct (String.eqb (id (snd r)) k) eqn:E.
    + apply String.eqb_eq in E. constructor; [simpl; congruence | assumption].
    + constructor; [assumption | now apply IH].
Qed.

Lemma collect_keyed (rs : list NodeRef) (m : JsMap NodeRef) :
  keyed m -> keyed (collect keep rs m).
Proof.
  unfold collect. revert m. induction rs as [| r rs IH]; intros m H; simpl.
  - assumption.
  - apply IH. destruct (keep r); [now apply map_set_keyed | assumption].
Qed.

Lemma collect_In (rs : list NodeRef) (m : JsMap NodeRef) (kv : string * NodeRef) :
  In kv (collect keep rs m) -> In kv m \/ (In (snd kv) rs /\ keep (snd kv) = true).
Proof.
  unfold collect. revert m. induction rs as [| r rs IH]; intros m H; simpl in *.
  - now left.
  - apply IH in H. destruct H as [H | [H1 H2]]; [| tauto].
    destruct (keep r) eqn:E; [| tauto].
    apply map_set_In in H. destruct H as [H | ->]; [tauto |]. simpl. tauto.
Qed.

Lemma collect_keys (rs : list NodeRef) (m : JsMap NodeRef) (k : string) :
  In k (map_keys (collect keep rs m)) <->
  In k (map_keys m) \/ exists r, In r rs /\ keep r = true /\ id (snd r) = k.
Proof.
  unfold collect. revert m. induction rs as [| r rs IH]; intros m; simpl.
  - split; [tauto | intros [H | [r [[] _]]]; assumption].
  - rewrite IH. destruct (keep r) eqn:E.
    + rewrite map_set_keys_In. split.
      * intros [[H | ->] | [r' [H1 H2]]]; [tauto | right; exists r; tauto |].
        right. exists r'. tauto.
      * intros [H | [r' [[<- | H1] [H2 H3]]]]; [tauto | left; right; congruence |].
        right. exists r'. tauto.
    + split.
      * intros [H | [r' [H1 H2]]]; [tauto |]. right. exists r'. tauto.
      * intros [H | [r' [[<- | H1] [H2 H3]]]]; [tauto | congruence |].
        right. exists r'. tauto.
Qed.

Lemma collect_keys_NoDup (rs : list NodeRef) (m : JsMap NodeRef) :
  NoDup (map_keys m) -> NoDup (map_keys (collect keep rs m)).
Proof.
  unfold collect. revert m. induction rs as [| r rs IH]; intros m H; simpl.
  - assumption.
  - apply IH. destruct (keep r); [now apply map_set_keys_NoDup | assumption].
Qed.

End Collect.

Lemma keyed_values_ids (m : JsMap NodeRef) :
  keyed m -> map (fun r => id (snd r)) (map_values m) = map_keys m.
Proof.
  unfold keyed, map_values, map_keys. induction 1 as [| kv m Hk Hm IH]; simpl.
  - reflexivity.
  - rewrite IH. f_equal. symmetry. exact Hk.
Qed.

Lemma keyed_nil : keyed [].
Proof. constructor. Qed.

(** ** Step 8 *)

Lemma paint_ids (d : JsMap Z) (rs : list NodeRef) :
  map (fun r => id (snd r)) (paint d rs) = map (fun r => id (snd r)) rs.
Proof. unfold paint. rewrite !map_map. reflexivity. Qed.

Lemma paint_In (d : JsMap Z) (rs : list NodeRef) (node : GraphNode) :
  In node (map snd (paint d rs)) ->
  exists r, In r rs /\ id node = id (snd r) /\
            val node = Some (displayDegree d (id (snd r))).
Proof.
  unfold paint. rewrite !map_map. intros H. apply in_map_iff in H.
  destruct H as [r [<- Hr]]. exists r. simpl. auto.
Qed.

(** The identifiers of the returned nodes are the keys of [selectedNodeMap]. *)
Lemma assemble_node_ids (nb : NetworkBuilder) (state : NetworkBuilderState)
  (mode : RankingMode) (c : JsSet) :
  map id (nodes (fst (assemble nb state mode c))) =
  map_keys (selectedNodeMap nb state
              (finalNodeIds nb state mode
                 (candidateLinks nb state (candidateNodeMap nb c))
                 (connectedNodeIds state (candidateNodeMap nb c)
                    (candidateLinks nb state (candidateNodeMap nb c))))).
Proof.
  unfold assemble. cbv zeta. simpl nodes.
  rewrite map_map. rewrite paint_ids.
  apply keyed_values_ids. rewrite selectedNodeMap_collect.
  apply collect_keyed, keyed_nil.
Qed.

Lemma freshLink_ends (l : GraphLink) :
  sourceId (freshLink l) = sourceId l /\ targetId (freshLink l) = targetId l.
Proof. split; reflexivity. Qed.

(** ** No dangling links *)

(** C6.  Every link of the result of [buildNetwork] has its source
    identifier and its target identifier among the identifiers of the
    returned nodes. *)
Theorem buildNetwork_no_dangling_links (nb : NetworkBuilder)
  (state : NetworkBuilderState) (searchLogic : SearchLogic)
  (nodeRankingMode : RankingMode) (l : GraphLink) :
  In l (links (fst (buildNetwork nb state searchLogic nodeRankingMode))) ->
  In (sourceId l) (map id (nodes (fst (buildNetwork nb state searchLogic nodeRankingMode))))
  /\ In (targetId l) (map id (nodes (fst (buildNetwork nb state searchLogic nodeRankingMode)))).
Proof.
  unfold buildNetwork.
  destruct (candidateIds nb state searchLogic) as [c |]; [| simpl; tauto].
  rewrite assemble_node_ids. unfold assemble. cbv zeta. simpl links.
  unfold finalLinks. intros H. apply in_map_iff in H. destruct H as [l0 [<- H]].
  apply filter_In in H. destruct H as [_ H]. apply andb_true_iff in H.
  destruct H as [Hs Ht]. rewrite map_has_keys in Hs, Ht.
  destruct (freshLink_ends l0) as [-> ->]. split; assumption.
Qed.

Lemma buildNetwork_no_dangling_links_witness :
  In "B" (map id (nodes (fst (buildNetwork Sample.abc
    (Sample.query ["B"] ["entity"] allNodeTypes ["definition"] 1 10) OR RankGlobal))))
  /\ In "C" (map id (nodes (fst (buildNetwork Sample.abc
    (Sample.query ["B"] ["entity"] allNodeTypes ["definition"] 1 10) OR RankGlobal)))).
Proof.
  apply (buildNetwork_no_dangling_links Sample.abc
           (Sample.query ["B"] ["entity"] allNodeTypes ["definition"] 1 10)
           OR RankGlobal (Sample.link "B" "C" "definition")).
  vm_compute. left. reflexivity.
Defined.

(** ** Display degrees *)

Lemma degreeOf_map_set (m : JsMap Z) (k x : string) (v : Z) :
  degreeOf (map_set m k v) x = if String.eqb x k then v else degreeOf m x.
Proof.
  unfold degreeOf. destruct (String.eqb x k) eqn:E.
  - apply String.eqb_eq in E. subst. now rewrite map_get_set_same.
  - apply String.eqb_neq in E. now rewrite map_get_set_other.
Qed.

Lemma countDegrees_from (ls : list GraphLink) (m : JsMap Z) (x : string) :
  degreeOf
    (fold_left
       (fun m link =>
          let m1 := map_set m (sourceId link) (degreeOf m (sourceId link) + 1) in
          map_set m1 (targetId link) (degreeOf m1 (targetId link) + 1))
       ls m) x
  = degreeOf m x + degreeIn x ls.
Proof.
  revert m. induction ls as [| l ls IH]; intros m; simpl.
  - lia.
  - rewrite IH. cbv zeta. rewrite !degreeOf_map_set.
    rewrite (String.eqb_sym x (targetId l)), (String.eqb_sym x (sourceId l)).
    destruct (String.eqb (targetId l) x) eqn:Et, (String.eqb (sourceId l) x) eqn:Es.
    + apply String.eqb_eq in Et, Es. rewrite Et, Es, String.eqb_refl. lia.
    + apply String.eqb_eq in Et. rewrite Et, (String.eqb_sym x), Es. lia.
    + apply String.eqb_eq in Es. rewrite Es. lia.
    + lia.
Qed.

Lemma countDegrees_degreeIn (ls : list GraphLink) (x : string) :
  degreeOf (countDegrees ls) x = degreeIn x ls.
Proof. unfold countDegrees. rewrite countDegrees_from. reflexivity. Qed.

Lemma degreeIn_nonneg (x : string) (ls : list GraphLink) : 0 <= degreeIn x ls.
Proof.
  induction ls as [| l ls IH]; simpl; [lia |].
  destruct (String.eqb (sourceId l) x), (String.eqb (targetId l) x); lia.
Qed.

Lemma displayDegree_degreeOf (m : JsMap Z) (x : string) :
  displayDegree m x = if degreeOf m x =? 0 then 1 else degreeOf m x.
Proof.
  unfold displayDegree, degreeOf. destruct (map_get m x); reflexivity.
Qed.

(** Without a link from a node to itself, the degree is the number of links
    that touch the node. *)
Lemma degreeIn_counts_links (x : string) (ls : list GraphLink) :
  (forall l, In l ls -> sourceId l <> targetId l) ->
  degreeIn x ls =
  Z.of_nat (List.length
              (filter (fun l => (String.eqb (sourceId l) x
                                 || String.eqb (targetId l) x)%bool) ls)).
Proof.
  induction ls as [| l ls IH]; intros H; [reflexivity |].
  cbn [degreeIn filter].
  rewrite IH by (intros l' Hl'; apply H; now right).
  specialize (H l (or_introl eq_refl)).
  destruct (String.eqb (sourceId l) x) eqn:Es, (String.eqb (targetId l) x) eqn:Et;
    cbn [orb List.length]; rewrite ?Nat2Z.inj_succ; try lia.
  apply String.eqb_eq in Es, Et. congruence.
Qed.

Lemma degreeIn_positive_incident (x : string) (ls : list GraphLink) :
  0 < degreeIn x ls <-> hasIncidentLink x ls = true.
Proof.
  unfold hasIncidentLink. induction ls as [| l ls IH].
  - simpl. split; [lia | discriminate].
  - cbn [degreeIn existsb]. pose proof (degreeIn_nonneg x ls).
    destruct IH as [I1 I2].
    destruct (String.eqb (sourceId l) x), (String.eqb (targetId l) x); cbn [orb];
      try (split; [reflexivity | lia]).
    split; intros Hx; [apply I1; lia | specialize (I2 Hx); lia].
Qed.

(** The degree of a node counts the links that touch it, and those from the
    node to itself once more. *)
Lemma degreeIn_incident_self (x : string) (ls : list GraphLink) :
  degreeIn x ls
  = Z.of_nat (List.length (incidentLinks x ls))
    + Z.of_nat (List.length (selfLinks x ls)).
Proof.
  unfold incidentLinks, selfLinks.
  induction ls as [| l ls IH]; [reflexivity |].
  cbn [degreeIn filter]. rewrite IH.
  destruct (String.eqb (sourceId l) x), (String.eqb (targetId l) x);
    cbn [orb andb List.length]; rewrite ?Nat2Z.inj_succ; lia.
Qed.

(** C10, as the code has it.  Every node of the result carries as [val] its
    degree in the returned link list (the number of ends of returned links
    at the node) when that is positive, and 1 when no returned link touches
    it; so [val] is at least 1.  The degree is the number of returned links
    that touch the node plus the number of returned links from the node to
    itself: it is the number of incident links when the node has no link to
    itself. *)
Theorem buildNetwork_val_is_display_degree (nb : NetworkBuilder)
  (state : NetworkBuilderState) (searchLogic : SearchLogic)
  (nodeRankingMode : RankingMode) (node : GraphNode) :
  In node (nodes (fst (buildNetwork nb state searchLogic nodeRankingMode))) ->
  val node =
    Some (if 0 <? degreeIn (id node)
                    (links (fst (buildNetwork nb state searchLogic nodeRankingMode)))
          then degreeIn (id node)
                 (links (fst (buildNetwork nb state searchLogic nodeRankingMode)))
          else 1)
  /\ 1 <= valOf node
  /\ degreeIn (id node)
       (links (fst (buildNetwork nb state searchLogic nodeRankingMode)))
     = Z.of_nat (List.length
                   (incidentLinks (id node)
                      (links (fst (buildNetwork nb state searchLogic
                                     nodeRankingMode)))))
       + Z.of_nat (List.length
                     (selfLinks (id node)
                        (links (fst (buildNetwork nb state searchLogic
                                       nodeRankingMode)))))
  /\ (selfLinks (id node)
        (links (fst (buildNetwork nb state searchLogic nodeRankingMode))) = [] ->
      incidentLinks (id node)
        (links (fst (buildNetwork nb state searchLogic nodeRankingMode))) <> [] ->
      val node
      = Some (Z.of_nat
                (List.length
                   (incidentLinks (id node)
                      (links (fst (buildNetwork nb state searchLogic
                                     nodeRankingMode))))))).
Proof.
  intros H.
  assert (Hval : val node =
    Some (if 0 <? degreeIn (id node)
                    (links (fst (buildNetwork nb state searchLogic nodeRankingMode)))
          then degreeIn (id node)
                 (links (fst (buildNetwork nb state searchLogic nodeRankingMode)))
          else 1)
    /\ 1 <= valOf node).
  { revert H. unfold buildNetwork.
    destruct (candidateIds nb state searchLogic) as [c |]; [| simpl; tauto].
    unfold assemble. cbv zeta. simpl nodes. simpl links.
    intros H. apply paint_In in H. destruct H as [r [_ [Hid Hval]]].
    rewrite <- Hid in Hval. unfold valOf. rewrite Hval.
    rewrite displayDegree_degreeOf, countDegrees_degreeIn.
    match goal with |- context [degreeIn ?x ?ls] =>
      pose proof (degreeIn_nonneg x ls); generalize dependent (degreeIn x ls) end.
    intros d Hd.
    destruct (Z.eqb_spec d 0), (Z.ltb_spec 0 d); split; try lia; try reflexivity. }
  destruct Hval as [Hval Hone].
  split; [exact Hval |]. split; [exact Hone |].
  split; [apply degreeIn_incident_self |].
  intros Hself Hinc. rewrite Hval, degreeIn_incident_self, Hself.
  destruct (incidentLinks (id node)
              (links (fst (buildNetwork nb state searchLogic nodeRankingMode))))
    as [| l ls]; [contradiction |].
  cbn [List.length]. rewrite Nat2Z.inj_succ.
  destruct (Z.ltb_spec 0 (Z.succ (Z.of_nat (List.length ls)) + Z.of_nat 0));
    [f_equal; simpl; lia | simpl in *; lia].
Qed.

Lemma buildNetwork_val_is_display_degree_witness :
  val (assignColor (assignVal (Sample.node "B" "B" "entity") 2) "rgb(240, 167, 52)")
  = Some (if 0 <? degreeIn "B"
                    (links (fst (buildNetwork Sample.abc
                       (Sample.query ["B"] ["entity"] allNodeTypes
                          ["reference"; "definition"] 1 10) OR RankGlobal)))
          then degreeIn "B"
                 (links (fst (buildNetwork Sample.abc
                    (Sample.query ["B"] ["entity"] allNodeTypes
                       ["reference"; "definition"] 1 10) OR RankGlobal)))
          else 1)
  /\ 1 <= valOf (assignColor (assignVal (Sample.node "B" "B" "entity") 2)
                   "rgb(240, 167, 52)").
Proof.
  assert (Hin : In (assignColor (assignVal (Sample.node "B" "B" "entity") 2)
                      "rgb(240, 167, 52)")
                  (nodes (fst (buildNetwork Sample.abc
                     (Sample.query ["B"] ["entity"] allNodeTypes
                        ["reference"; "definition"] 1 10) OR RankGlobal))))
    by (vm_compute; right; left; reflexivity).
  pose proof (buildNetwork_val_is_display_degree Sample.abc
           (Sample.query ["B"] ["entity"] allNodeTypes ["reference"; "definition"] 1 10)
           OR RankGlobal
           (assignColor (assignVal (Sample.node "B" "B" "entity") 2) "rgb(240, 167, 52)")
           Hin) as [Hval [Hone _]].
  split; [exact Hval | exact Hone].
Defined.

(** C10, as stated, fails on a link from a node to itself: the node A of
    the snapshot [Sample.loop] is returned with the one link A-A, which is
    its only incident link, and carries the [val] 2. *)
Lemma buildNetwork_val_counts_self_link_twice :
  map id (nodes (fst (buildNetwork Sample.loop
                        (Sample.query [] [] [] ["reference"] 0 10) OR RankGlobal)))
  = ["A"]
  /\ map val (nodes (fst (buildNetwork Sample.loop
                           (Sample.query [] [] [] ["reference"] 0 10) OR RankGlobal)))
     = [Some 2]
  /\ List.length
       (incidentLinks "A"
          (links (fst (buildNetwork Sample.loop
                         (Sample.query [] [] [] ["reference"] 0 10) OR RankGlobal))))
     = 1%nat.
Proof. repeat split; reflexivity. Qed.

(** ** Sorting and slicing *)

Section Sorting.

Context {A : Type} (cmp : A -> A -> Z).

Lemma sort_insert_perm (x : A) (l : list A) :
  Permutation (sort_insert cmp x l) (x :: l).
Proof.
  induction l as [| y l IH]; simpl.
  - apply Permutation_refl.
  - destruct (cmp x y <=? 0).
    + apply Permutation_refl.
    + eapply Permutation_trans; [apply perm_skip, IH | apply perm_swap].
Qed.

Lemma sort_perm (l : list A) : Permutation (Js.sort cmp l) l.
Proof.
  induction l as [| x l IH]; simpl.
  - apply perm_nil.
  - eapply Permutation_trans; [apply sort_insert_perm | now apply perm_skip].
Qed.

End Sorting.

Lemma slice0_firstn {A : Type} (l : list A) (n : Z) :
  0 <= n -> slice0 l n = firstn (Z.to_nat n) l.
Proof.
  intros H. unfold slice0. destruct (Z.ltb_spec n 0); [lia | reflexivity].
Qed.

Lemma firstn_incl {A : Type} (n : nat) (l : list A) : incl (firstn n l) l.
Proof.
  intros x Hx. rewrite <- (firstn_skipn n l). apply in_or_app. now left.
Qed.

Lemma firstn_NoDup {A : Type} (n : nat) (l : list A) : NoDup l -> NoDup (firstn n l).
Proof.
  intros H. rewrite <- (firstn_skipn n l) in H. now apply NoDup_app_remove_r in H.
Qed.

Lemma slice0_incl {A : Type} (l : list A) (n : Z) : incl (slice0 l n) l.
Proof. unfold slice0. destruct (n <? 0); apply firstn_incl. Qed.

Lemma slice0_NoDup {A : Type} (l : list A) (n : Z) : NoDup l -> NoDup (slice0 l n).
Proof. unfold slice0. destruct (n <? 0); apply firstn_NoDup. Qed.

Lemma slice0_length {A : Type} (l : list A) (n : Z) :
  0 <= n -> n <= Z.of_nat (List.length l) -> Z.of_nat (List.length (slice0 l n)) = n.
Proof.
  intros H0 H1. rewrite slice0_firstn by assumption.
  rewrite firstn_length_le; lia.
Qed.

(** ** Step 5: the connected identifiers *)

Lemma nodesWithEdges_from (ls : list GraphLink) (s : JsSet) (x : string) :
  In x (fold_left (fun s link => set_add (set_add s (sourceId link)) (targetId link)) ls s)
  <-> In x s \/ hasIncidentLink x ls = true.
Proof.
  unfold hasIncidentLink. revert s. induction ls as [| l ls IH]; intros s; simpl.
  - split; [tauto | intros [H | H]; [assumption | discriminate]].
  - rewrite IH, !set_add_In, !orb_true_iff, !String.eqb_eq. intuition congruence.
Qed.

Lemma nodesWithEdges_incident (ls : list GraphLink) (x : string) :
  set_has (nodesWithEdges ls) x = hasIncidentLink x ls.
Proof.
  apply eq_true_iff_eq. rewrite set_has_In. unfold nodesWithEdges.
  rewrite nodesWithEdges_from. simpl. tauto.
Qed.

Lemma countDegrees_keys_from (ls : list GraphLink) (m : JsMap Z) (x : string) :
  In x (map_keys
          (fold_left
             (fun m link =>
                let m1 := map_set m (sourceId link) (degreeOf m (sourceId link) + 1) in
                map_set m1 (targetId link) (degreeOf m1 (targetId link) + 1))
             ls m))
  <-> In x (map_keys m) \/ hasIncidentLink x ls = true.
Proof.
  unfold hasIncidentLink. revert m. induction ls as [| l ls IH]; intros m; simpl.
  - split; [tauto | intros [H | H]; [assumption | discriminate]].
  - rewrite IH. cbv zeta. rewrite !map_set_keys_In, !orb_true_iff, !String.eqb_eq.
    intuition congruence.
Qed.

Lemma countDegrees_has (ls : list GraphLink) (x : string) :
  map_has (countDegrees ls) x = hasIncidentLink x ls.
Proof.
  apply eq_true_iff_eq. rewrite map_has_keys. unfold countDegrees.
  rewrite countDegrees_keys_from. simpl. tauto.
Qed.

Lemma map_get_of_In {V : Type} (m : JsMap V) (k : string) (v : V) :
  NoDup (map_keys m) -> In (k, v) m -> map_get m k = Some v.
Proof.
  induction m as [| [k' v'] m IH]; simpl; intros Hnd Hin; [contradiction |].
  inversion Hnd as [| ? ? Hn Hd]; subst.
  destruct Hin as [[= -> ->] | Hin].
  - now rewrite String.eqb_refl.
  - destruct (String.eqb k k') eqn:E.
    + apply String.eqb_eq in E. subst k'. exfalso. apply Hn.
      change k with (fst (k, v)). now apply in_map.
    + now apply IH.
Qed.

Lemma connectedNodeIds_filter (state : NetworkBuilderState) (m : JsMap NodeRef)
  (clinks : list GraphLink) :
  keyed m -> NoDup (map_keys m) ->
  connectedNodeIds state m clinks =
  filter (connectedAndTyped state m clinks) (map_keys m).
Proof.
  intros Hk Hnd. unfold connectedNodeIds.
  assert (G : forall m', keyed m' ->
    (forall kv, In kv m' -> map_get m (fst kv) = Some (snd kv)) ->
    map (fun r : NodeRef => id (snd r))
      (filter (fun r : NodeRef =>
                 (set_has (nodesWithEdges clinks) (id (snd r))
                  && typeMatch state (snd r))%bool) (map_values m'))
    = filter (connectedAndTyped state m clinks) (map_keys m')).
  { induction m' as [| [k r] m' IH]; intros Hk' Hget; [reflexivity |].
    inversion Hk' as [| ? ? Hkr Hrest]; subst. simpl in Hkr. subst k.
    cbn [map_values map_keys map filter fst snd].
    fold (map_values m'). fold (map_keys m').
    unfold connectedAndTyped at 1.
    pose proof (Hget (id (snd r), r) (or_introl eq_refl)) as Hhead.
    cbn [fst snd] in Hhead. rewrite Hhead. rewrite nodesWithEdges_incident.
    rewrite <- IH by (try assumption; intros kv Hkv; apply Hget; now right).
    destruct (hasIncidentLink (id (snd r)) clinks && typeMatch state (snd r))%bool;
      reflexivity. }
  rewrite G; [| assumption |].
  - apply new_Set_id. now apply NoDup_filter.
  - intros [k v] Hin. now apply map_get_of_In.
Qed.

Lemma candidateNodeMap_keyed (nb : NetworkBuilder) (c : JsSet) :
  keyed (candidateNodeMap nb c).
Proof. rewrite candidateNodeMap_collect. apply collect_keyed, keyed_nil. Qed.

Lemma candidateNodeMap_NoDup (nb : NetworkBuilder) (c : JsSet) :
  NoDup (map_keys (candidateNodeMap nb c)).
Proof. rewrite candidateNodeMap_collect. apply collect_keys_NoDup. constructor. Qed.

Lemma connectedNodeIds_NoDup (nb : NetworkBuilder) (state : NetworkBuilderState)
  (c : JsSet) (clinks : list GraphLink) :
  NoDup (connectedNodeIds state (candidateNodeMap nb c) clinks).
Proof. apply new_Set_NoDup. Qed.

Lemma connectedNodeIds_In (nb : NetworkBuilder) (state : NetworkBuilderState)
  (c : JsSet) (clinks : list GraphLink) (x : string) :
  In x (connectedNodeIds state (candidateNodeMap nb c) clinks) <->
  connectedAndTyped state (candidateNodeMap nb c) clinks x = true.
Proof.
  rewrite connectedNodeIds_filter
    by (apply candidateNodeMap_keyed || apply candidateNodeMap_NoDup).
  rewrite filter_In. split; [tauto |]. intros H. split; [| assumption].
  unfold connectedAndTyped in H.
  destruct (map_get (candidateNodeMap nb c) x) eqn:E; [| discriminate].
  apply map_has_keys. unfold map_has. now rewrite E.
Qed.

(** ** Step 6: the truncated identifiers *)

Lemma slice0_map {A B : Type} (f : A -> B) (l : list A) (n : Z) :
  map f (slice0 l n) = slice0 (map f l) n.
Proof.
  unfold slice0. rewrite length_map. destruct (n <? 0); now rewrite firstn_map.
Qed.

Lemma degree_table_keys (f : string -> Z) (ids : list string) (m : JsMap Z) :
  NoDup (map_keys m ++ ids) ->
  map_keys (fold_left (fun m' x => map_set m' x (f x)) ids m) = map_keys m ++ ids.
Proof.
  revert m. induction ids as [| x ids IH]; intros m H; simpl.
  - now rewrite app_nil_r.
  - assert (E : map_set m x (f x) = m ++ [(x, f x)]).
    { apply map_set_length_new. destruct (map_has m x) eqn:Eh; [| reflexivity].
      apply map_has_keys in Eh. apply NoDup_remove_2 in H.
      exfalso. apply H. apply in_or_app. now left. }
    rewrite E. rewrite IH; unfold map_keys; rewrite map_app, <- app_assoc; simpl;
      [reflexivity | assumption].
Qed.

Lemma top_slice (sorted connected : list string) (n : Z) :
  Permutation sorted connected -> NoDup connected ->
  NoDup (new_Set (slice0 sorted n))
  /\ incl (new_Set (slice0 sorted n)) connected
  /\ (0 <= n -> n <= Z.of_nat (List.length connected) ->
      Z.of_nat (List.length (new_Set (slice0 sorted n))) = n).
Proof.
  intros Hp Hnd.
  assert (Hs : NoDup sorted).
  { eapply Permutation_NoDup; [apply Permutation_sym; eassumption | assumption]. }
  rewrite new_Set_id by now apply slice0_NoDup.
  split; [now apply slice0_NoDup |]. split.
  - intros x Hx. apply slice0_incl in Hx. eapply Permutation_in; eassumption.
  - intros H0 H1. apply slice0_length; [assumption |].
    now rewrite (Permutation_length Hp).
Qed.

Lemma selectTopNodesByDegree_perm (nb : NetworkBuilder) (ids : JsSet) (n : Z) :
  NoDup ids ->
  exists sorted, Permutation sorted ids /\
                 selectTopNodesByDegree nb ids n = slice0 sorted n.
Proof.
  intros Hnd. unfold selectTopNodesByDegree. rewrite slice0_map.
  eexists. split; [| reflexivity].
  eapply Permutation_trans; [apply Permutation_map, sort_perm |].
  pose proof (degree_table_keys
                (fun y => Z.of_nat (List.length (neighborsOf (adjacencyMap nb) y)))
                ids [] Hnd) as Hk.
  unfold map_keys in Hk. simpl in Hk. rewrite Hk. apply Permutation_refl.
Qed.

Lemma finalNodeIds_facts (nb : NetworkBuilder) (state : NetworkBuilderState)
  (mode : RankingMode) (clinks : list GraphLink) (connected : JsSet) :
  NoDup connected ->
  (forall x, In x connected -> hasIncidentLink x clinks = true) ->
  NoDup (finalNodeIds nb state mode clinks connected)
  /\ incl (finalNodeIds nb state mode clinks connected) connected
  /\ (isTruncated state connected = false ->
      finalNodeIds nb state mode clinks connected = connected)
  /\ (isTruncated state connected = true -> 0 <= maxTotalNodes state ->
      Z.of_nat (List.length (finalNodeIds nb state mode clinks connected))
      = maxTotalNodes state).
Proof.
  intros Hnd Hinc. unfold finalNodeIds.
  destruct (isTruncated state connected) eqn:Et.
  - assert (Hlt : maxTotalNodes state <= Z.of_nat (List.length connected)).
    { unfold isTruncated in Et. apply Z.ltb_lt in Et. lia. }
    assert (G : exists sorted, Permutation sorted connected /\
      match mode with
      | RankSubgraph =>
          new_Set
            (slice0
               (Js.sort
                  (fun a b => degreeOf (countDegrees clinks) b
                              - degreeOf (countDegrees clinks) a)
                  (filter (fun nodeId => map_has (countDegrees clinks) nodeId) connected))
               (maxTotalNodes state))
      | RankGlobal => new_Set (selectTopNodesByDegree nb connected (maxTotalNodes state))
      end = new_Set (slice0 sorted (maxTotalNodes state))).
    { destruct mode.
      - destruct (selectTopNodesByDegree_perm nb connected (maxTotalNodes state) Hnd)
          as [sorted [Hp He]].
        exists sorted. split; [assumption | now rewrite He].
      - eexists. split; [| reflexivity].
        eapply Permutation_trans; [apply sort_perm |].
        rewrite filter_all; [apply Permutation_refl |].
        intros x Hx. rewrite countDegrees_has. now apply Hinc. }
    destruct G as [sorted [Hp He]]. cbv zeta. rewrite He.
    destruct (top_slice sorted connected (maxTotalNodes state) Hp Hnd) as [H1 [H2 H3]].
    repeat split; try assumption; [discriminate | intros _ H0; now apply H3].
  - repeat split; try assumption; [apply incl_refl | discriminate].
Qed.

(** ** Step 7: the selected nodes *)

Lemma connected_incident (nb : NetworkBuilder) (state : NetworkBuilderState)
  (c : JsSet) (clinks : list GraphLink) (x : string) :
  In x (connectedNodeIds state (candidateNodeMap nb c) clinks) ->
  hasIncidentLink x clinks = true.
Proof.
  rewrite connectedNodeIds_In. unfold connectedAndTyped.
  destruct (map_get (candidateNodeMap nb c) x); [| discriminate].
  intros H. apply andb_true_iff in H. tauto.
Qed.

Lemma selectedNodeMap_keys (nb : NetworkBuilder) (state : NetworkBuilderState)
  (c : JsSet) (clinks : list GraphLink) (final : JsSet) (k : string) :
  incl final (connectedNodeIds state (candidateNodeMap nb c) clinks) ->
  In k (map_keys (selectedNodeMap nb state final)) <-> In k final.
Proof.
  intros Hincl. rewrite selectedNodeMap_collect, collect_keys. simpl. split.
  - intros [[] | [r [_ [Hkeep <-]]]].
    apply andb_true_iff in Hkeep. now apply set_has_In.
  - intros Hk. right. pose proof (Hincl k Hk) as Hc.
    apply connectedNodeIds_In in Hc. unfold connectedAndTyped in Hc.
    destruct (map_get (candidateNodeMap nb c) k) as [r |] eqn:E; [| discriminate].
    apply andb_true_iff in Hc. destruct Hc as [_ Htype].
    apply map_get_In in E.
    pose proof (candidateNodeMap_keyed nb c) as Hkeyed.
    unfold keyed in Hkeyed. rewrite Forall_forall in Hkeyed.
    pose proof (Hkeyed _ E) as Hid. simpl in Hid.
    rewrite candidateNodeMap_collect in E. apply collect_In in E.
    destruct E as [[] | [Hin _]]. simpl in Hin.
    exists r. split; [assumption |]. split; [| now symmetry].
    apply andb_true_iff. split; [| assumption].
    apply set_has_In. now rewrite <- Hid.
Qed.

Lemma selectedNodeMap_length (nb : NetworkBuilder) (state : NetworkBuilderState)
  (c : JsSet) (clinks : list GraphLink) (final : JsSet) :
  NoDup final ->
  incl final (connectedNodeIds state (candidateNodeMap nb c) clinks) ->
  List.length (selectedNodeMap nb state final) = List.length final.
Proof.
  intros Hnd Hincl.
  rewrite <- (length_map fst (selectedNodeMap nb state final)).
  apply Permutation_length. apply NoDup_Permutation.
  - rewrite selectedNodeMap_collect. apply (collect_keys_NoDup _ _ []). constructor.
  - assumption.
  - intros k. now apply (selectedNodeMap_keys nb state c clinks).
Qed.

Lemma paint_length (d : JsMap Z) (rs : list NodeRef) :
  List.length (paint d rs) = List.length rs.
Proof. unfold paint. now rewrite !length_map. Qed.

(** ** Truncation *)

(** C5.  For a non-negative cap: when [matchedCount] exceeds
    [maxTotalNodes], [truncated] is true and exactly [maxTotalNodes] nodes
    are returned, in either ranking mode; when it does not, [truncated] is
    false and [matchedCount] nodes are returned; and [matchedCount] is the
    number of candidates that are connected and of an allowed type, before
    truncation. *)
Theorem buildNetwork_truncation_invariant (nb : NetworkBuilder)
  (state : NetworkBuilderState) (searchLogic : SearchLogic)
  (nodeRankingMode : RankingMode) :
  0 <= maxTotalNodes state ->
  (maxTotalNodes state
   < Z.of_nat (matchedCount (fst (buildNetwork nb state searchLogic nodeRankingMode))) ->
   truncated (fst (buildNetwork nb state searchLogic nodeRankingMode)) = true
   /\ Z.of_nat (List.length (nodes (fst (buildNetwork nb state searchLogic nodeRankingMode))))
      = maxTotalNodes state)
  /\ (Z.of_nat (matchedCount (fst (buildNetwork nb state searchLogic nodeRankingMode)))
      <= maxTotalNodes state ->
      truncated (fst (buildNetwork nb state searchLogic nodeRankingMode)) = false
      /\ List.length (nodes (fst (buildNetwork nb state searchLogic nodeRankingMode)))
         = matchedCount (fst (buildNetwork nb state searchLogic nodeRankingMode)))
  /\ matchedCount (fst (buildNetwork nb state searchLogic nodeRankingMode))
     = preTruncationCount nb state searchLogic.
Proof.
  intros Hcap. unfold buildNetwork, preTruncationCount.
  destruct (candidateIds nb state searchLogic) as [c |].
  2:{ simpl. repeat split; try reflexivity; lia. }
  unfold assemble. cbv zeta. cbn [fst nodes truncated matchedCount].
  set (cmap := candidateNodeMap nb c).
  set (clinks := candidateLinks nb state cmap).
  set (connected := connectedNodeIds state cmap clinks).
  set (final := finalNodeIds nb state nodeRankingMode clinks connected).
  assert (Hnd : NoDup connected) by apply new_Set_NoDup.
  assert (Hinc : forall x, In x connected -> hasIncidentLink x clinks = true).
  { intros x Hx. eapply connected_incident. exact Hx. }
  destruct (finalNodeIds_facts nb state nodeRankingMode clinks connected Hnd Hinc)
    as [Hfnd [Hfincl [Hsame Hcut]]].
  fold final in Hfnd, Hfincl, Hsame, Hcut.
  assert (Hlen : List.length (map snd (paint (countDegrees
             (finalLinks clinks (selectedNodeMap nb state final)))
             (map_values (selectedNodeMap nb state final)))) = List.length final).
  { rewrite length_map, paint_length. unfold map_values. rewrite length_map.
    now apply (selectedNodeMap_length nb state c clinks). }
  rewrite Hlen. unfold isTruncated in *. repeat split.
  - apply Z.ltb_lt. assumption.
  - apply Hcut; [apply Z.ltb_lt |]; assumption.
  - apply Z.ltb_ge. assumption.
  - rewrite Hsame; [reflexivity | apply Z.ltb_ge; assumption].
  - unfold connected. rewrite connectedNodeIds_filter; [reflexivity | |].
    + apply candidateNodeMap_keyed.
    + apply candidateNodeMap_NoDup.
Qed.

Lemma buildNetwork_truncation_invariant_witness :
  truncated (fst (buildNetwork Sample.abc
    (Sample.query [] [] [] ["reference"; "definition"] 0 2) OR RankSubgraph)) = true
  /\ Z.of_nat (List.length (nodes (fst (buildNetwork Sample.abc
       (Sample.query [] [] [] ["reference"; "definition"] 0 2) OR RankSubgraph)))) = 2.
Proof.
  apply (proj1 (buildNetwork_truncation_invariant Sample.abc
                  (Sample.query [] [] [] ["reference"; "definition"] 0 2)
                  OR RankSubgraph ltac:(simpl; lia))).
  vm_compute. reflexivity.
Defined.

Lemma buildNetwork_negative_cap :
  truncated (fst (buildNetwork Sample.abc
    (Sample.query [] [] [] ["reference"; "definition"] 0 (-1)) OR RankGlobal)) = true
  /\ List.length (nodes (fst (buildNetwork Sample.abc
       (Sample.query [] [] [] ["reference"; "definition"] 0 (-1)) OR RankGlobal))) = 2%nat.
Proof. split; reflexivity. Qed.

(** ** Connectedness of the returned nodes *)

Lemma hasIncidentLink_exists (x : string) (ls : list GraphLink) :
  hasIncidentLink x ls = true <->
  exists l, In l ls /\ (sourceId l = x \/ targetId l = x).
Proof.
  unfold hasIncidentLink. rewrite existsb_exists.
  split; intros [l [Hl H]]; exists l; (split; [assumption |]).
  - apply orb_true_iff in H. now rewrite !String.eqb_eq in H.
  - apply orb_true_iff. now rewrite !String.eqb_eq.
Qed.

Lemma hasIncidentLink_freshLink (x : string) (ls : list GraphLink) :
  hasIncidentLink x (map freshLink ls) = hasIncidentLink x ls.
Proof.
  unfold hasIncidentLink. induction ls as [| l ls IH]; simpl; [reflexivity |].
  now rewrite IH.
Qed.

Lemma findNode_unique (nb : NetworkBuilder) (node : GraphNode) :
  NoDup (map id (allNodes nb)) -> In node (allNodes nb) ->
  findNode nb (id node) = Some node.
Proof.
  unfold findNode. induction (allNodes nb) as [| n ns IH]; simpl; intros Hnd Hin.
  - contradiction.
  - inversion Hnd as [| ? ? Hn Hd]; subst.
    destruct Hin as [-> | Hin].
    + now rewrite String.eqb_refl.
    + destruct (String.eqb (id n) (id node)) eqn:E.
      * apply String.eqb_eq in E. exfalso. apply Hn. rewrite E. now apply in_map.
      * now apply IH.
Qed.

Lemma nodeRefs_In (nb : NetworkBuilder) (r : NodeRef) :
  In r (nodeRefs nb) -> In (snd r) (allNodes nb).
Proof.
  unfold nodeRefs. destruct r as [i n]. intros H. simpl.
  eapply in_combine_r. exact H.
Qed.

Lemma typeMatch_listed (state : NetworkBuilderState) (node : GraphNode) :
  Array_includes (allowedNodeTypes state) (node_type node) = true ->
  typeMatch state node = true.
Proof. unfold typeMatch. intros ->. apply orb_true_r. Qed.

(** In a query that searches, every candidate left by step 2 is a node of
    the snapshot whose type is listed. *)
Lemma candidateIds_search_typed (nb : NetworkBuilder) (state : NetworkBuilderState)
  (searchLogic : SearchLogic) (c : JsSet) (x : string) :
  searchUsed state = true ->
  candidateIds nb state searchLogic = Some c -> In x c ->
  exists node, findNode nb x = Some node /\ typeMatch state node = true.
Proof.
  intros Hs Hc Hx. unfold candidateIds in Hc.
  destruct (step1 nb state searchLogic) as [[c0 seeds] |] eqn:E1; [| discriminate].
  unfold step2 in Hc. rewrite Hs in Hc.
  destruct (List.length (seedsAfterFilter nb state seeds) =? 0)%nat eqn:Ek;
    [discriminate |].
  injection Hc as <-. rewrite new_Set_In in Hx. apply filter_In in Hx.
  destruct Hx as [Hx0 Hx]. apply orb_true_iff in Hx. destruct Hx as [Hkept | Hnot].
  - apply set_has_In in Hkept. unfold seedsAfterFilter in Hkept.
    rewrite new_Set_In in Hkept. apply filter_In in Hkept. destruct Hkept as [_ Hk].
    destruct (findNode nb x) as [node |]; [| discriminate].
    exists node. split; [reflexivity |].
    apply andb_true_iff in Hk. apply typeMatch_listed. tauto.
  - apply negb_true_iff in Hnot. unfold step1 in E1. rewrite Hs in E1.
    destruct (List.length
                (searchNodes nb (searchTerms state) (searchFields state) searchLogic)
              =? 0)%nat; [discriminate |].
    destruct (0 <? expansionDepth state).
    + destruct (0 <? List.length (allowedNodeTypes state))%nat eqn:Et.
      * injection E1 as <- <-. rewrite new_Set_In in Hx0. apply filter_In in Hx0.
        destruct Hx0 as [_ Hx0].
        destruct (findNode nb x) as [node |]; [| discriminate].
        exists node. split; [reflexivity |]. rewrite Hnot in Hx0.
        now apply typeMatch_listed.
      * exfalso. apply Nat.ltb_ge in Et.
        assert (Hnil : allowedNodeTypes state = [])
          by (destruct (allowedNodeTypes state); [reflexivity | simpl in Et; lia]).
        rewrite (seedsAfterFilter_empty_allow_list nb state seeds Hnil) in Ek.
        discriminate.
    + injection E1 as <- <-. rewrite new_Set_In in Hx0.
      apply set_has_false in Hnot. contradiction.
Qed.

(** Under either condition the type filter of step 5 removes no candidate. *)
Lemma candidates_all_typed (nb : NetworkBuilder) (state : NetworkBuilderState)
  (searchLogic : SearchLogic) (c : JsSet) (k : string) (r : NodeRef) :
  (searchUsed state = true /\ NoDup (map id (allNodes nb)))
  \/ allowedNodeTypes state = [] ->
  candidateIds nb state searchLogic = Some c ->
  In (k, r) (candidateNodeMap nb c) ->
  typeMatch state (snd r) = true.
Proof.
  intros [[Hs Hnd] | Hnil] Hc Hin.
  - pose proof (candidateNodeMap_keyed nb c) as Hkeyed.
    unfold keyed in Hkeyed. rewrite Forall_forall in Hkeyed.
    pose proof (Hkeyed _ Hin) as Hid. simpl in Hid.
    rewrite candidateNodeMap_collect in Hin. apply collect_In in Hin.
    destruct Hin as [[] | [Hr Hkeep]]. simpl in Hr, Hkeep.
    apply set_has_In in Hkeep.
    destruct (candidateIds_search_typed nb state searchLogic c _ Hs Hc Hkeep)
      as [node [Hfind Htype]].
    rewrite (findNode_unique nb (snd r) Hnd (nodeRefs_In nb r Hr)) in Hfind.
    now injection Hfind as ->.
  - unfold typeMatch. now rewrite Hnil.
Qed.

(** C3, as the code has it.  Every returned node is an end of a link of
    step 4 (an allowed-type link between candidates, before truncation).
    It is an end of a returned link when the result is not truncated and
    the type test of step 5 removes no connected candidate; that is so,
    in particular, when the query searches a snapshot with unique
    identifiers, or when [allowedNodeTypes] is empty. *)
Theorem buildNetwork_returned_nodes_connected (nb : NetworkBuilder)
  (state : NetworkBuilderState) (searchLogic : SearchLogic)
  (nodeRankingMode : RankingMode) (node : GraphNode) :
  In node (nodes (fst (buildNetwork nb state searchLogic nodeRankingMode))) ->
  hasIncidentLink (id node) (candidateLinksOf nb state searchLogic) = true
  /\ (truncated (fst (buildNetwork nb state searchLogic nodeRankingMode)) = false ->
      typeFilterKeepsConnected nb state searchLogic = true ->
      hasIncidentLink (id node)
        (links (fst (buildNetwork nb state searchLogic nodeRankingMode))) = true)
  /\ ((searchUsed state = true /\ NoDup (map id (allNodes nb)))
      \/ allowedNodeTypes state = [] ->
      typeFilterKeepsConnected nb state searchLogic = true).
Proof.
  unfold buildNetwork, candidateLinksOf, typeFilterKeepsConnected.
  destruct (candidateIds nb state searchLogic) as [c |] eqn:Ec; [| simpl; tauto].
  intros Hin. apply (in_map id) in Hin. rewrite assemble_node_ids in Hin.
  unfold assemble. cbv zeta. cbn [fst links truncated].
  set (cmap := candidateNodeMap nb c) in *.
  set (clinks := candidateLinks nb state cmap) in *.
  set (connected := connectedNodeIds state cmap clinks) in *.
  set (final := finalNodeIds nb state nodeRankingMode clinks connected) in *.
  assert (Hnd : NoDup connected) by apply new_Set_NoDup.
  assert (Hinc : forall x, In x connected -> hasIncidentLink x clinks = true).
  { intros x Hx. eapply connected_incident. exact Hx. }
  destruct (finalNodeIds_facts nb state nodeRankingMode clinks connected Hnd Hinc)
    as [Hfnd [Hfincl [Hsame _]]].
  fold final in Hfnd, Hfincl, Hsame.
  assert (Hkeys : forall k, In k (map_keys (selectedNodeMap nb state final))
                            <-> In k final).
  { intros k. now apply (selectedNodeMap_keys nb state c clinks). }
  apply Hkeys in Hin. pose proof (Hinc _ (Hfincl _ Hin)) as Hcand.
  split; [assumption |]. split.
  - intros Htr Hcond. specialize (Hsame Htr).
    rewrite forallb_forall in Hcond.
    unfold finalLinks. rewrite hasIncidentLink_freshLink.
    apply hasIncidentLink_exists in Hcand. destruct Hcand as [l [Hl Hend]].
    apply hasIncidentLink_exists. exists l. split; [| assumption].
    apply filter_In. split; [assumption |].
    assert (Hsel : forall e, (sourceId l = e \/ targetId l = e) ->
                             map_has cmap e = true ->
                             map_has (selectedNodeMap nb state final) e = true).
    { intros e He Hhas. apply map_has_keys, Hkeys. rewrite Hsame.
      apply connectedNodeIds_In. unfold connectedAndTyped.
      unfold map_has in Hhas. fold cmap.
      destruct (map_get cmap e) as [r |] eqn:Eg; [| discriminate].
      assert (Hinc' : hasIncidentLink e clinks = true)
        by (apply hasIncidentLink_exists; exists l; tauto).
      apply andb_true_iff. split; [exact Hinc' |].
      apply map_get_In in Eg. specialize (Hcond _ Eg). cbn [fst snd] in Hcond.
      rewrite Hinc' in Hcond. exact Hcond. }
    unfold clinks, candidateLinks in Hl. apply filter_In in Hl.
    destruct Hl as [_ Hl]. apply andb_true_iff in Hl. destruct Hl as [Hl Ht].
    apply andb_true_iff in Hl. destruct Hl as [_ Hs].
    apply andb_true_iff. split; apply Hsel; auto.
  - intros Hcond. apply forallb_forall. intros [k r] Hkr. cbn [fst snd].
    rewrite (candidates_all_typed nb state searchLogic c k r Hcond Ec Hkr).
    apply orb_true_r.
Qed.

Lemma buildNetwork_returned_nodes_connected_witness :
  hasIncidentLink "A"
    (links (fst (buildNetwork Sample.abc
       (Sample.query [] [] allNodeTypes ["reference"; "definition"] 0 10)
       OR RankGlobal))) = true.
Proof.
  assert (Hin : In (assignColor (assignVal (Sample.node "A" "A" "section") 1)
                      "rgb(110, 103, 172)")
                  (nodes (fst (buildNetwork Sample.abc
                     (Sample.query [] [] allNodeTypes ["reference"; "definition"] 0 10)
                     OR RankGlobal))))
    by (vm_compute; left; reflexivity).
  pose proof (buildNetwork_returned_nodes_connected Sample.abc
                (Sample.query [] [] allNodeTypes ["reference"; "definition"] 0 10)
                OR RankGlobal
                (assignColor (assignVal (Sample.node "A" "A" "section") 1)
                   "rgb(110, 103, 172)") Hin) as [_ [Hlinked _]].
  apply Hlinked; reflexivity.
Defined.

(** C3, as stated, fails.  Truncation to one node returns B without any
    link; and without truncation the type filter returns the section A
    while dropping its only neighbour, the entity B. *)
Lemma buildNetwork_returns_isolated_nodes :
  (map id (nodes (fst (buildNetwork Sample.abc
     (Sample.query [] [] [] ["reference"; "definition"] 0 1) OR RankGlobal))) = ["B"]
   /\ links (fst (buildNetwork Sample.abc
        (Sample.query [] [] [] ["reference"; "definition"] 0 1) OR RankGlobal)) = [])
  /\ (map id (nodes (fst (buildNetwork Sample.abc
        (Sample.query [] [] ["section"] ["reference"; "definition"] 0 10)
        OR RankGlobal))) = ["A"]
      /\ links (fst (buildNetwork Sample.abc
           (Sample.query [] [] ["section"] ["reference"; "definition"] 0 10)
           OR RankGlobal)) = []
      /\ truncated (fst (buildNetwork Sample.abc
           (Sample.query [] [] ["section"] ["reference"; "definition"] 0 10)
           OR RankGlobal)) = false).
Proof. repeat split; reflexivity. Qed.

(** ** What [buildNetwork] writes *)

Lemma combine_seq_nth (l : list GraphNode) (a i : nat) (n : GraphNode) :
  In (i, n) (combine (seq a (List.length l)) l) ->
  (a <= i)%nat /\ nth_error l (i - a) = Some n.
Proof.
  revert a. induction l as [| x l IH]; intros a; simpl; [contradiction |].
  intros [[= <- <-] | H].
  - split; [lia |]. now rewrite Nat.sub_diag.
  - apply IH in H. destruct H as [Hle Hn]. split; [lia |].
    replace (i - a)%nat with (S (i - S a)) by lia. exact Hn.
Qed.

Lemma nodeRefs_nth (nb : NetworkBuilder) (i : nat) (n : GraphNode) :
  In (i, n) (nodeRefs nb) -> nth_error (allNodes nb) i = Some n.
Proof.
  unfold nodeRefs. intros H. apply combine_seq_nth in H.
  now rewrite Nat.sub_0_r in H.
Qed.

Lemma nth_error_store (h : list GraphNode) (i j : nat) (n : GraphNode) :
  nth_error (store h i n) j =
  if (j =? i)%nat then match nth_error h j with Some _ => Some n | None => None end
  else nth_error h j.
Proof.
  revert i j. induction h as [| x h IH]; intros i j; simpl.
  - destruct (j =? i)%nat, j; reflexivity.
  - destruct i as [| i], j as [| j]; simpl; try reflexivity. apply IH.
Qed.

Lemma store_stable (h : list GraphNode) (i : nat) (m n : GraphNode) :
  nth_error h i = Some m -> stable m = stable n ->
  map stable (store h i n) = map stable h.
Proof.
  revert i. induction h as [| x h IH]; intros i; simpl; [reflexivity |].
  destruct i as [| i]; simpl.
  - intros [= ->] Heq. now rewrite Heq.
  - intros Hn Heq. now rewrite (IH i Hn Heq).
Qed.

Lemma storeAll_stable (h0 : list GraphNode) (rs : list NodeRef) (h : list GraphNode) :
  (forall r, In r rs ->
     exists n0, nth_error h0 (fst r) = Some n0 /\ stable (snd r) = stable n0) ->
  map stable h = map stable h0 ->
  map stable (storeAll h rs) = map stable h0.
Proof.
  unfold storeAll. revert h. induction rs as [| r rs IH]; intros h Hrs Hh; simpl.
  - assumption.
  - apply IH; [intros r' Hr'; apply Hrs; now right |].
    destruct (Hrs r (or_introl eq_refl)) as [n0 [Hn0 Hst]].
    assert (Hm : exists m, nth_error h (fst r) = Some m /\ stable m = stable n0).
    { pose proof (nth_error_map stable (fst r) h) as E1.
      pose proof (nth_error_map stable (fst r) h0) as E2.
      rewrite Hh, E2, Hn0 in E1. simpl in E1.
      destruct (nth_error h (fst r)) as [m |]; [| discriminate].
      exists m. split; [reflexivity |]. simpl in E1. congruence. }
    destruct Hm as [m [Hm Hms]].
    rewrite (store_stable h (fst r) m (snd r) Hm); [assumption | congruence].
Qed.

Lemma storeAll_positions (rs : list NodeRef) (h : list GraphNode) (j : nat) :
  nth_error (storeAll h rs) j = nth_error h j
  \/ exists node, In node (map snd rs) /\ nth_error (storeAll h rs) j = Some node.
Proof.
  unfold storeAll. revert h. induction rs as [| r rs IH]; intros h; simpl.
  - now left.
  - destruct (IH (store h (fst r) (snd r))) as [H | [node [Hin H]]].
    + rewrite nth_error_store in H. destruct (j =? fst r)%nat; [| now left].
      destruct (nth_error h j); [| now left].
      right. exists (snd r). split; [now left | assumption].
    + right. exists node. split; [now right | assumption].
Qed.

Lemma paint_stable (d : JsMap Z) (rs : list NodeRef) (r : NodeRef) :
  In r (paint d rs) ->
  exists r0, In r0 rs /\ fst r = fst r0 /\ stable (snd r) = stable (snd r0).
Proof.
  unfold paint. rewrite map_map. intros H. apply in_map_iff in H.
  destruct H as [r0 [<- H0]]. exists r0. simpl. auto.
Qed.

(** The engine after a call differs from the engine before it in the
    runtime-computed properties of its nodes at most. *)
Lemma buildNetwork_engine_stable (nb : NetworkBuilder) (state : NetworkBuilderState)
  (searchLogic : SearchLogic) (nodeRankingMode : RankingMode) :
  stableEngine (snd (buildNetwork nb state searchLogic nodeRankingMode))
  = stableEngine nb.
Proof.
  unfold buildNetwork.
  destruct (candidateIds nb state searchLogic) as [c |]; [| reflexivity].
  unfold assemble, stableEngine. cbv zeta. cbn [fst snd allLinks adjacencyMap allNodes].
  f_equal. apply storeAll_stable; [| reflexivity].
  intros r Hr. apply paint_stable in Hr. destruct Hr as [r0 [Hr0 [Hi Hs]]].
  exists (snd r0). split; [| assumption]. rewrite Hi.
  unfold map_values in Hr0. apply in_map_iff in Hr0.
  destruct Hr0 as [[k r1] [Heq Hin]]. simpl in Heq. subst r1.
  rewrite selectedNodeMap_collect in Hin. apply collect_In in Hin.
  destruct Hin as [[] | [Hin _]]. simpl in Hin.
  apply nodeRefs_nth. now destruct r0.
Qed.

Lemma store_length (h : list GraphNode) (i : nat) (n : GraphNode) :
  List.length (store h i n) = List.length h.
Proof.
  revert i. induction h as [| x h IH]; intros i; [reflexivity |].
  destruct i as [| j]; simpl; [reflexivity |]. now rewrite IH.
Qed.

Lemma storeAll_untouched (rs : list NodeRef) (h : list GraphNode) (j : nat) :
  ~ In j (map fst rs) -> nth_error (storeAll h rs) j = nth_error h j.
Proof.
  unfold storeAll. revert h. induction rs as [| r rs IH]; intros h Hj; [reflexivity |].
  simpl in Hj. cbn [fold_left]. rewrite IH by tauto.
  rewrite nth_error_store.
  destruct (Nat.eqb_spec j (fst r)) as [E | E]; [| reflexivity].
  exfalso. apply Hj. left. now symmetry.
Qed.

(** A node object written once is found at its position afterwards. *)
Lemma storeAll_written (rs : list NodeRef) (h : list GraphNode) (r : NodeRef) :
  NoDup (map fst rs) -> In r rs -> (fst r < List.length h)%nat ->
  nth_error (storeAll h rs) (fst r) = Some (snd r).
Proof.
  revert h. induction rs as [| a rs IH]; intros h Hnd Hin Hlt; [contradiction |].
  simpl in Hnd. apply NoDup_cons_iff in Hnd. destruct Hnd as [Hfresh Hnd].
  change (storeAll h (a :: rs)) with (storeAll (store h (fst a) (snd a)) rs).
  destruct Hin as [-> | Hin].
  - rewrite storeAll_untouched by exact Hfresh.
    rewrite nth_error_store, Nat.eqb_refl.
    destruct (nth_error h (fst r)) eqn:E; [reflexivity |].
    apply nth_error_None in E. lia.
  - apply IH; [exact Hnd | exact Hin |]. now rewrite store_length.
Qed.

Lemma paint_positions (d : JsMap Z) (rs : list NodeRef) :
  map fst (paint d rs) = map fst rs.
Proof. unfold paint. cbv zeta. rewrite !map_map. reflexivity. Qed.

(** What step 8 leaves on a node: [val] and [totalVal] hold the same number,
    [color] and [baseColor] the same colour. *)
Lemma paint_written (d : JsMap Z) (rs : list NodeRef) (r : NodeRef) :
  In r (paint d rs) ->
  val (snd r) <> None /\ totalVal (snd r) = val (snd r)
  /\ color (snd r) <> None /\ baseColor (snd r) = color (snd r).
Proof.
  unfold paint. cbv zeta. intros H.
  apply in_map_iff in H. destruct H as (r1 & <- & H).
  apply in_map_iff in H. destruct H as (r0 & <- & _).
  simpl. repeat split; discriminate.
Qed.

(** The entries of a map of node references that is filed under the nodes'
    identifiers sit at pairwise different positions of the snapshot. *)
Lemma keyed_positions_NoDup (nb : NetworkBuilder) (m : JsMap NodeRef) :
  NoDup (map_keys m) -> keyed m ->
  (forall kv, In kv m -> In (snd kv) (nodeRefs nb)) ->
  NoDup (map fst (map_values m)).
Proof.
  unfold map_keys, map_values, keyed.
  induction m as [| [k r] m IH]; intros Hnd Hk Hrefs; [constructor |].
  simpl in Hnd. apply NoDup_cons_iff in Hnd. destruct Hnd as [Hfresh Hnd].
  apply Forall_cons_iff in Hk. destruct Hk as [Hkr Hk]. simpl in Hkr.
  simpl. apply NoDup_cons_iff. split.
  - intros Hin. apply Hfresh.
    apply in_map_iff in Hin. destruct Hin as (r' & Hpos & Hin).
    apply in_map_iff in Hin. destruct Hin as ([k' r''] & E & Hin).
    simpl in E. subst r''.
    assert (Hsame : snd r' = snd r).
    { pose proof (Hrefs (k, r) (or_introl eq_refl)) as H1.
      pose proof (Hrefs (k', r') (or_intror Hin)) as H2.
      simpl in H1, H2. destruct r as [i n], r' as [i' n']. simpl in *. subst i'.
      apply nodeRefs_nth in H1, H2. congruence. }
    rewrite Forall_forall in Hk. pose proof (Hk _ Hin) as Hk'. simpl in Hk'.
    apply in_map_iff. exists (k', r'). split; [| exact Hin].
    simpl. rewrite Hk', Hsame. now symmetry.
  - apply IH; [exact Hnd | exact Hk |].
    intros kv Hkv. apply Hrefs. now right.
Qed.

(** C4, as the code has it.  [buildNetwork] leaves the link list and the
    adjacency index as they were, and of the nodes it leaves every property
    other than [val], [totalVal], [color] and [baseColor]; the node objects
    it writes to are those it returns, and every node it returns is a node
    object of the engine after the call, with those four properties
    written. *)
Theorem buildNetwork_frame (nb : NetworkBuilder) (state : NetworkBuilderState)
  (searchLogic : SearchLogic) (nodeRankingMode : RankingMode) :
  allLinks (snd (buildNetwork nb state searchLogic nodeRankingMode)) = allLinks nb
  /\ adjacencyMap (snd (buildNetwork nb state searchLogic nodeRankingMode))
     = adjacencyMap nb
  /\ map stable (allNodes (snd (buildNetwork nb state searchLogic nodeRankingMode)))
     = map stable (allNodes nb)
  /\ (forall i : nat,
        nth_error (allNodes (snd (buildNetwork nb state searchLogic nodeRankingMode))) i
        = nth_error (allNodes nb) i
        \/ exists node,
             In node (nodes (fst (buildNetwork nb state searchLogic nodeRankingMode)))
             /\ nth_error
                  (allNodes (snd (buildNetwork nb state searchLogic nodeRankingMode))) i
                = Some node)
  /\ (forall node,
        In node (nodes (fst (buildNetwork nb state searchLogic nodeRankingMode))) ->
        In node (allNodes (snd (buildNetwork nb state searchLogic nodeRankingMode)))
        /\ val node <> None /\ totalVal node = val node
        /\ color node <> None /\ baseColor node = color node).
Proof.
  pose proof (buildNetwork_engine_stable nb state searchLogic nodeRankingMode) as E.
  unfold stableEngine in E. injection E as En El Ea.
  split; [assumption |]. split; [assumption |]. split; [assumption |].
  unfold buildNetwork.
  destruct (candidateIds nb state searchLogic) as [c |].
  - unfold assemble. cbv zeta. cbn [fst snd allNodes nodes]. split.
    + intros i. apply storeAll_positions.
    + set (final := finalNodeIds nb state nodeRankingMode _ _).
      set (smap := selectedNodeMap nb state final).
      set (d := countDegrees _).
      intros node Hnode. apply in_map_iff in Hnode. destruct Hnode as (r & <- & Hr).
      split; [| exact (paint_written d (map_values smap) r Hr)].
      assert (Hrefs : forall kv, In kv smap -> In (snd kv) (nodeRefs nb)).
      { intros kv Hkv. unfold smap in Hkv. rewrite selectedNodeMap_collect in Hkv.
        apply collect_In in Hkv. destruct Hkv as [[] | [Hkv _]]. exact Hkv. }
      assert (Hpos : NoDup (map fst (paint d (map_values smap)))).
      { rewrite paint_positions. apply (keyed_positions_NoDup nb).
        - unfold smap. rewrite selectedNodeMap_collect.
          apply collect_keys_NoDup. constructor.
        - unfold smap. rewrite selectedNodeMap_collect.
          apply collect_keyed, keyed_nil.
        - exact Hrefs. }
      apply (nth_error_In _ (fst r)).
      apply storeAll_written; [exact Hpos | exact Hr |].
      assert (Hi : In (fst r) (map fst (map_values smap))).
      { rewrite <- (paint_positions d). apply in_map. exact Hr. }
      apply in_map_iff in Hi. destruct Hi as (r0 & E0 & Hr0).
      unfold map_values in Hr0. apply in_map_iff in Hr0.
      destruct Hr0 as (kv & Ekv & Hkv). apply Hrefs in Hkv. rewrite Ekv in Hkv.
      destruct r0 as [i0 n0]. apply nodeRefs_nth in Hkv. simpl in E0. subst i0.
      apply nth_error_Some. congruence.
  - split; [intros i; now left |]. intros node [].
Qed.

(** C4, as stated, fails: the first call gives B the [val] 2 and a colour,
    and a second query on the same engine changes that [val] to 1. *)
Lemma buildNetwork_writes_nodes :
  map val (allNodes Sample.abc) = [None; None; None]
  /\ map val (allNodes (snd (buildNetwork Sample.abc
        (Sample.query ["B"] ["entity"] allNodeTypes ["reference"; "definition"] 1 10)
        OR RankGlobal))) = [Some 1; Some 2; Some 1]
  /\ map color (allNodes (snd (buildNetwork Sample.abc
        (Sample.query ["B"] ["entity"] allNodeTypes ["reference"; "definition"] 1 10)
        OR RankGlobal)))
     = [Some "rgb(110, 103, 172)"; Some "rgb(240, 167, 52)"; Some "rgb(245, 192, 104)"]
  /\ map val (allNodes (snd (buildNetwork
        (snd (buildNetwork Sample.abc
           (Sample.query ["B"] ["entity"] allNodeTypes ["reference"; "definition"] 1 10)
           OR RankGlobal))
        (Sample.query ["B"] ["entity"] allNodeTypes ["definition"] 1 10)
        OR RankGlobal))) = [Some 1; Some 1; Some 1]
  /\ allNodes (snd (buildNetwork Sample.abc
        (Sample.query ["B"] ["entity"] allNodeTypes ["reference"; "definition"] 1 10)
        OR RankGlobal)) <> allNodes Sample.abc.
Proof.
  repeat split; try (vm_compute; reflexivity). vm_compute. discriminate.
Qed.

(** ** Independence from the runtime-computed properties *)

Lemma recognizedField_cases (field : string) :
  recognizedField field = true ->
  field = "text" \/ field = "full_name" \/ field = "display_label"
  \/ field = "definition" \/ field = "entity" \/ field = "concept"
  \/ field = "properties".
Proof.
  unfold recognizedField, Array_includes, recognizedFields. simpl.
  rewrite !orb_true_iff, !String.eqb_eq. intuition discriminate.
Qed.

Lemma fieldStrings_stable (node : GraphNode) (field : string) :
  recognizedField field = true ->
  fieldStrings (stable node) field = fieldStrings node field.
Proof.
  intros H. apply recognizedField_cases in H.
  destruct H as [-> | [-> | [-> | [-> | [-> | [-> | ->]]]]]]; reflexivity.
Qed.

Lemma searchableValues_stable (node : GraphNode) (fields : list string) :
  forallb recognizedField fields = true ->
  searchableValues (stable node) fields = searchableValues node fields.
Proof.
  unfold searchableValues. induction fields as [| f fields IH]; simpl; intros H.
  - reflexivity.
  - apply andb_true_iff in H. destruct H as [Hf H].
    now rewrite fieldStrings_stable, IH.
Qed.

Lemma searchNodes_stable (nb : NetworkBuilder) (terms fields : list string)
  (logic : SearchLogic) :
  forallb recognizedField fields = true ->
  searchNodes (stableEngine nb) terms fields logic = searchNodes nb terms fields logic.
Proof.
  intros H. unfold searchNodes. simpl allNodes. generalize (@nil string) as acc.
  induction (allNodes nb) as [| n ns IH]; intros acc; simpl; [reflexivity |].
  rewrite (searchableValues_stable n fields H). apply IH.
Qed.

Lemma expandLoop_stable (nb : NetworkBuilder) (cap : Z) (types : list string)
  (k : nat) (layer expanded : JsSet) :
  expandLoop (stableEngine nb) cap types k layer expanded
  = expandLoop nb cap types k layer expanded.
Proof.
  revert layer expanded. induction k as [| k IH]; intros layer expanded; simpl.
  - reflexivity.
  - change (expandLayer (stableEngine nb) cap types layer expanded)
      with (expandLayer nb cap types layer expanded).
    destruct (List.length (fst (expandLayer nb cap types layer expanded)) =? 0)%nat;
      [reflexivity | apply IH].
Qed.

Lemma findNode_stable (nb : NetworkBuilder) (x : string) :
  findNode (stableEngine nb) x = option_map stable (findNode nb x).
Proof.
  unfold findNode. simpl allNodes.
  induction (allNodes nb) as [| n ns IH]; simpl; [reflexivity |].
  destruct (String.eqb (id n) x); [reflexivity | apply IH].
Qed.

Lemma seedsAfterFilter_stable (nb : NetworkBuilder) (state : NetworkBuilderState)
  (seeds : JsSet) :
  seedsAfterFilter (stableEngine nb) state seeds = seedsAfterFilter nb state seeds.
Proof.
  unfold seedsAfterFilter. f_equal. apply filter_ext. intros x.
  rewrite findNode_stable. now destruct (findNode nb x).
Qed.

Lemma step1_stable (nb : NetworkBuilder) (state : NetworkBuilderState)
  (logic : SearchLogic) :
  forallb recognizedField (searchFields state) = true ->
  step1 (stableEngine nb) state logic = step1 nb state logic.
Proof.
  intros H. unfold step1. rewrite (searchNodes_stable nb _ _ logic H).
  unfold expandFromSeeds. rewrite expandLoop_stable.
  simpl allNodes. rewrite map_map.
  destruct (searchUsed state); [| reflexivity].
  destruct (List.length _ =? 0)%nat; [reflexivity |].
  destruct (0 <? expansionDepth state); [| reflexivity].
  destruct (0 <? List.length (allowedNodeTypes state))%nat; [| reflexivity].
  do 3 f_equal. apply filter_ext. intros x.
  rewrite findNode_stable. now destruct (findNode nb x).
Qed.

Lemma candidateIds_stable (nb : NetworkBuilder) (state : NetworkBuilderState)
  (logic : SearchLogic) :
  forallb recognizedField (searchFields state) = true ->
  candidateIds (stableEngine nb) state logic = candidateIds nb state logic.
Proof.
  intros H. unfold candidateIds. rewrite (step1_stable nb state logic H).
  destruct (step1 nb state logic) as [[c s] |]; [| reflexivity].
  unfold step2. now rewrite seedsAfterFilter_stable.
Qed.

Lemma nodeRefs_stable (nb : NetworkBuilder) :
  nodeRefs (stableEngine nb) = map stableRef (nodeRefs nb).
Proof.
  unfold nodeRefs. simpl allNodes. rewrite length_map.
  generalize (seq 0 (List.length (allNodes nb))) as idx.
  induction (allNodes nb) as [| n ns IH]; intros idx; destruct idx as [| i idx];
    simpl; try reflexivity.
  now rewrite IH.
Qed.

Lemma map_set_stable (m : JsMap NodeRef) (k : string) (r : NodeRef) :
  map_set (stableMap m) k (stableRef r) = stableMap (map_set m k r).
Proof.
  unfold stableMap. induction m as [| [k' v'] m IH]; simpl; [reflexivity |].
  destruct (String.eqb k k'); simpl; [reflexivity | now rewrite IH].
Qed.

Lemma collect_stable (keep : NodeRef -> bool) (rs : list NodeRef) (m : JsMap NodeRef) :
  (forall r, keep (stableRef r) = keep r) ->
  collect keep (map stableRef rs) (stableMap m) = stableMap (collect keep rs m).
Proof.
  intros Hkeep. unfold collect. revert m.
  induction rs as [| r rs IH]; intros m; simpl; [reflexivity |].
  rewrite Hkeep. destruct (keep r); [| apply IH].
  change (id (stable (snd r))) with (id (snd r)).
  rewrite map_set_stable. apply IH.
Qed.

Lemma map_get_stable (m : JsMap NodeRef) (k : string) :
  map_get (stableMap m) k = option_map stableRef (map_get m k).
Proof.
  unfold stableMap. induction m as [| [k' v'] m IH]; simpl; [reflexivity |].
  destruct (String.eqb k k'); [reflexivity | apply IH].
Qed.

Lemma map_has_stable (m : JsMap NodeRef) (k : string) :
  map_has (stableMap m) k = map_has m k.
Proof. unfold map_has. rewrite map_get_stable. now destruct (map_get m k). Qed.

Lemma candidateNodeMap_stable (nb : NetworkBuilder) (c : JsSet) :
  candidateNodeMap (stableEngine nb) c = stableMap (candidateNodeMap nb c).
Proof.
  rewrite !candidateNodeMap_collect, nodeRefs_stable.
  apply (collect_stable _ _ []). reflexivity.
Qed.

Lemma selectedNodeMap_stable (nb : NetworkBuilder) (state : NetworkBuilderState)
  (final : JsSet) :
  selectedNodeMap (stableEngine nb) state final
  = stableMap (selectedNodeMap nb state final).
Proof.
  rewrite !selectedNodeMap_collect, nodeRefs_stable.
  apply (collect_stable _ _ []). reflexivity.
Qed.

Lemma candidateLinks_stable (nb : NetworkBuilder) (state : NetworkBuilderState)
  (m : JsMap NodeRef) :
  candidateLinks (stableEngine nb) state (stableMap m) = candidateLinks nb state m.
Proof.
  unfold candidateLinks. simpl allLinks. apply filter_ext. intros l.
  now rewrite !map_has_stable.
Qed.

Lemma connectedNodeIds_stable (state : NetworkBuilderState) (m : JsMap NodeRef)
  (clinks : list GraphLink) :
  connectedNodeIds state (stableMap m) clinks = connectedNodeIds state m clinks.
Proof.
  unfold connectedNodeIds, stableMap, map_values. f_equal.
  induction m as [| [k r] m IH]; simpl; [reflexivity |].
  change (typeMatch state (stable (snd r))) with (typeMatch state (snd r)).
  destruct (set_has (nodesWithEdges clinks) (id (snd r)) && typeMatch state (snd r))%bool;
    simpl; now rewrite IH.
Qed.

Lemma finalLinks_stable (clinks : list GraphLink) (m : JsMap NodeRef) :
  finalLinks clinks (stableMap m) = finalLinks clinks m.
Proof.
  unfold finalLinks. f_equal. apply filter_ext. intros l.
  now rewrite !map_has_stable.
Qed.

Lemma paint_stableMap (d : JsMap Z) (m : JsMap NodeRef) :
  paint d (map_values (stableMap m)) = paint d (map_values m).
Proof.
  unfold paint. cbv zeta.
  assert (E : maxValOf
                (map snd
                   (map (fun r : NodeRef =>
                           (fst r, assignVal (snd r) (displayDegree d (id (snd r)))))
                      (map_values (stableMap m))))
              = maxValOf
                  (map snd
                     (map (fun r : NodeRef =>
                             (fst r, assignVal (snd r) (displayDegree d (id (snd r)))))
                        (map_values m)))).
  { unfold maxValOf, map_values, stableMap. rewrite !map_map. reflexivity. }
  unfold NodeRef in *. rewrite E. unfold map_values, stableMap. rewrite !map_map.
  apply map_ext. intros kv. reflexivity.
Qed.

Lemma assemble_stable (nb : NetworkBuilder) (state : NetworkBuilderState)
  (mode : RankingMode) (c : JsSet) :
  fst (assemble (stableEngine nb) state mode c) = fst (assemble nb state mode c).
Proof.
  unfold assemble. cbv zeta. cbn [fst].
  rewrite candidateNodeMap_stable, candidateLinks_stable, connectedNodeIds_stable.
  change (finalNodeIds (stableEngine nb)) with (finalNodeIds nb).
  rewrite selectedNodeMap_stable, finalLinks_stable, paint_stableMap.
  reflexivity.
Qed.

Lemma buildNetwork_stable (nb : NetworkBuilder) (state : NetworkBuilderState)
  (logic : SearchLogic) (mode : RankingMode) :
  forallb recognizedField (searchFields state) = true ->
  fst (buildNetwork (stableEngine nb) state logic mode)
  = fst (buildNetwork nb state logic mode).
Proof.
  intros H. unfold buildNetwork. rewrite (candidateIds_stable nb state logic H).
  destruct (candidateIds nb state logic); [apply assemble_stable | reflexivity].
Qed.

(** ** Idempotence *)

(** C7.  When every search field is one of the recognized fields, a second
    call of [buildNetwork] with the same query, search logic and ranking
    mode, on the engine as the first call left it, returns the same nodes,
    the same links, the same [truncated] flag and the same [matchedCount]. *)
Theorem buildNetwork_idempotent (nb : NetworkBuilder) (state : NetworkBuilderState)
  (searchLogic : SearchLogic) (nodeRankingMode : RankingMode) :
  forallb recognizedField (searchFields state) = true ->
  fst (buildNetwork (snd (buildNetwork nb state searchLogic nodeRankingMode))
         state searchLogic nodeRankingMode)
  = fst (buildNetwork nb state searchLogic nodeRankingMode).
Proof.
  intros H.
  rewrite <- (buildNetwork_stable
                (snd (buildNetwork nb state searchLogic nodeRankingMode))
                state searchLogic nodeRankingMode H).
  rewrite <- (buildNetwork_stable nb state searchLogic nodeRankingMode H).
  now rewrite buildNetwork_engine_stable.
Qed.

Lemma buildNetwork_idempotent_witness :
  fst (buildNetwork
         (snd (buildNetwork Sample.abc
                 (Sample.query ["B"] ["entity"] allNodeTypes ["reference"; "definition"] 1 10)
                 OR RankGlobal))
         (Sample.query ["B"] ["entity"] allNodeTypes ["reference"; "definition"] 1 10)
         OR RankGlobal)
  = fst (buildNetwork Sample.abc
           (Sample.query ["B"] ["entity"] allNodeTypes ["reference"; "definition"] 1 10)
           OR RankGlobal).
Proof.
  apply (buildNetwork_idempotent Sample.abc
           (Sample.query ["B"] ["entity"] allNodeTypes ["reference"; "definition"] 1 10)
           OR RankGlobal).
  reflexivity.
Defined.

(** ** Scenarios *)

(** The three scenarios of the specification. *)
Example scenario_expand_from_B :
  let r := fst (buildNetwork Sample.abc
                  (Sample.query ["B"] ["entity"] ["section"; "entity"; "concept"]
                     ["reference"; "definition"] 1 10) OR RankGlobal) in
  map id (nodes r) = ["A"; "B"; "C"]
  /\ map (fun l => (sourceId l, targetId l)) (links r) = [("A", "B"); ("B", "C")]
  /\ truncated r = false /\ matchedCount r = 3%nat.
Proof. repeat split; reflexivity. Qed.

Example scenario_definition_only :
  let r := fst (buildNetwork Sample.abc
                  (Sample.query ["B"] ["entity"] ["section"; "entity"; "concept"]
                     ["definition"] 1 10) OR RankGlobal) in
  map id (nodes r) = ["B"; "C"]
  /\ map (fun l => (sourceId l, targetId l)) (links r) = [("B", "C")]
  /\ truncated r = false /\ matchedCount r = 2%nat.
Proof. repeat split; reflexivity. Qed.

Example scenario_global_ranking :
  let r := fst (buildNetwork Sample.star
                  (Sample.query [] [] allNodeTypes ["reference"; "hierarchy"] 0 1)
                  OR RankGlobal) in
  map id (nodes r) = ["A"] /\ truncated r = true /\ matchedCount r = 4%nat.
Proof. repeat split; reflexivity. Qed.

(** A link from a node to itself gives the node two link ends. *)
Example self_loop_counts_twice :
  map val (nodes (fst (buildNetwork Sample.loop
                         (Sample.query [] [] [] ["reference"] 0 10) OR RankGlobal)))
  = [Some 2].
Proof. reflexivity. Qed.

(** A search on the written property [val] sees what the previous call
    wrote: the second call finds no seed. *)
Example search_on_val_not_idempotent :
  map id (nodes (fst (buildNetwork Sample.abc7
                        (Sample.query ["7"] ["val"] allNodeTypes ["reference"] 1 10)
                        OR RankGlobal))) = ["A"; "B"]
  /\ fst (buildNetwork
            (snd (buildNetwork Sample.abc7
                    (Sample.query ["7"] ["val"] allNodeTypes ["reference"] 1 10)
                    OR RankGlobal))
            (Sample.query ["7"] ["val"] allNodeTypes ["reference"] 1 10)
            OR RankGlobal) = emptyResult.
Proof. split; reflexivity. Qed.

(** * Further properties of the engine *)

(** ** The adjacency index *)

Lemma neighborsOf_map_set (m : JsMap (list Neighbor)) (k x : string)
  (v : list Neighbor) :
  neighborsOf (map_set m k v) x = if String.eqb x k then v else neighborsOf m x.
Proof.
  unfold neighborsOf. destruct (String.eqb x k) eqn:E.
  - apply String.eqb_eq in E. subst. now rewrite map_get_set_same.
  - apply String.eqb_neq in E. now rewrite map_get_set_other.
Qed.

Lemma neighborsOf_ensure (m : JsMap (list Neighbor)) (k x : string) :
  neighborsOf (if map_has m k then m else map_set m k []) x = neighborsOf m x.
Proof.
  destruct (map_has m k) eqn:E; [reflexivity |].
  rewrite neighborsOf_map_set. destruct (String.eqb x k) eqn:Ex; [| reflexivity].
  apply String.eqb_eq in Ex. subst. unfold neighborsOf, map_has in *.
  now destruct (map_get m k).
Qed.

Lemma neighborsOf_adj_push (m : JsMap (list Neighbor)) (k x : string) (n : Neighbor) :
  neighborsOf (adj_push m k n) x
  = neighborsOf m x ++ (if String.eqb k x then [n] else []).
Proof.
  unfold adj_push. rewrite neighborsOf_map_set, (String.eqb_sym x k).
  destruct (String.eqb k x) eqn:E.
  - apply String.eqb_eq in E. now subst.
  - now rewrite app_nil_r.
Qed.

Lemma neighborsOf_addLink (m : JsMap (list Neighbor)) (link : GraphLink) (x : string) :
  neighborsOf (addLink m link) x = neighborsOf m x ++ linkIncidences x link.
Proof.
  unfold addLink, linkIncidences. cbv zeta.
  rewrite !neighborsOf_adj_push, !neighborsOf_ensure. now rewrite <- app_assoc.
Qed.

Lemma neighborsOf_fold_addLink (ls : list GraphLink) (m : JsMap (list Neighbor))
  (x : string) :
  neighborsOf (fold_left addLink ls m) x = neighborsOf m x ++ incidences x ls.
Proof.
  unfold incidences. revert m. induction ls as [| l ls IH]; intros m; simpl.
  - now rewrite app_nil_r.
  - now rewrite IH, neighborsOf_addLink, <- app_assoc.
Qed.

Lemma neighborsOf_new_NetworkBuilder (nodes0 : list GraphNode)
  (links0 : list GraphLink) (x : string) :
  neighborsOf (adjacencyMap (new_NetworkBuilder nodes0 links0)) x
  = incidences x links0.
Proof.
  unfold new_NetworkBuilder. cbn [adjacencyMap].
  now rewrite neighborsOf_fold_addLink.
Qed.

(** X1.  The adjacency list that the constructor builds for a node is, in
    order, what the links contribute one after the other: for each link the
    target when the node is its source, then the source when the node is
    its target; a node that no link touches has the empty list. *)
Theorem adjacency_index_incidences (nodes0 : list GraphNode)
  (links0 : list GraphLink) (x : string) :
  neighborsOf (adjacencyMap (new_NetworkBuilder nodes0 links0)) x
  = incidences x links0
  /\ (hasIncidentLink x links0 = false ->
      neighborsOf (adjacencyMap (new_NetworkBuilder nodes0 links0)) x = []).
Proof.
  pose proof (neighborsOf_new_NetworkBuilder nodes0 links0 x) as E.
  split; [exact E |]. rewrite E. clear E. unfold hasIncidentLink, incidences.
  induction links0 as [| l ls IH]; simpl; [reflexivity |].
  intros H. apply orb_false_iff in H. destruct H as [H1 H2].
  apply orb_false_iff in H1. destruct H1 as [Hs Ht].
  unfold linkIncidences. rewrite Hs, Ht. simpl. now apply IH.
Qed.

Lemma adjacency_index_incidences_witness :
  neighborsOf (adjacencyMap (new_NetworkBuilder [] [Sample.link "A" "B" "reference"])) "C"
  = [].
Proof.
  apply (proj2 (adjacency_index_incidences [] [Sample.link "A" "B" "reference"] "C")).
  reflexivity.
Defined.

Lemma incidences_In (x : string) (ls : list GraphLink) (n : Neighbor) :
  In n (incidences x ls) <->
  exists l, In l ls /\ edge_type l = edgeType n
            /\ ((sourceId l = x /\ targetId l = neighborId n)
                \/ (targetId l = x /\ sourceId l = neighborId n)).
Proof.
  unfold incidences. rewrite in_flat_map. split.
  - intros [l [Hl Hn]]. exists l. split; [assumption |].
    unfold linkIncidences in Hn. apply in_app_or in Hn. destruct Hn as [Hn | Hn].
    + destruct (String.eqb (sourceId l) x) eqn:Es; [| contradiction].
      destruct Hn as [<- | []]. apply String.eqb_eq in Es. simpl. auto.
    + destruct (String.eqb (targetId l) x) eqn:Et; [| contradiction].
      destruct Hn as [<- | []]. apply String.eqb_eq in Et. simpl. auto.
  - intros [l [Hl [Hty Hends]]]. exists l. split; [assumption |].
    unfold linkIncidences. apply in_or_app.
    destruct n as [nid nty]. simpl in *. subst nty.
    destruct Hends as [[<- <-] | [<- <-]].
    + left. rewrite String.eqb_refl. now left.
    + right. rewrite String.eqb_refl. now left.
Qed.

(** X2.  The adjacency index is symmetric: [b] is listed as a neighbour of
    [a] with edge type [t] exactly when [a] is listed as a neighbour of [b]
    with edge type [t], whichever end of the link each occupies. *)
Theorem adjacency_index_symmetric (nodes0 : list GraphNode)
  (links0 : list GraphLink) (a b t : string) :
  In {| neighborId := b; edgeType := t |}
     (neighborsOf (adjacencyMap (new_NetworkBuilder nodes0 links0)) a)
  <-> In {| neighborId := a; edgeType := t |}
         (neighborsOf (adjacencyMap (new_NetworkBuilder nodes0 links0)) b).
Proof.
  rewrite !neighborsOf_new_NetworkBuilder.
  rewrite !incidences_In. simpl.
  split; intros [l [Hl [Hty Hends]]]; exists l; (split; [assumption |]);
    (split; [assumption | tauto]).
Qed.

Lemma incidences_length (x : string) (ls : list GraphLink) :
  Z.of_nat (List.length (incidences x ls)) = degreeIn x ls.
Proof.
  unfold incidences. induction ls as [| l ls IH]; [reflexivity |].
  cbn [flat_map degreeIn]. rewrite length_app, Nat2Z.inj_add, IH.
  unfold linkIncidences. rewrite length_app.
  destruct (String.eqb (sourceId l) x), (String.eqb (targetId l) x);
    cbn [List.length Nat.add]; lia.
Qed.

(** X3.  The degree that the global ranking uses, the length of a node's
    adjacency list, is the node's degree in the snapshot's link list: the
    number of link ends at the node, whatever the edge types. *)
Theorem adjacencyDegree_is_snapshot_degree (nodes0 : list GraphNode)
  (links0 : list GraphLink) (x : string) :
  adjacencyDegree (new_NetworkBuilder nodes0 links0) x = degreeIn x links0.
Proof.
  unfold adjacencyDegree.
  rewrite neighborsOf_new_NetworkBuilder.
  apply incidences_length.
Qed.

(** ** More on [searchNodes] *)

(** Filtering a snapshot with unique identifiers leaves unique identifiers. *)
Lemma filter_ids_NoDup (keep : GraphNode -> bool) (ns : list GraphNode) :
  NoDup (map id ns) -> NoDup (map id (filter keep ns)).
Proof.
  intros Hnd. induction ns as [| n ns IH]; [exact Hnd |].
  simpl in Hnd. apply NoDup_cons_iff in Hnd. destruct Hnd as [Hfresh Hrest].
  simpl. destruct (keep n); [| exact (IH Hrest)].
  simpl. apply NoDup_cons_iff. split; [| exact (IH Hrest)].
  intros Hin. apply Hfresh. apply in_map_iff in Hin.
  destruct Hin as (m & Hm & Hin). apply in_map_iff. exists m.
  split; [exact Hm |]. apply filter_In in Hin. exact (proj1 Hin).
Qed.

Lemma fold_left_filter_map {A : Type} (p : A -> bool) (f : A -> string)
  (l : list A) (acc : JsSet) :
  fold_left (fun s a => if p a then set_add s (f a) else s) l acc
  = fold_left set_add (map f (filter p l)) acc.
Proof.
  revert acc. induction l as [| a l IH]; intros acc; simpl; [reflexivity |].
  destruct (p a); simpl; apply IH.
Qed.

Lemma searchNodes_new_Set (nb : NetworkBuilder) (terms fields : list string)
  (logic : SearchLogic) :
  searchNodes nb terms fields logic
  = new_Set (map id
      (filter (fun node =>
                 nodeMatches logic (map (fun t => trim (toLowerCase t)) terms)
                   (searchableValues node fields)) (allNodes nb))).
Proof.
  unfold searchNodes, new_Set. cbv zeta.
  apply (fold_left_filter_map
           (fun node => nodeMatches logic (map (fun t => trim (toLowerCase t)) terms)
                          (searchableValues node fields)) id).
Qed.

(** X4.  [searchNodes] returns the identifiers of the matching nodes in
    snapshot order, each once; when the identifiers of the snapshot are
    unique this is the list of matching nodes mapped to their [id]. *)
Theorem searchNodes_matching_in_order (nb : NetworkBuilder)
  (terms fields : list string) (logic : SearchLogic) :
  searchNodes nb terms fields logic
  = new_Set (map id
      (filter (fun node =>
                 nodeMatches logic (map (fun t => trim (toLowerCase t)) terms)
                   (searchableValues node fields)) (allNodes nb)))
  /\ (NoDup (map id (allNodes nb)) ->
      searchNodes nb terms fields logic
      = map id
          (filter (fun node =>
                     nodeMatches logic (map (fun t => trim (toLowerCase t)) terms)
                       (searchableValues node fields)) (allNodes nb))).
Proof.
  split; [apply searchNodes_new_Set |]. intros Hnd. rewrite searchNodes_new_Set.
  apply new_Set_id. now apply filter_ids_NoDup.
Qed.

Lemma searchNodes_matching_in_order_witness :
  searchNodes Sample.star ["a"; "c"] ["name"] OR = ["A"; "C"].
Proof.
  rewrite (proj2 (searchNodes_matching_in_order Sample.star ["a"; "c"] ["name"] OR)).
  - reflexivity.
  - simpl. repeat constructor; simpl; intuition discriminate.
Defined.

(** X5.  Degenerate searches.  With no term, OR logic matches no node and
    AND logic matches every node; with no field and at least one term,
    neither logic matches any node. *)
Theorem searchNodes_degenerate (nb : NetworkBuilder) (terms fields : list string)
  (logic : SearchLogic) :
  searchNodes nb [] fields OR = []
  /\ searchNodes nb [] fields AND = new_Set (map id (allNodes nb))
  /\ (terms <> [] -> searchNodes nb terms [] logic = []).
Proof.
  repeat split.
  - rewrite searchNodes_new_Set. rewrite filter_none; [reflexivity |].
    intros node _. reflexivity.
  - rewrite searchNodes_new_Set. rewrite filter_all; [reflexivity |].
    intros node _. reflexivity.
  - intros Hne. rewrite searchNodes_new_Set. rewrite filter_none; [reflexivity |].
    intros node _. simpl searchableValues.
    destruct terms as [| t ts]; [congruence |]. destruct logic; simpl; [reflexivity |].
    clear Hne. induction ts as [| t' ts IH]; simpl; [reflexivity | exact IH].
Qed.

Lemma searchNodes_degenerate_witness :
  searchNodes Sample.abc ["b"] [] AND = [].
Proof.
  apply (proj2 (proj2 (searchNodes_degenerate Sample.abc ["b"] [] AND))).
  discriminate.
Defined.

Lemma includes_empty (s : string) : includes s "" = true.
Proof. destruct s; reflexivity. Qed.

(** X6.  A blank search term matches everything that can be searched: when
    a term is empty once lower-cased and trimmed, OR logic returns every
    node for which the chosen fields yield at least one value. *)
Theorem searchNodes_blank_term (nb : NetworkBuilder) (terms fields : list string)
  (t : string) (node : GraphNode) :
  In t terms -> trim (toLowerCase t) = "" ->
  In node (allNodes nb) -> searchableValues node fields <> [] ->
  set_has (searchNodes nb terms fields OR) (id node) = true.
Proof.
  intros Ht Hblank Hnode Hvals. apply set_has_In, searchNodes_In.
  exists node. split; [assumption |]. split; [reflexivity |].
  simpl. apply existsb_exists. exists "". split.
  - rewrite <- Hblank. now apply (in_map (fun t => trim (toLowerCase t))).
  - unfold termFound. destruct (searchableValues node fields) as [| v vs];
      [congruence |]. simpl. now rewrite includes_empty.
Qed.

Lemma searchNodes_blank_term_witness :
  set_has (searchNodes Sample.abc ["zzz"; "  "] ["name"] OR) "C" = true.
Proof.
  apply (searchNodes_blank_term Sample.abc ["zzz"; "  "] ["name"] "  "
           (Sample.node "C" "C" "concept")).
  - simpl. right. left. reflexivity.
  - reflexivity.
  - simpl. right. right. left. reflexivity.
  - discriminate.
Defined.

Lemma NoDup_map_In_eq {A B : Type} (f : A -> B) (l : list A) (a b : A) :
  NoDup (map f l) -> In a l -> In b l -> f a = f b -> a = b.
Proof.
  induction l as [| c l IH]; simpl; intros Hnd Ha Hb Hf; [contradiction |].
  inversion Hnd as [| ? ? Hn Hd]; subst.
  destruct Ha as [-> | Ha], Hb as [-> | Hb]; try reflexivity.
  - exfalso. apply Hn. rewrite Hf. now apply in_map.
  - exfalso. apply Hn. rewrite <- Hf. now apply in_map.
  - now apply IH.
Qed.

(** X7.  Splitting the term list.  Under OR logic the result for the terms
    [t1 ++ t2] is the union of the results for [t1] and for [t2]; under AND
    logic, on a snapshot with unique identifiers, it is their
    intersection. *)
Theorem searchNodes_terms_app (nb : NetworkBuilder) (t1 t2 fields : list string)
  (x : string) :
  set_has (searchNodes nb (t1 ++ t2) fields OR) x
  = (set_has (searchNodes nb t1 fields OR) x
     || set_has (searchNodes nb t2 fields OR) x)%bool
  /\ (NoDup (map id (allNodes nb)) ->
      set_has (searchNodes nb (t1 ++ t2) fields AND) x
      = (set_has (searchNodes nb t1 fields AND) x
         && set_has (searchNodes nb t2 fields AND) x)%bool).
Proof.
  split.
  - apply eq_true_iff_eq. rewrite orb_true_iff, !set_has_In, !searchNodes_In.
    split.
    + intros [node [Hin [Hid Hm]]]. simpl in Hm.
      rewrite map_app, existsb_app in Hm. apply orb_true_iff in Hm.
      destruct Hm as [Hm | Hm]; [left | right]; exists node; auto.
    + intros [[node [Hin [Hid Hm]]] | [node [Hin [Hid Hm]]]]; exists node;
        (split; [assumption |]); (split; [assumption |]); simpl in *;
        rewrite map_app, existsb_app, Hm; [reflexivity | apply orb_true_r].
  - intros Hnd. apply eq_true_iff_eq.
    rewrite andb_true_iff, !set_has_In, !searchNodes_In. split.
    + intros [node [Hin [Hid Hm]]]. simpl in Hm.
      rewrite map_app, forallb_app in Hm. apply andb_true_iff in Hm.
      destruct Hm as [H1 H2]. split; exists node; auto.
    + intros [[n1 [Hin1 [Hid1 Hm1]]] [n2 [Hin2 [Hid2 Hm2]]]].
      assert (n1 = n2) by (apply (NoDup_map_In_eq id (allNodes nb)); congruence).
      subst n2. exists n1. split; [assumption |]. split; [assumption |].
      simpl in *. now rewrite map_app, forallb_app, Hm1, Hm2.
Qed.

Lemma searchNodes_terms_app_witness :
  set_has (searchNodes Sample.abc (["b"] ++ ["B"]) ["entity"] AND) "B" = true.
Proof.
  rewrite (proj2 (searchNodes_terms_app Sample.abc ["b"] ["B"] ["entity"] "B")).
  - reflexivity.
  - simpl. repeat constructor; simpl; intuition discriminate.
Defined.

Lemma termFound_app (v1 v2 : list string) (t : string) :
  termFound (v1 ++ v2) t = (termFound v1 t || termFound v2 t)%bool.
Proof. unfold termFound. apply existsb_app. Qed.

Lemma nodeMatches_more_values (logic : SearchLogic) (ts v1 v2 : list string) :
  nodeMatches logic ts v1 = true -> nodeMatches logic ts (v1 ++ v2) = true.
Proof.
  destruct logic; simpl.
  - rewrite !forallb_forall. intros H t Ht. rewrite termFound_app, (H t Ht).
    reflexivity.
  - rewrite !existsb_exists. intros [t [Ht H]]. exists t. split; [assumption |].
    now rewrite termFound_app, H.
Qed.

(** X8.  Searching more fields never loses a match: every identifier
    returned for the fields [f1] is returned for the fields [f1 ++ f2],
    under either logic. *)
Theorem searchNodes_more_fields (nb : NetworkBuilder) (terms f1 f2 : list string)
  (logic : SearchLogic) (x : string) :
  set_has (searchNodes nb terms f1 logic) x = true ->
  set_has (searchNodes nb terms (f1 ++ f2) logic) x = true.
Proof.
  rewrite !set_has_In, !searchNodes_In. intros [node [Hin [Hid Hm]]].
  exists node. split; [assumption |]. split; [assumption |].
  unfold searchableValues. rewrite flat_map_app.
  now apply nodeMatches_more_values.
Qed.

Lemma searchNodes_more_fields_witness :
  set_has (searchNodes Sample.abc ["b"] (["entity"] ++ ["text"]) AND) "B" = true.
Proof.
  apply (searchNodes_more_fields Sample.abc ["b"] ["entity"] ["text"] AND "B").
  reflexivity.
Defined.

(** ** [expandFromSeeds] as a bounded breadth-first search *)

Section Expansion.

Variable nb : NetworkBuilder.
Variable cap : Z.
Variable types : list string.

Lemma fold_visit_spec (ns : list Neighbor) (st : JsSet * JsSet) (x : string) :
  (In x (snd (fold_left visit ns st)) <-> In x (snd st) \/ In x (map neighborId ns))
  /\ (In x (fst (fold_left visit ns st)) <->
      In x (fst st) \/ (In x (map neighborId ns) /\ ~ In x (snd st))).
Proof.
  revert st. induction ns as [| n ns IH]; intros st.
  - simpl. tauto.
  - cbn [fold_left map]. destruct (IH (visit st n)) as [IHa IHb].
    rewrite IHa, IHb. clear IHa IHb. unfold visit.
    destruct (set_has (snd st) (neighborId n)) eqn:E.
    + apply set_has_In in E. simpl.
      destruct (string_dec (neighborId n) x) as [<- | Hne]; tauto.
    + apply set_has_false in E. cbn [fst snd]. rewrite !set_add_In. simpl.
      destruct (string_dec (neighborId n) x) as [<- | Hne]; [tauto |].
      intuition congruence.
Qed.

Lemma expandLayer_from_spec (layer : JsSet) (st : JsSet * JsSet) (x : string) :
  (In x (snd (fold_left
                (fun st0 nodeId =>
                   fold_left visit (limitedNeighbors nb cap types nodeId) st0)
                layer st)) <->
   In x (snd st) \/ exists y, In y layer /\ In x (successors nb cap types y))
  /\ (In x (fst (fold_left
                   (fun st0 nodeId =>
                      fold_left visit (limitedNeighbors nb cap types nodeId) st0)
                   layer st)) <->
      In x (fst st)
      \/ ((exists y, In y layer /\ In x (successors nb cap types y))
          /\ ~ In x (snd st))).
Proof.
  revert st. induction layer as [| y layer IH]; intros st.
  - simpl. split; split; try tauto.
    + intros [H | [y [[] _]]]. assumption.
    + intros [H | [[y [[] _]] _]]. assumption.
  - cbn [fold_left].
    destruct (IH (fold_left visit (limitedNeighbors nb cap types y) st)) as [IHa IHb].
    destruct (fold_visit_spec (limitedNeighbors nb cap types y) st x) as [Va Vb].
    fold (successors nb cap types y) in Va, Vb.
    rewrite IHa, IHb, Va, Vb. clear IHa IHb Va Vb.
    assert (Hex : (exists z, In z (y :: layer) /\ In x (successors nb cap types z))
                  <-> In x (successors nb cap types y)
                      \/ exists z, In z layer /\ In x (successors nb cap types z)).
    { split.
      - intros [z [[<- | Hz] Hx]]; [now left | right; exists z; auto].
      - intros [H | [z [Hz Hx]]]; [exists y | exists z]; simpl; auto. }
    rewrite Hex.
    destruct (in_dec string_dec x (successors nb cap types y)) as [Hs | Hs]; tauto.
Qed.

Lemma expandLayer_spec (layer expanded : JsSet) (x : string) :
  (In x (snd (expandLayer nb cap types layer expanded)) <->
   In x expanded \/ exists y, In y layer /\ In x (successors nb cap types y))
  /\ (In x (fst (expandLayer nb cap types layer expanded)) <->
      (exists y, In y layer /\ In x (successors nb cap types y))
      /\ ~ In x expanded).
Proof.
  destruct (expandLayer_from_spec layer ([], expanded) x) as [Ha Hb].
  cbn [fst snd] in Ha, Hb. unfold expandLayer.
  split; [exact Ha |]. rewrite Hb. simpl. tauto.
Qed.

Variable seedIds : JsSet.

Lemma within_S (k : nat) (x : string) :
  within nb cap types seedIds k x -> within nb cap types seedIds (S k) x.
Proof. intros H. now left. Qed.

Lemma within_le (k m : nat) (x : string) :
  (k <= m)%nat -> within nb cap types seedIds k x -> within nb cap types seedIds m x.
Proof.
  intros Hle Hw. induction Hle; [assumption | now apply within_S].
Qed.

Lemma loopInv_start :
  loopInv nb cap types seedIds 0 (new_Set seedIds) (new_Set seedIds).
Proof.
  split; [| split].
  - intros x. simpl. apply new_Set_In.
  - apply incl_refl.
  - intros y Hy Hn. contradiction.
Qed.

Lemma loopInv_step (i : nat) (layer expanded : JsSet) :
  loopInv nb cap types seedIds i layer expanded ->
  loopInv nb cap types seedIds (S i)
    (fst (expandLayer nb cap types layer expanded))
    (snd (expandLayer nb cap types layer expanded)).
Proof.
  intros [I1 [I2 I3]].
  assert (Ha : forall x, In x (snd (expandLayer nb cap types layer expanded)) <->
     In x expanded \/ exists y, In y layer /\ In x (successors nb cap types y))
    by (intros x; apply expandLayer_spec).
  assert (Hb : forall x, In x (fst (expandLayer nb cap types layer expanded)) <->
      (exists y, In y layer /\ In x (successors nb cap types y))
      /\ ~ In x expanded)
    by (intros x; apply expandLayer_spec).
  split; [| split].
  - intros x. rewrite Ha. cbn [within]. rewrite <- I1. split.
    + intros [H | [y [Hy Hx]]]; [tauto |]. right. exists y.
      split; [| assumption]. apply I1. now apply I2.
    + intros [H | [y [Hy Hx]]]; [tauto |]. apply I1 in Hy.
      destruct (in_dec string_dec y layer) as [Hl | Hl].
      * right. exists y. auto.
      * left. now apply (I3 y).
  - intros x Hx. apply Hb in Hx. apply Ha. tauto.
  - intros y Hy Hn x Hx. apply Ha.
    assert (He : In y expanded).
    { destruct (in_dec string_dec y expanded) as [He | He]; [assumption |].
      exfalso. apply Hn. apply Hb. split; [| assumption].
      apply Ha in Hy. tauto. }
    destruct (in_dec string_dec y layer) as [Hl | Hl].
    + right. exists y. auto.
    + left. now apply (I3 y).
Qed.

Lemma loopInv_closed (i m : nat) (expanded : JsSet) (x : string) :
  loopInv nb cap types seedIds i [] expanded ->
  In x expanded <-> within nb cap types seedIds (i + m) x.
Proof.
  intros [I1 [_ I3]]. revert x. induction m as [| m IH]; intros x.
  - rewrite Nat.add_0_r. apply I1.
  - rewrite Nat.add_succ_r. cbn [within]. rewrite <- IH. split; [tauto |].
    intros [H | [y [Hy Hx]]]; [assumption |].
    apply IH in Hy. apply (I3 y Hy); [| assumption]. intros [].
Qed.

Lemma expandLoop_within (k i : nat) (layer expanded : JsSet) (x : string) :
  loopInv nb cap types seedIds i layer expanded ->
  In x (expandLoop nb cap types k layer expanded)
  <-> within nb cap types seedIds (i + k) x.
Proof.
  revert i layer expanded. induction k as [| k IH]; intros i layer expanded Hinv.
  - simpl. rewrite Nat.add_0_r. apply Hinv.
  - cbn [expandLoop]. cbv zeta. apply loopInv_step in Hinv.
    destruct (List.length (fst (expandLayer nb cap types layer expanded)) =? 0)%nat
      eqn:E.
    + apply Nat.eqb_eq in E. apply length_zero_iff_nil in E. rewrite E in Hinv.
      rewrite (loopInv_closed (S i) k _ x Hinv).
      now rewrite Nat.add_succ_r.
    + rewrite (IH (S i) _ _ Hinv). now rewrite Nat.add_succ_r.
Qed.

Lemma expandFromSeeds_In (depth : Z) (x : string) :
  In x (expandFromSeeds nb seedIds depth cap types)
  <-> within nb cap types seedIds (Z.to_nat depth) x.
Proof.
  unfold expandFromSeeds.
  now rewrite (expandLoop_within (Z.to_nat depth) 0 _ _ x loopInv_start).
Qed.

End Expansion.

(** X9.  [expandFromSeeds] is a bounded breadth-first search: an identifier
    is returned exactly when it is at most [depth] steps away from a seed,
    a step going from a node to one of the neighbours that the edge-type
    filter and the per-node cap leave in its adjacency list.  The early
    [break] and the order of the traversal do not change the set. *)
Theorem expandFromSeeds_reachable (nb : NetworkBuilder) (seedIds : JsSet)
  (depth maxNeighborsPerNode : Z) (allowedEdgeTypes : list string) (x : string) :
  set_has (expandFromSeeds nb seedIds depth maxNeighborsPerNode allowedEdgeTypes) x
  = true
  <-> within nb maxNeighborsPerNode allowedEdgeTypes seedIds (Z.to_nat depth) x.
Proof. rewrite set_has_In. apply expandFromSeeds_In. Qed.

Lemma within_seeds_incl (nb : NetworkBuilder) (cap : Z) (types : list string)
  (s1 s2 : JsSet) (k : nat) (x : string) :
  incl s1 s2 -> within nb cap types s1 k x -> within nb cap types s2 k x.
Proof.
  intros Hincl. revert x. induction k as [| k IH]; intros x; cbn [within].
  - apply Hincl.
  - intros [H | [y [Hy Hx]]]; [left; auto | right; exists y; auto].
Qed.

(** X10.  More seeds never give less: when every seed of [s1] is a seed of
    [s2], everything that [expandFromSeeds] returns from [s1] it returns
    from [s2], for the same depth, cap and allow-list. *)
Theorem expandFromSeeds_seeds_monotone (nb : NetworkBuilder) (s1 s2 : JsSet)
  (depth maxNeighborsPerNode : Z) (allowedEdgeTypes : list string) (x : string) :
  incl s1 s2 ->
  set_has (expandFromSeeds nb s1 depth maxNeighborsPerNode allowedEdgeTypes) x = true ->
  set_has (expandFromSeeds nb s2 depth maxNeighborsPerNode allowedEdgeTypes) x = true.
Proof.
  rewrite !set_has_In, !expandFromSeeds_In. apply within_seeds_incl.
Qed.

Lemma expandFromSeeds_seeds_monotone_witness :
  set_has (expandFromSeeds Sample.abc ["C"; "A"] 1 0 ["reference"]) "B" = true.
Proof.
  apply (expandFromSeeds_seeds_monotone Sample.abc ["A"] ["C"; "A"] 1 0 ["reference"] "B").
  - intros y [<- | []]. simpl. auto.
  - reflexivity.
Defined.

Lemma within_saturated (nb : NetworkBuilder) (cap : Z) (types : list string)
  (seedIds : JsSet) (k m : nat) (x : string) :
  (forall y, within nb cap types seedIds (S k) y -> within nb cap types seedIds k y) ->
  within nb cap types seedIds (k + m) x -> within nb cap types seedIds k x.
Proof.
  intros Hsat. revert x. induction m as [| m IH]; intros x.
  - now rewrite Nat.add_0_r.
  - rewrite Nat.add_succ_r. cbn [within]. intros [H | [y [Hy Hx]]]; [auto |].
    apply Hsat. right. exists y. auto.
Qed.

(** X11.  Saturation: if one more step beyond the depth [d] adds nothing,
    no greater depth adds anything either. *)
Theorem expandFromSeeds_saturates (nb : NetworkBuilder) (seedIds : JsSet)
  (d j maxNeighborsPerNode : Z) (allowedEdgeTypes : list string) (x : string) :
  0 <= d -> 0 <= j ->
  (forall y,
      set_has (expandFromSeeds nb seedIds (d + 1) maxNeighborsPerNode allowedEdgeTypes) y
      = true ->
      set_has (expandFromSeeds nb seedIds d maxNeighborsPerNode allowedEdgeTypes) y
      = true) ->
  set_has (expandFromSeeds nb seedIds (d + j) maxNeighborsPerNode allowedEdgeTypes) x
  = true ->
  set_has (expandFromSeeds nb seedIds d maxNeighborsPerNode allowedEdgeTypes) x = true.
Proof.
  intros Hd Hj Hsat. rewrite !set_has_In, !expandFromSeeds_In.
  replace (Z.to_nat (d + j)) with (Z.to_nat d + Z.to_nat j)%nat by lia.
  apply within_saturated. intros y Hy.
  apply expandFromSeeds_In. apply set_has_In. apply Hsat.
  apply set_has_In. apply expandFromSeeds_In.
  now replace (Z.to_nat (d + 1)) with (S (Z.to_nat d)) by lia.
Qed.

Lemma expandFromSeeds_saturates_witness :
  set_has (expandFromSeeds Sample.abc ["A"] 2 0 ["reference"; "definition"]) "C" = true.
Proof.
  apply (expandFromSeeds_saturates Sample.abc ["A"] 2 5 0 ["reference"; "definition"] "C");
    [lia | lia | | reflexivity].
  intros y H. apply set_has_In in H. apply set_has_In.
  vm_compute in H. vm_compute. exact H.
Defined.

(** *** Order, duplicates and the seeds *)

Lemma set_add_extends (s : JsSet) (x : string) : exists t, set_add s x = s ++ t.
Proof.
  unfold set_add. destruct (set_has s x).
  - exists []. now rewrite app_nil_r.
  - now exists [x].
Qed.

Lemma fold_visit_extends (ns : list Neighbor) (st : JsSet * JsSet) :
  NoDup (snd st) ->
  NoDup (snd (fold_left visit ns st))
  /\ exists t, snd (fold_left visit ns st) = snd st ++ t.
Proof.
  revert st. induction ns as [| n ns IH]; intros st Hnd; simpl.
  - split; [assumption |]. exists []. now rewrite app_nil_r.
  - assert (Hv : NoDup (snd (visit st n)) /\ exists t, snd (visit st n) = snd st ++ t).
    { unfold visit. destruct (set_has (snd st) (neighborId n)); simpl.
      - split; [assumption |]. exists []. now rewrite app_nil_r.
      - split; [now apply set_add_NoDup | apply set_add_extends]. }
    destruct Hv as [Hnd1 [t1 E1]]. destruct (IH _ Hnd1) as [Hnd2 [t2 E2]].
    split; [assumption |]. exists (t1 ++ t2). rewrite E2, E1. now rewrite app_assoc.
Qed.

Lemma expandLayer_from_extends (nb : NetworkBuilder) (cap : Z) (types : list string)
  (layer : JsSet) (st : JsSet * JsSet) :
  NoDup (snd st) ->
  NoDup (snd (fold_left
                (fun st0 nodeId =>
                   fold_left visit (limitedNeighbors nb cap types nodeId) st0)
                layer st))
  /\ exists t,
       snd (fold_left
              (fun st0 nodeId =>
                 fold_left visit (limitedNeighbors nb cap types nodeId) st0)
              layer st) = snd st ++ t.
Proof.
  revert st. induction layer as [| y layer IH]; intros st Hnd; simpl.
  - split; [assumption |]. exists []. now rewrite app_nil_r.
  - destruct (fold_visit_extends (limitedNeighbors nb cap types y) st Hnd)
      as [Hnd1 [t1 E1]].
    destruct (IH _ Hnd1) as [Hnd2 [t2 E2]].
    split; [assumption |]. exists (t1 ++ t2). rewrite E2, E1. now rewrite app_assoc.
Qed.

Lemma expandLayer_extends (nb : NetworkBuilder) (cap : Z) (types : list string)
  (layer expanded : JsSet) :
  NoDup expanded ->
  NoDup (snd (expandLayer nb cap types layer expanded))
  /\ exists t, snd (expandLayer nb cap types layer expanded) = expanded ++ t.
Proof.
  intros Hnd. apply (expandLayer_from_extends nb cap types layer ([], expanded) Hnd).
Qed.

Lemma expandLoop_extends (nb : NetworkBuilder) (cap : Z) (types : list string)
  (k : nat) (layer expanded : JsSet) :
  NoDup expanded ->
  NoDup (expandLoop nb cap types k layer expanded)
  /\ exists t, expandLoop nb cap types k layer expanded = expanded ++ t.
Proof.
  revert layer expanded. induction k as [| k IH]; intros layer expanded Hnd; simpl.
  - split; [assumption |]. exists []. now rewrite app_nil_r.
  - destruct (expandLayer_extends nb cap types layer expanded Hnd) as [Hnd1 [t1 E1]].
    destruct (List.length (fst (expandLayer nb cap types layer expanded)) =? 0)%nat.
    + split; [assumption |]. now exists t1.
    + destruct (IH (fst (expandLayer nb cap types layer expanded)) _ Hnd1)
        as [Hnd2 [t2 E2]].
      split; [assumption |]. exists (t1 ++ t2). rewrite E2, E1. now rewrite app_assoc.
Qed.

(** X12.  The set returned by [expandFromSeeds] has no duplicate and lists
    the seeds first, in their order, followed by the identifiers reached, in
    the order in which the traversal met them; with a depth of zero or less
    it is the seed set. *)
Theorem expandFromSeeds_seeds_first (nb : NetworkBuilder) (seedIds : JsSet)
  (depth maxNeighborsPerNode : Z) (allowedEdgeTypes : list string) :
  NoDup (expandFromSeeds nb seedIds depth maxNeighborsPerNode allowedEdgeTypes)
  /\ (exists reached,
        expandFromSeeds nb seedIds depth maxNeighborsPerNode allowedEdgeTypes
        = new_Set seedIds ++ reached)
  /\ (depth <= 0 ->
      expandFromSeeds nb seedIds depth maxNeighborsPerNode allowedEdgeTypes
      = new_Set seedIds).
Proof.
  unfold expandFromSeeds.
  destruct (expandLoop_extends nb maxNeighborsPerNode allowedEdgeTypes
              (Z.to_nat depth) (new_Set seedIds) (new_Set seedIds)
              (new_Set_NoDup seedIds)) as [Hnd Hext].
  split; [assumption |]. split; [assumption |].
  intros Hd. now replace (Z.to_nat depth) with O by lia.
Qed.

Lemma expandFromSeeds_seeds_first_witness :
  expandFromSeeds Sample.abc ["B"; "B"; "A"] (-3) 100 [] = ["B"; "A"].
Proof.
  apply (proj2 (proj2 (expandFromSeeds_seeds_first Sample.abc ["B"; "B"; "A"]
                         (-3) 100 []))).
  lia.
Defined.

(** *** The edges that a step follows *)

Lemma limitedNeighbors_In (nb : NetworkBuilder) (cap : Z) (types : list string)
  (y : string) (n : Neighbor) :
  In n (limitedNeighbors nb cap types y) ->
  In n (neighborsOf (adjacencyMap nb) y)
  /\ (types = [] \/ Array_includes types (edgeType n) = true).
Proof.
  unfold limitedNeighbors. cbv zeta. intros H.
  assert (H1 : In n (if (0 <? List.length types)%nat
                     then filter (fun n0 => Array_includes types (edgeType n0))
                            (neighborsOf (adjacencyMap nb) y)
                     else neighborsOf (adjacencyMap nb) y)).
  { destruct (0 <? cap); [now apply slice0_incl in H | assumption]. }
  destruct types as [| t ts]; [simpl in H1; auto |].
  cbn [List.length Nat.ltb Nat.leb] in H1. apply filter_In in H1. tauto.
Qed.

Lemma within_predecessor (nb : NetworkBuilder) (cap : Z) (types : list string)
  (seedIds : JsSet) (k : nat) (x : string) :
  within nb cap types seedIds k x ->
  In x seedIds
  \/ exists y, within nb cap types seedIds k y
               /\ In x (successors nb cap types y).
Proof.
  induction k as [| k IH]; cbn [within]; [tauto |].
  intros [H | [y [Hy Hx]]].
  - destruct (IH H) as [Hs | [y [Hy Hx]]]; [now left |].
    right. exists y. split; [now left | assumption].
  - right. exists y. split; [now left | assumption].
Qed.

(** X13.  Whatever [expandFromSeeds] returns beyond the seeds was reached
    over an entry of the adjacency index: it is the neighbour, in the
    adjacency list of a returned node, of an entry whose edge type is in the
    allow-list (any entry when the allow-list is empty). *)
Theorem expandFromSeeds_follows_allowed_edges (nb : NetworkBuilder)
  (seedIds : JsSet) (depth maxNeighborsPerNode : Z)
  (allowedEdgeTypes : list string) (x : string) :
  set_has (expandFromSeeds nb seedIds depth maxNeighborsPerNode allowedEdgeTypes) x
  = true ->
  In x seedIds
  \/ exists y n,
       set_has (expandFromSeeds nb seedIds depth maxNeighborsPerNode allowedEdgeTypes) y
       = true
       /\ In n (neighborsOf (adjacencyMap nb) y)
       /\ neighborId n = x
       /\ (allowedEdgeTypes = []
           \/ Array_includes allowedEdgeTypes (edgeType n) = true).
Proof.
  rewrite set_has_In, expandFromSeeds_In. intros H.
  apply within_predecessor in H. destruct H as [H | [y [Hy Hx]]]; [now left |].
  right. unfold successors in Hx. apply in_map_iff in Hx.
  destruct Hx as [n [Hn Hin]]. apply limitedNeighbors_In in Hin.
  exists y, n. rewrite set_has_In, expandFromSeeds_In. tauto.
Qed.

Lemma expandFromSeeds_follows_allowed_edges_witness :
  In "C" ["B"]
  \/ exists y n,
       set_has (expandFromSeeds Sample.abc ["B"] 1 0 ["definition"]) y = true
       /\ In n (neighborsOf (adjacencyMap Sample.abc) y)
       /\ neighborId n = "C"
       /\ (["definition"] = []
           \/ Array_includes ["definition"] (edgeType n) = true).
Proof.
  apply (expandFromSeeds_follows_allowed_edges Sample.abc ["B"] 1 0 ["definition"] "C").
  reflexivity.
Defined.

(** *** The fan-out cap bounds the result *)

Lemma set_add_length (s : JsSet) (x : string) :
  (List.length (set_add s x) <= S (List.length s))%nat.
Proof.
  unfold set_add. destruct (set_has s x); [lia |]. rewrite length_app. simpl. lia.
Qed.

Lemma fold_visit_length (ns : list Neighbor) (st : JsSet * JsSet) :
  (List.length (fst (fold_left visit ns st)) <= List.length (fst st) + List.length ns
   /\ List.length (snd (fold_left visit ns st))
      <= List.length (snd st) + List.length ns)%nat.
Proof.
  revert st. induction ns as [| n ns IH]; intros st; simpl; [lia |].
  destruct (IH (visit st n)) as [H1 H2].
  assert (Hv : (List.length (fst (visit st n)) <= S (List.length (fst st))
                /\ List.length (snd (visit st n)) <= S (List.length (snd st)))%nat).
  { unfold visit. destruct (set_has (snd st) (neighborId n)); simpl; [lia |].
    split; apply set_add_length. }
  lia.
Qed.

Lemma limitedNeighbors_length (nb : NetworkBuilder) (cap : Z) (types : list string)
  (y : string) :
  0 < cap ->
  (List.length (limitedNeighbors nb cap types y) <= Z.to_nat cap)%nat.
Proof.
  intros Hc. unfold limitedNeighbors. cbv zeta.
  destruct (Z.ltb_spec 0 cap); [| lia].
  rewrite slice0_firstn by lia. apply firstn_le_length.
Qed.

Lemma expandLayer_from_length (nb : NetworkBuilder) (cap : Z) (types : list string)
  (layer : JsSet) (st : JsSet * JsSet) :
  0 < cap ->
  (List.length (fst (fold_left
                       (fun st0 nodeId =>
                          fold_left visit (limitedNeighbors nb cap types nodeId) st0)
                       layer st))
   <= List.length (fst st) + Z.to_nat cap * List.length layer
   /\ List.length (snd (fold_left
                          (fun st0 nodeId =>
                             fold_left visit (limitedNeighbors nb cap types nodeId) st0)
                          layer st))
      <= List.length (snd st) + Z.to_nat cap * List.length layer)%nat.
Proof.
  intros Hc. revert st. induction layer as [| y layer IH]; intros st; simpl; [lia |].
  destruct (IH (fold_left visit (limitedNeighbors nb cap types y) st)) as [H1 H2].
  destruct (fold_visit_length (limitedNeighbors nb cap types y) st) as [V1 V2].
  pose proof (limitedNeighbors_length nb cap types y Hc). nia.
Qed.

Lemma expandLoop_length (nb : NetworkBuilder) (cap : Z) (types : list string)
  (k : nat) (layer expanded : JsSet) :
  0 < cap ->
  (List.length (expandLoop nb cap types k layer expanded)
   <= List.length expanded + List.length layer * hopBudget (Z.to_nat cap) k)%nat.
Proof.
  intros Hc. revert layer expanded.
  induction k as [| k IH]; intros layer expanded; cbn [expandLoop hopBudget]; [lia |].
  cbv zeta.
  destruct (expandLayer_from_length nb cap types layer ([], expanded) Hc) as [L1 L2].
  fold (expandLayer nb cap types layer expanded) in L1, L2. cbn [fst snd] in L1, L2.
  simpl List.length in L1.
  set (c := Z.to_nat cap) in *.
  set (h := hopBudget c k) in *.
  destruct (List.length (fst (expandLayer nb cap types layer expanded)) =? 0)%nat.
  - nia.
  - specialize (IH (fst (expandLayer nb cap types layer expanded))
                  (snd (expandLayer nb cap types layer expanded))).
    nia.
Qed.

(** X14.  With a positive cap [c] on the neighbours taken per node, a
    depth of [d] adds at most c + c^2 + ... + c^d identifiers per seed: the
    result has at most [|seeds| * (1 + c + ... + c^d)] elements. *)
Theorem expandFromSeeds_size_bound (nb : NetworkBuilder) (seedIds : JsSet)
  (depth maxNeighborsPerNode : Z) (allowedEdgeTypes : list string) :
  0 < maxNeighborsPerNode ->
  (List.length (expandFromSeeds nb seedIds depth maxNeighborsPerNode allowedEdgeTypes)
   <= List.length (new_Set seedIds)
      * (1 + hopBudget (Z.to_nat maxNeighborsPerNode) (Z.to_nat depth)))%nat.
Proof.
  intros Hc. unfold expandFromSeeds.
  pose proof (expandLoop_length nb maxNeighborsPerNode allowedEdgeTypes
                (Z.to_nat depth) (new_Set seedIds) (new_Set seedIds) Hc).
  nia.
Qed.

Lemma expandFromSeeds_size_bound_witness :
  (List.length (expandFromSeeds Sample.star ["A"] 1 2 [])
   <= List.length (new_Set ["A"]) * (1 + hopBudget (Z.to_nat 2) (Z.to_nat 1)))%nat.
Proof.
  apply (expandFromSeeds_size_bound Sample.star ["A"] 1 2 []). lia.
Defined.

(** ** Ranking *)

Section SortByKey.

Context {A : Type} (key : A -> Z).

Lemma sort_insert_In (x y : A) (l : list A) :
  In y (sort_insert (fun a b => key b - key a) x l) <-> y = x \/ In y l.
Proof.
  induction l as [| z l IH]; simpl.
  - intuition congruence.
  - destruct (key z - key x <=? 0); simpl; [intuition congruence |].
    rewrite IH. tauto.
Qed.

Lemma sort_insert_sorted (x : A) (l : list A) :
  StronglySorted (fun a b => key b <= key a) l ->
  StronglySorted (fun a b => key b <= key a)
    (sort_insert (fun a b => key b - key a) x l).
Proof.
  induction 1 as [| z l Hs IH Hall]; simpl.
  - repeat constructor.
  - destruct (Z.leb_spec (key z - key x) 0) as [Hle | Hgt].
    + constructor; [now constructor |].
      constructor; [lia |]. rewrite Forall_forall in *. intros b Hb.
      specialize (Hall b Hb). simpl in Hall. lia.
    + constructor; [assumption |]. rewrite Forall_forall in *.
      intros b Hb. apply sort_insert_In in Hb. destruct Hb as [-> | Hb].
      * lia.
      * now apply Hall.
Qed.

Lemma sort_sorted (l : list A) :
  StronglySorted (fun a b => key b <= key a) (Js.sort (fun a b => key b - key a) l).
Proof.
  induction l as [| x l IH]; simpl; [constructor | now apply sort_insert_sorted].
Qed.

Lemma sorted_app_order (l1 l2 : list A) (a b : A) :
  StronglySorted (fun a b => key b <= key a) (l1 ++ l2) ->
  In a l1 -> In b l2 -> key b <= key a.
Proof.
  induction l1 as [| c l1 IH]; simpl; intros Hs Ha Hb; [contradiction |].
  inversion Hs as [| ? ? Hs' Hall]; subst. destruct Ha as [-> | Ha].
  - rewrite Forall_forall in Hall. apply Hall. apply in_or_app. now right.
  - now apply IH.
Qed.

Lemma sorted_app_left (l1 l2 : list A) :
  StronglySorted (fun a b => key b <= key a) (l1 ++ l2) ->
  StronglySorted (fun a b => key b <= key a) l1.
Proof.
  induction l1 as [| c l1 IH]; simpl; intros Hs; [constructor |].
  inversion Hs as [| ? ? Hs' Hall]; subst. constructor; [now apply IH |].
  rewrite Forall_forall in *. intros b Hb. apply Hall. apply in_or_app. now left.
Qed.

Lemma sort_insert_stable (k : Z) (x : A) (l : list A) :
  filter (fun a => key a =? k) (sort_insert (fun a b => key b - key a) x l)
  = filter (fun a => key a =? k) (x :: l).
Proof.
  induction l as [| z l IH]; [reflexivity |].
  cbn [sort_insert]. destruct (Z.leb_spec (key z - key x) 0) as [Hle | Hgt];
    [reflexivity |].
  cbn [filter] in *. rewrite IH.
  destruct (Z.eqb_spec (key z) k), (Z.eqb_spec (key x) k); try reflexivity. lia.
Qed.

Lemma sort_stable (k : Z) (l : list A) :
  filter (fun a => key a =? k) (Js.sort (fun a b => key b - key a) l)
  = filter (fun a => key a =? k) l.
Proof.
  induction l as [| x l IH]; [reflexivity |].
  cbn [Js.sort]. rewrite sort_insert_stable. cbn [filter]. now rewrite IH.
Qed.

Lemma slice0_is_firstn (l : list A) (n : Z) : exists m, slice0 l n = firstn m l.
Proof. unfold slice0. destruct (n <? 0); eexists; reflexivity. Qed.

Lemma top_by_key (l : list A) (n : Z) (a b : A) :
  In a (slice0 (Js.sort (fun a b => key b - key a) l) n) -> In b l ->
  ~ In b (slice0 (Js.sort (fun a b => key b - key a) l) n) -> key b <= key a.
Proof.
  destruct (slice0_is_firstn (Js.sort (fun a b => key b - key a) l) n) as [m ->].
  intros Ha Hb Hnb.
  apply (sorted_app_order (firstn m (Js.sort (fun a b => key b - key a) l))
           (skipn m (Js.sort (fun a b => key b - key a) l))).
  - rewrite firstn_skipn. apply sort_sorted.
  - assumption.
  - assert (Hs : In b (Js.sort (fun a b => key b - key a) l))
      by (eapply Permutation_in; [apply Permutation_sym, sort_perm | assumption]).
    rewrite <- (firstn_skipn m) in Hs. apply in_app_or in Hs. tauto.
Qed.

Lemma top_by_key_sorted (l : list A) (n : Z) :
  StronglySorted (fun a b => key b <= key a)
    (slice0 (Js.sort (fun a b => key b - key a) l) n).
Proof.
  destruct (slice0_is_firstn (Js.sort (fun a b => key b - key a) l) n) as [m ->].
  apply (sorted_app_left _ (skipn m (Js.sort (fun a b => key b - key a) l))).
  rewrite firstn_skipn. apply sort_sorted.
Qed.

Lemma top_by_key_stable (l : list A) (n k : Z) :
  exists rest,
    filter (fun a => key a =? k) l
    = filter (fun a => key a =? k)
        (slice0 (Js.sort (fun a b => key b - key a) l) n) ++ rest.
Proof.
  destruct (slice0_is_firstn (Js.sort (fun a b => key b - key a) l) n) as [m ->].
  exists (filter (fun a => key a =? k)
            (skipn m (Js.sort (fun a b => key b - key a) l))).
  now rewrite <- filter_app, firstn_skipn, sort_stable.
Qed.

End SortByKey.

Lemma degree_table (f : string -> Z) (ids : list string) (m : JsMap Z) :
  NoDup (map_keys m ++ ids) ->
  fold_left (fun m' x => map_set m' x (f x)) ids m
  = m ++ map (fun x => (x, f x)) ids.
Proof.
  revert m. induction ids as [| x ids IH]; intros m H; simpl.
  - now rewrite app_nil_r.
  - assert (E : map_set m x (f x) = m ++ [(x, f x)]).
    { apply map_set_length_new. destruct (map_has m x) eqn:Eh; [| reflexivity].
      apply map_has_keys in Eh. apply NoDup_remove_2 in H.
      exfalso. apply H. apply in_or_app. now left. }
    rewrite E, IH.
    + now rewrite <- app_assoc.
    + unfold map_keys. rewrite map_app, <- app_assoc. exact H.
Qed.

Lemma selectTopNodesByDegree_table (nb : NetworkBuilder) (ids : JsSet) (n : Z) :
  NoDup ids ->
  selectTopNodesByDegree nb ids n
  = map fst (slice0 (Js.sort (fun a b : string * Z => snd b - snd a)
                       (map (fun x => (x, adjacencyDegree nb x)) ids)) n).
Proof.
  intros Hnd. unfold selectTopNodesByDegree. cbv zeta.
  pose proof (degree_table (adjacencyDegree nb) ids [] Hnd) as E.
  unfold adjacencyDegree in *. simpl in E. now rewrite E.
Qed.

Lemma top_table_entries (f : string -> Z) (ids : list string) (n : Z)
  (p : string * Z) :
  In p (slice0 (Js.sort (fun a b : string * Z => snd b - snd a)
                  (map (fun x => (x, f x)) ids)) n) ->
  In (fst p) ids /\ snd p = f (fst p).
Proof.
  intros H. apply slice0_incl in H.
  apply (Permutation_in _ (sort_perm _ _)) in H.
  apply in_map_iff in H. destruct H as [x [<- Hx]]. simpl. auto.
Qed.

Lemma selectTopNodesByDegree_dominates (nb : NetworkBuilder) (ids : JsSet) (n : Z)
  (x y : string) :
  NoDup ids ->
  In x (selectTopNodesByDegree nb ids n) -> In y ids ->
  ~ In y (selectTopNodesByDegree nb ids n) ->
  adjacencyDegree nb y <= adjacencyDegree nb x.
Proof.
  intros Hnd Hx Hy Hny. rewrite selectTopNodesByDegree_table in Hx, Hny by assumption.
  apply in_map_iff in Hx. destruct Hx as [p [Hp Hin]].
  destruct (top_table_entries _ _ _ _ Hin) as [_ Hsnd]. rewrite Hp in Hsnd.
  rewrite <- Hsnd.
  change (adjacencyDegree nb y) with (snd (y, adjacencyDegree nb y)).
  apply (top_by_key snd (map (fun x => (x, adjacencyDegree nb x)) ids) n).
  - assumption.
  - apply in_map_iff. exists y. auto.
  - intros Hc. apply Hny. apply in_map_iff. exists (y, adjacencyDegree nb y). auto.
Qed.

Lemma StronglySorted_map {A B : Type} (R : A -> A -> Prop) (R' : B -> B -> Prop)
  (g : A -> B) (l : list A) :
  (forall a b, In a l -> In b l -> R a b -> R' (g a) (g b)) ->
  StronglySorted R l -> StronglySorted R' (map g l).
Proof.
  intros Hg Hs. induction Hs as [| a l Hs IH Hall]; simpl; [constructor |].
  constructor.
  - apply IH. intros x y Hx Hy. apply Hg; now right.
  - rewrite Forall_forall in *. intros b Hb. apply in_map_iff in Hb.
    destruct Hb as [c [<- Hc]]. apply Hg; [now left | now right | now apply Hall].
Qed.

Lemma filter_map_fst (f : string -> Z) (k : Z) (l : list (string * Z)) :
  (forall p, In p l -> snd p = f (fst p)) ->
  filter (fun x => f x =? k) (map fst l)
  = map fst (filter (fun p => snd p =? k) l).
Proof.
  induction l as [| p l IH]; simpl; intros H; [reflexivity |].
  rewrite <- (H p (or_introl eq_refl)).
  rewrite IH by (intros q Hq; apply H; now right).
  destruct (snd p =? k); reflexivity.
Qed.

(** X15.  [selectTopNodesByDegree], on a set of identifiers and a
    non-negative [maxNodes]: it returns [min maxNodes |set|] distinct
    identifiers of the set, in descending order of adjacency degree; no
    identifier left out has a greater degree than one returned; and the
    identifiers kept for a degree are the first ones of that degree in the
    set's order (the sort is stable). *)
Theorem selectTopNodesByDegree_ranking (nb : NetworkBuilder) (nodeIds : JsSet)
  (maxNodes : Z) :
  NoDup nodeIds -> 0 <= maxNodes ->
  NoDup (selectTopNodesByDegree nb nodeIds maxNodes)
  /\ incl (selectTopNodesByDegree nb nodeIds maxNodes) nodeIds
  /\ Z.of_nat (List.length (selectTopNodesByDegree nb nodeIds maxNodes))
     = Z.min maxNodes (Z.of_nat (List.length nodeIds))
  /\ StronglySorted (fun a b => adjacencyDegree nb b <= adjacencyDegree nb a)
       (selectTopNodesByDegree nb nodeIds maxNodes)
  /\ (forall x y, In x (selectTopNodesByDegree nb nodeIds maxNodes) ->
                  In y nodeIds ->
                  ~ In y (selectTopNodesByDegree nb nodeIds maxNodes) ->
                  adjacencyDegree nb y <= adjacencyDegree nb x)
  /\ (forall k, exists rest,
        filter (fun x => adjacencyDegree nb x =? k) nodeIds
        = filter (fun x => adjacencyDegree nb x =? k)
            (selectTopNodesByDegree nb nodeIds maxNodes) ++ rest).
Proof.
  intros Hnd Hmax.
  destruct (selectTopNodesByDegree_perm nb nodeIds maxNodes Hnd) as [sorted [Hp He]].
  assert (Hs : NoDup sorted)
    by (eapply Permutation_NoDup; [apply Permutation_sym; eassumption | assumption]).
  split; [rewrite He; now apply slice0_NoDup |].
  split.
  { rewrite He. intros x Hx. apply slice0_incl in Hx.
    eapply Permutation_in; eassumption. }
  split.
  { rewrite He, slice0_firstn by assumption. rewrite length_firstn.
    rewrite (Permutation_length Hp). lia. }
  split.
  { rewrite selectTopNodesByDegree_table by assumption.
    eapply StronglySorted_map; [| apply (top_by_key_sorted snd)].
    intros a b Ha Hb Hab.
    destruct (top_table_entries _ _ _ _ Ha) as [_ Ea].
    destruct (top_table_entries _ _ _ _ Hb) as [_ Eb]. simpl in Hab. congruence. }
  split.
  { intros x y. now apply selectTopNodesByDegree_dominates. }
  intros k. rewrite selectTopNodesByDegree_table by assumption.
  destruct (top_by_key_stable snd
              (map (fun x => (x, adjacencyDegree nb x)) nodeIds) maxNodes k)
    as [rest Hrest].
  exists (map fst rest).
  rewrite (filter_map_fst (adjacencyDegree nb) k)
    by (intros p Hp'; now destruct (top_table_entries _ _ _ _ Hp')).
  rewrite <- map_app, <- Hrest.
  rewrite <- (filter_map_fst (adjacencyDegree nb) k).
  - now rewrite map_map, map_id.
  - intros p Hp'. apply in_map_iff in Hp'. destruct Hp' as [x [<- _]]. reflexivity.
Qed.

Lemma selectTopNodesByDegree_ranking_witness :
  selectTopNodesByDegree Sample.abc ["A"; "B"; "C"] 2 = ["B"; "A"]
  /\ Z.of_nat (List.length (selectTopNodesByDegree Sample.abc ["A"; "B"; "C"] 2))
     = Z.min 2 (Z.of_nat (List.length ["A"; "B"; "C"])).
Proof.
  split; [reflexivity |].
  apply (selectTopNodesByDegree_ranking Sample.abc ["A"; "B"; "C"] 2).
  - repeat constructor; simpl; intuition discriminate.
  - lia.
Defined.

Lemma finalNodeIds_dominates (nb : NetworkBuilder) (state : NetworkBuilderState)
  (mode : RankingMode) (clinks : list GraphLink) (connected : JsSet) (x y : string) :
  NoDup connected ->
  (forall z, In z connected -> hasIncidentLink z clinks = true) ->
  isTruncated state connected = true ->
  In x (finalNodeIds nb state mode clinks connected) -> In y connected ->
  ~ In y (finalNodeIds nb state mode clinks connected) ->
  match mode with
  | RankGlobal => adjacencyDegree nb y <= adjacencyDegree nb x
  | RankSubgraph => degreeIn y clinks <= degreeIn x clinks
  end.
Proof.
  intros Hnd Hinc Ht. unfold finalNodeIds. rewrite Ht. destruct mode.
  - assert (Hsel : NoDup (selectTopNodesByDegree nb connected (maxTotalNodes state))).
    { destruct (selectTopNodesByDegree_perm nb connected (maxTotalNodes state) Hnd)
        as [sorted [Hp He]]. rewrite He. apply slice0_NoDup.
      eapply Permutation_NoDup; [apply Permutation_sym; eassumption | assumption]. }
    rewrite (new_Set_id _ Hsel). now apply selectTopNodesByDegree_dominates.
  - cbv zeta. rewrite filter_all
      by (intros z Hz; rewrite countDegrees_has; now apply Hinc).
    assert (Hs : NoDup (slice0
              (Js.sort (fun a b => degreeOf (countDegrees clinks) b
                                   - degreeOf (countDegrees clinks) a) connected)
              (maxTotalNodes state))).
    { apply slice0_NoDup.
      eapply Permutation_NoDup; [apply Permutation_sym, sort_perm | assumption]. }
    rewrite (new_Set_id _ Hs). intros Hx Hy Hny.
    rewrite <- !countDegrees_degreeIn.
    now apply (top_by_key (degreeOf (countDegrees clinks)) connected
                 (maxTotalNodes state)).
Qed.

(** X16.  What truncation keeps.  In a truncated result no connected
    identifier that was left out has a greater ranking degree than a
    returned node: the adjacency degree in global mode, the degree in the
    links of step 4 in subgraph mode. *)
Theorem buildNetwork_keeps_highest_degrees (nb : NetworkBuilder)
  (state : NetworkBuilderState) (searchLogic : SearchLogic)
  (nodeRankingMode : RankingMode) (node : GraphNode) (y : string) :
  truncated (fst (buildNetwork nb state searchLogic nodeRankingMode)) = true ->
  In node (nodes (fst (buildNetwork nb state searchLogic nodeRankingMode))) ->
  In y (connectedIdsOf nb state searchLogic) ->
  ~ In y (map id (nodes (fst (buildNetwork nb state searchLogic nodeRankingMode)))) ->
  rankDegree nb state searchLogic nodeRankingMode y
  <= rankDegree nb state searchLogic nodeRankingMode (id node).
Proof.
  unfold buildNetwork, connectedIdsOf, rankDegree, candidateLinksOf.
  destruct (candidateIds nb state searchLogic) as [c |] eqn:Ec; [| simpl; discriminate].
  intros Ht Hin Hy Hny. apply (in_map id) in Hin.
  rewrite assemble_node_ids in Hin, Hny. unfold assemble in Ht. cbv zeta in Ht.
  cbn [fst truncated] in Ht.
  set (cmap := candidateNodeMap nb c) in *.
  set (clinks := candidateLinks nb state cmap) in *.
  set (connected := connectedNodeIds state cmap clinks) in *.
  set (final := finalNodeIds nb state nodeRankingMode clinks connected) in *.
  assert (Hnd : NoDup connected) by apply new_Set_NoDup.
  assert (Hinc : forall x, In x connected -> hasIncidentLink x clinks = true).
  { intros x Hx. eapply connected_incident. exact Hx. }
  destruct (finalNodeIds_facts nb state nodeRankingMode clinks connected Hnd Hinc)
    as [_ [Hfincl _]].
  fold final in Hfincl.
  assert (Hkeys : forall k, In k (map_keys (selectedNodeMap nb state final))
                            <-> In k final).
  { intros k. now apply (selectedNodeMap_keys nb state c clinks). }
  rewrite Hkeys in Hin, Hny.
  pose proof (finalNodeIds_dominates nb state nodeRankingMode clinks connected
                (id node) y Hnd Hinc Ht Hin Hy Hny) as Hd.
  destruct nodeRankingMode; exact Hd.
Qed.

Lemma buildNetwork_keeps_highest_degrees_witness :
  rankDegree Sample.star (Sample.query [] [] [] ["reference"; "hierarchy"] 0 1)
    OR RankGlobal "D"
  <= rankDegree Sample.star (Sample.query [] [] [] ["reference"; "hierarchy"] 0 1)
       OR RankGlobal "A".
Proof.
  apply (buildNetwork_keeps_highest_degrees Sample.star
           (Sample.query [] [] [] ["reference"; "hierarchy"] 0 1) OR RankGlobal
           (assignColor (assignVal (Sample.node "A" "A" "section") 1)
              "rgb(65, 55, 143)") "D").
  - reflexivity.
  - vm_compute. left. reflexivity.
  - vm_compute. right. right. right. left. reflexivity.
  - vm_compute. intros [H | []]. discriminate.
Defined.

(** ** The shape of the result *)

Lemma filter_filter_and {A : Type} (p q : A -> bool) (l : list A) :
  filter p (filter q l) = filter (fun x => (q x && p x)%bool) l.
Proof.
  induction l as [| a l IH]; simpl; [reflexivity |].
  destruct (q a); simpl; [destruct (p a) |]; now rewrite IH.
Qed.

Lemma set_has_map_keys {V : Type} (m : JsMap V) (k : string) :
  set_has (map_keys m) k = map_has m k.
Proof. apply eq_true_iff_eq. now rewrite set_has_In, map_has_keys. Qed.

(** What [assemble] selects: the final identifiers are connected
    candidates, and the keys of [selectedNodeMap] are the final
    identifiers. *)
Lemma assemble_selection (nb : NetworkBuilder) (state : NetworkBuilderState)
  (mode : RankingMode) (c : JsSet) (k : string) :
  In k (map id (nodes (fst (assemble nb state mode c)))) ->
  connectedAndTyped state (candidateNodeMap nb c)
    (candidateLinks nb state (candidateNodeMap nb c)) k = true.
Proof.
  rewrite assemble_node_ids.
  set (cmap := candidateNodeMap nb c).
  set (clinks := candidateLinks nb state cmap).
  set (connected := connectedNodeIds state cmap clinks).
  assert (Hnd : NoDup connected) by apply new_Set_NoDup.
  assert (Hinc : forall x, In x connected -> hasIncidentLink x clinks = true).
  { intros x Hx. eapply connected_incident. exact Hx. }
  destruct (finalNodeIds_facts nb state mode clinks connected Hnd Hinc)
    as [_ [Hfincl _]].
  rewrite (selectedNodeMap_keys nb state c clinks _ k Hfincl).
  intros H. apply Hfincl in H. now apply connectedNodeIds_In in H.
Qed.

Lemma connectedAndTyped_has (state : NetworkBuilderState) (m : JsMap NodeRef)
  (clinks : list GraphLink) (k : string) :
  connectedAndTyped state m clinks k = true -> map_has m k = true.
Proof.
  unfold connectedAndTyped, map_has. now destruct (map_get m k).
Qed.

(** X17.  The returned links are the induced subgraph: exactly the
    snapshot links of an allowed edge type whose two ends are identifiers
    of returned nodes, in snapshot order, each copied into a fresh link
    with string ends. *)
Theorem buildNetwork_links_induced (nb : NetworkBuilder)
  (state : NetworkBuilderState) (searchLogic : SearchLogic)
  (nodeRankingMode : RankingMode) :
  links (fst (buildNetwork nb state searchLogic nodeRankingMode))
  = map freshLink
      (filter
         (fun link =>
            (edgeTypeMatch state link
             && set_has (map id (nodes (fst (buildNetwork nb state searchLogic
                                               nodeRankingMode))))
                  (sourceId link)
             && set_has (map id (nodes (fst (buildNetwork nb state searchLogic
                                               nodeRankingMode))))
                  (targetId link))%bool)
         (allLinks nb)).
Proof.
  unfold buildNetwork.
  destruct (candidateIds nb state searchLogic) as [c |].
  - pose proof (assemble_selection nb state nodeRankingMode c) as Hsel.
    rewrite assemble_node_ids in *. unfold assemble. cbv zeta. cbn [fst links].
    unfold finalLinks, candidateLinks. rewrite filter_filter_and. f_equal.
    apply filter_ext_in. intros l _. rewrite !set_has_map_keys.
    destruct (edgeTypeMatch state l); [| reflexivity]. cbn [andb].
    match goal with
    | |- context [map_has (selectedNodeMap nb state ?f) (sourceId l)] =>
        set (smap := selectedNodeMap nb state f) in *
    end.
    destruct (map_has smap (sourceId l)) eqn:Es.
    + apply map_has_keys, Hsel, connectedAndTyped_has in Es. rewrite Es. cbn [andb].
      destruct (map_has smap (targetId l)) eqn:Et; [| apply andb_false_r].
      apply map_has_keys, Hsel, connectedAndTyped_has in Et. now rewrite Et.
    + cbn [andb]. apply andb_false_r.
  - simpl. rewrite filter_none; [reflexivity |].
    intros l _. now rewrite andb_false_r.
Qed.

(** X18.  With an empty edge-type allow-list [buildNetwork] returns
    nothing, searching or not: no link passes step 4, so no candidate is
    connected. *)
Theorem buildNetwork_empty_edge_types (nb : NetworkBuilder)
  (state : NetworkBuilderState) (searchLogic : SearchLogic)
  (nodeRankingMode : RankingMode) :
  allowedEdgeTypes state = [] ->
  nodes (fst (buildNetwork nb state searchLogic nodeRankingMode)) = []
  /\ links (fst (buildNetwork nb state searchLogic nodeRankingMode)) = []
  /\ matchedCount (fst (buildNetwork nb state searchLogic nodeRankingMode)) = 0%nat.
Proof.
  intros He. unfold buildNetwork.
  destruct (candidateIds nb state searchLogic) as [c |]; [| simpl; auto].
  assert (Hcl : candidateLinks nb state (candidateNodeMap nb c) = []).
  { unfold candidateLinks. apply filter_none. intros l _.
    unfold edgeTypeMatch. now rewrite He. }
  assert (Hnodes : nodes (fst (assemble nb state nodeRankingMode c)) = []).
  { destruct (nodes (fst (assemble nb state nodeRankingMode c))) as [| n ns] eqn:En;
      [reflexivity |].
    pose proof (assemble_selection nb state nodeRankingMode c (id n)) as Hsel.
    rewrite En in Hsel. specialize (Hsel (or_introl eq_refl)).
    rewrite Hcl in Hsel. unfold connectedAndTyped in Hsel.
    destruct (map_get (candidateNodeMap nb c) (id n)); discriminate. }
  split; [exact Hnodes |]. unfold assemble in *. cbv zeta in *. cbn [fst links matchedCount].
  rewrite Hcl. split; [reflexivity |].
  rewrite connectedNodeIds_filter
    by (apply candidateNodeMap_keyed || apply candidateNodeMap_NoDup).
  rewrite filter_none; [reflexivity |].
  intros k _. unfold connectedAndTyped.
  now destruct (map_get (candidateNodeMap nb c) k).
Qed.

Lemma buildNetwork_empty_edge_types_witness :
  nodes (fst (buildNetwork Sample.abc (Sample.query ["B"] ["entity"] allNodeTypes [] 2 10)
                AND RankSubgraph)) = [].
Proof.
  apply (buildNetwork_empty_edge_types Sample.abc
           (Sample.query ["B"] ["entity"] allNodeTypes [] 2 10) AND RankSubgraph).
  reflexivity.
Defined.

Lemma paint_In_shape (d : JsMap Z) (rs : list NodeRef) (node : GraphNode) :
  In node (map snd (paint d rs)) ->
  exists r v c, In r rs /\ node = assignColor (assignVal (snd r) v) c.
Proof.
  unfold paint. rewrite !map_map. intros H. apply in_map_iff in H.
  destruct H as [r [<- Hr]]. eexists r, _, _. split; [assumption | reflexivity].
Qed.

Lemma combine_seq_snd (l : list GraphNode) (a : nat) :
  map snd (combine (seq a (List.length l)) l) = l.
Proof.
  revert a. induction l as [| x l IH]; intros a; simpl; [reflexivity |].
  now rewrite IH.
Qed.

Lemma nodeRefs_snd (nb : NetworkBuilder) : map snd (nodeRefs nb) = allNodes nb.
Proof. apply combine_seq_snd. Qed.

Lemma nodeRefs_ids (nb : NetworkBuilder) :
  map (fun r : NodeRef => id (snd r)) (nodeRefs nb) = map id (allNodes nb).
Proof.
  pose proof (nodeRefs_snd nb) as E. rewrite <- E. now rewrite map_map.
Qed.

Lemma collect_distinct (keep : NodeRef -> bool) (rs : list NodeRef)
  (m : JsMap NodeRef) :
  NoDup (map_keys m ++ map (fun r : NodeRef => id (snd r)) rs) ->
  collect keep rs m
  = m ++ map (fun r : NodeRef => (id (snd r), r)) (filter keep rs).
Proof.
  unfold collect. revert m. induction rs as [| r rs IH]; intros m H; simpl.
  - now rewrite app_nil_r.
  - simpl in H. destruct (keep r).
    + assert (E : map_set m (id (snd r)) r = m ++ [(id (snd r), r)]).
      { apply map_set_length_new. destruct (map_has m (id (snd r))) eqn:Eh;
          [| reflexivity].
        apply map_has_keys in Eh. apply NoDup_remove_2 in H.
        exfalso. apply H. apply in_or_app. now left. }
      rewrite E, IH.
      * simpl. now rewrite <- app_assoc.
      * unfold map_keys. rewrite map_app, <- app_assoc. exact H.
    + apply IH. now apply NoDup_remove_1 in H.
Qed.

Lemma map_snd_filter {A B : Type} (p : B -> bool) (l : list (A * B)) :
  map snd (filter (fun r => p (snd r)) l) = filter p (map snd l).
Proof.
  induction l as [| a l IH]; simpl; [reflexivity |].
  destruct (p (snd a)); simpl; now rewrite IH.
Qed.

Lemma paint_stable_values (d : JsMap Z) (rs : list NodeRef) :
  map stable (map snd (paint d rs)) = map stable (map snd rs).
Proof. unfold paint. rewrite !map_map. reflexivity. Qed.

(** X19.  The returned nodes.  Their identifiers are distinct; each is a
    node of the snapshot that passes the node-type filter, with [val],
    [totalVal], [color] and [baseColor] overwritten ([totalVal] equal to
    [val], [baseColor] to [color]) and every other property as in the
    snapshot.  On a snapshot with unique identifiers they come in snapshot
    order, whatever the ranking mode. *)
Theorem buildNetwork_nodes_shape (nb : NetworkBuilder)
  (state : NetworkBuilderState) (searchLogic : SearchLogic)
  (nodeRankingMode : RankingMode) :
  NoDup (map id (nodes (fst (buildNetwork nb state searchLogic nodeRankingMode))))
  /\ (forall node,
        In node (nodes (fst (buildNetwork nb state searchLogic nodeRankingMode))) ->
        typeMatch state node = true
        /\ totalVal node = val node
        /\ baseColor node = color node
        /\ color node <> None
        /\ exists n0, In n0 (allNodes nb) /\ stable node = stable n0)
  /\ (NoDup (map id (allNodes nb)) ->
      map stable (nodes (fst (buildNetwork nb state searchLogic nodeRankingMode)))
      = map stable
          (filter
             (fun n => set_has
                         (map id (nodes (fst (buildNetwork nb state searchLogic
                                                nodeRankingMode)))) (id n))
             (allNodes nb))).
Proof.
  unfold buildNetwork.
  destruct (candidateIds nb state searchLogic) as [c |].
  2:{ simpl. split; [constructor |]. split; [tauto |].
      intros _. rewrite filter_none; [reflexivity | reflexivity]. }
  rewrite assemble_node_ids.
  set (final := finalNodeIds nb state nodeRankingMode _ _).
  split; [| split].
  - rewrite selectedNodeMap_collect. apply (collect_keys_NoDup _ _ []). constructor.
  - unfold assemble. cbv zeta. cbn [fst nodes]. fold final.
    intros node Hin. apply paint_In_shape in Hin.
    destruct Hin as [r [v [col [Hr ->]]]].
    unfold map_values in Hr. apply in_map_iff in Hr.
    destruct Hr as [[k r'] [Heq Hkv]]. simpl in Heq. subst r'.
    rewrite selectedNodeMap_collect in Hkv. apply collect_In in Hkv.
    destruct Hkv as [[] | [Hin Hkeep]]. simpl in Hin, Hkeep.
    apply andb_true_iff in Hkeep. destruct Hkeep as [_ Htm].
    split; [exact Htm |]. split; [reflexivity |]. split; [reflexivity |].
    split; [discriminate |]. exists (snd r). split; [| reflexivity].
    now apply nodeRefs_In.
  - intros Hnd. unfold assemble. cbv zeta. cbn [fst nodes]. fold final.
    rewrite paint_stable_values.
    pose proof (selectedNodeMap_collect nb state final) as Esel.
    rewrite (collect_distinct _ (nodeRefs nb) []) in Esel
      by (simpl; rewrite nodeRefs_ids; exact Hnd).
    simpl in Esel. rewrite Esel. unfold map_values, map_keys, NodeRef in *.
    rewrite !(map_map (fun r : nat * GraphNode => (id (snd r), r))). simpl.
    rewrite map_id.
    rewrite (map_snd_filter
               (fun n => (set_has final (id n) && typeMatch state n)%bool)).
    pose proof (nodeRefs_snd nb) as Esnd. unfold NodeRef in Esnd. rewrite Esnd.
    f_equal. apply filter_ext_in. intros n Hn.
    apply eq_true_iff_eq. rewrite set_has_In. rewrite in_map_iff. split.
    + intros Hk. assert (Hr : exists i, In (i, n) (nodeRefs nb)).
      { rewrite <- (nodeRefs_snd nb) in Hn. apply in_map_iff in Hn.
        destruct Hn as [[i n'] [Heq Hin]]. simpl in Heq. subst n'. now exists i. }
      destruct Hr as [i Hi]. exists (i, n). split; [reflexivity |].
      apply filter_In. split; [assumption | exact Hk].
    + intros [r [Hid Hr]]. apply filter_In in Hr. destruct Hr as [Hr Hk].
      assert (snd r = n).
      { apply (NoDup_map_In_eq id (allNodes nb)); try assumption.
        now apply nodeRefs_In. }
      now subst n.
Qed.

Lemma buildNetwork_nodes_shape_witness :
  map stable (nodes (fst (buildNetwork Sample.star
     (Sample.query [] [] [] ["reference"; "hierarchy"] 0 2) OR RankGlobal)))
  = map stable
      (filter
         (fun n => set_has
                     (map id (nodes (fst (buildNetwork Sample.star
                        (Sample.query [] [] [] ["reference"; "hierarchy"] 0 2)
                        OR RankGlobal)))) (id n))
         (allNodes Sample.star)).
Proof.
  apply (proj2 (proj2 (buildNetwork_nodes_shape Sample.star
                         (Sample.query [] [] [] ["reference"; "hierarchy"] 0 2)
                         OR RankGlobal))).
  simpl. repeat constructor; simpl; intuition discriminate.
Defined.

(** ** What a query returns *)

Lemma assemble_selection_all (nb : NetworkBuilder) (state : NetworkBuilderState)
  (mode : RankingMode) (c : JsSet) (k : string) :
  truncated (fst (assemble nb state mode c)) = false ->
  In k (map id (nodes (fst (assemble nb state mode c))))
  <-> connectedAndTyped state (candidateNodeMap nb c)
        (candidateLinks nb state (candidateNodeMap nb c)) k = true.
Proof.
  intros Ht. split; [apply assemble_selection |].
  rewrite assemble_node_ids. unfold assemble in Ht. cbv zeta in Ht.
  cbn [fst truncated] in Ht.
  set (cmap := candidateNodeMap nb c) in *.
  set (clinks := candidateLinks nb state cmap) in *.
  set (connected := connectedNodeIds state cmap clinks) in *.
  assert (Hnd : NoDup connected) by apply new_Set_NoDup.
  assert (Hinc : forall x, In x connected -> hasIncidentLink x clinks = true).
  { intros x Hx. eapply connected_incident. exact Hx. }
  destruct (finalNodeIds_facts nb state mode clinks connected Hnd Hinc)
    as [_ [Hfincl [Hsame _]]].
  rewrite (selectedNodeMap_keys nb state c clinks _ k Hfincl).
  rewrite (Hsame Ht). intros H. now apply connectedNodeIds_In.
Qed.

Lemma candidateIds_no_search (nb : NetworkBuilder) (state : NetworkBuilderState)
  (logic : SearchLogic) :
  searchUsed state = false ->
  candidateIds nb state logic = Some (new_Set (map id (allNodes nb))).
Proof.
  intros Hs. unfold candidateIds, step1, step2. now rewrite Hs.
Qed.

Lemma nodeRefs_of_node (nb : NetworkBuilder) (n : GraphNode) :
  In n (allNodes nb) -> exists i, In (i, n) (nodeRefs nb).
Proof.
  intros Hn. rewrite <- (nodeRefs_snd nb) in Hn. apply in_map_iff in Hn.
  destruct Hn as [[i n'] [Heq Hin]]. simpl in Heq. subst n'. now exists i.
Qed.

Lemma candidateNodeMap_get (nb : NetworkBuilder) (c : JsSet) (n : GraphNode) :
  NoDup (map id (allNodes nb)) -> In n (allNodes nb) -> In (id n) c ->
  exists i, map_get (candidateNodeMap nb c) (id n) = Some (i, n).
Proof.
  intros Hnd Hn Hc. destruct (nodeRefs_of_node nb n Hn) as [i Hi].
  assert (Hk : In (id n) (map_keys (candidateNodeMap nb c))).
  { rewrite candidateNodeMap_collect. apply collect_keys. right.
    exists (i, n). split; [assumption |]. split; [| reflexivity].
    now apply set_has_In. }
  apply map_has_keys in Hk. unfold map_has in Hk.
  destruct (map_get (candidateNodeMap nb c) (id n)) as [[j m] |] eqn:E;
    [| discriminate].
  exists j. f_equal. f_equal. apply map_get_In in E.
  pose proof (candidateNodeMap_keyed nb c) as Hkeyed. unfold keyed in Hkeyed.
  rewrite Forall_forall in Hkeyed. pose proof (Hkeyed _ E) as Hid. simpl in Hid.
  rewrite candidateNodeMap_collect in E. apply collect_In in E.
  destruct E as [[] | [Hr _]]. simpl in Hr. apply nodeRefs_In in Hr. simpl in Hr.
  apply (NoDup_map_In_eq id (allNodes nb)); auto.
Qed.

Lemma candidateNodeMap_has (nb : NetworkBuilder) (c : JsSet) (k : string) :
  map_has (candidateNodeMap nb c) k = true
  <-> In k c /\ In k (map id (allNodes nb)).
Proof.
  rewrite map_has_keys, candidateNodeMap_collect, collect_keys. simpl. split.
  - intros [[] | [r [Hr [Hkeep <-]]]]. split; [now apply set_has_In |].
    apply in_map. now apply nodeRefs_In.
  - intros [Hc Hn]. right. apply in_map_iff in Hn. destruct Hn as [n [<- Hn]].
    destruct (nodeRefs_of_node nb n Hn) as [i Hi]. exists (i, n).
    split; [assumption |]. split; [now apply set_has_In | reflexivity].
Qed.

(** X20.  A query that does not search, on a snapshot with unique
    identifiers: when the result is not truncated, a node of the snapshot
    is returned exactly when its type passes the node-type filter and it is
    an end of a snapshot link of an allowed edge type whose two ends are
    both nodes of the snapshot. *)
Theorem buildNetwork_no_search_result (nb : NetworkBuilder)
  (state : NetworkBuilderState) (searchLogic : SearchLogic)
  (nodeRankingMode : RankingMode) (n : GraphNode) :
  searchUsed state = false ->
  NoDup (map id (allNodes nb)) ->
  truncated (fst (buildNetwork nb state searchLogic nodeRankingMode)) = false ->
  In n (allNodes nb) ->
  In (id n) (map id (nodes (fst (buildNetwork nb state searchLogic nodeRankingMode))))
  <-> typeMatch state n = true
      /\ exists l, In l (allLinks nb) /\ edgeTypeMatch state l = true
                   /\ (sourceId l = id n \/ targetId l = id n)
                   /\ In (sourceId l) (map id (allNodes nb))
                   /\ In (targetId l) (map id (allNodes nb)).
Proof.
  intros Hs Hnd. unfold buildNetwork.
  rewrite (candidateIds_no_search nb state searchLogic Hs).
  set (c := new_Set (map id (allNodes nb))).
  intros Ht Hn. rewrite (assemble_selection_all nb state nodeRankingMode c _ Ht).
  assert (Hc : forall k, In k c <-> In k (map id (allNodes nb)))
    by (intros k; apply new_Set_In).
  destruct (candidateNodeMap_get nb c n Hnd Hn) as [i Hget];
    [apply Hc; now apply in_map |].
  unfold connectedAndTyped. rewrite Hget. cbn [snd].
  rewrite andb_true_iff, hasIncidentLink_exists.
  assert (Hlinks : forall l,
    In l (candidateLinks nb state (candidateNodeMap nb c)) <->
    In l (allLinks nb) /\ edgeTypeMatch state l = true
    /\ In (sourceId l) (map id (allNodes nb))
    /\ In (targetId l) (map id (allNodes nb))).
  { intros l. unfold candidateLinks. rewrite filter_In, !andb_true_iff.
    rewrite !candidateNodeMap_has, !Hc. tauto. }
  split.
  - intros [[l [Hl He]] Htm]. split; [assumption |]. exists l.
    apply Hlinks in Hl. tauto.
  - intros [Htm [l [Hl [Het [He [H1 H2]]]]]]. split; [| assumption].
    exists l. split; [| assumption]. apply Hlinks. tauto.
Qed.

Lemma buildNetwork_no_search_result_witness :
  In "D" (map id (nodes (fst (buildNetwork Sample.star
     (Sample.query [] ["text"] ["index"; "section"] ["hierarchy"] 0 10)
     OR RankGlobal)))).
Proof.
  apply (buildNetwork_no_search_result Sample.star
           (Sample.query [] ["text"] ["index"; "section"] ["hierarchy"] 0 10)
           OR RankGlobal (Sample.node "D" "D" "index")).
  - reflexivity.
  - simpl. repeat constructor; simpl; intuition discriminate.
  - reflexivity.
  - simpl. auto.
  - split; [reflexivity |]. exists (Sample.link "A" "D" "hierarchy").
    simpl. repeat split; auto.
Defined.

Lemma candidateIds_search_within (nb : NetworkBuilder) (state : NetworkBuilderState)
  (logic : SearchLogic) (c : JsSet) (x : string) :
  searchUsed state = true ->
  candidateIds nb state logic = Some c -> In x c ->
  within nb (maxNodesPerExpansion state) (allowedEdgeTypes state)
    (searchNodes nb (searchTerms state) (searchFields state) logic)
    (Z.to_nat (expansionDepth state)) x.
Proof.
  intros Hs Hc Hx. unfold candidateIds in Hc.
  destruct (step1 nb state logic) as [[c0 seeds] |] eqn:E1; [| discriminate].
  unfold step2 in Hc. rewrite Hs in Hc.
  destruct (List.length (seedsAfterFilter nb state seeds) =? 0)%nat; [discriminate |].
  injection Hc as <-. rewrite new_Set_In in Hx. apply filter_In in Hx.
  destruct Hx as [Hx0 _]. unfold step1 in E1. rewrite Hs in E1.
  destruct (List.length (searchNodes nb (searchTerms state) (searchFields state) logic)
            =? 0)%nat; [discriminate |].
  destruct (Z.ltb_spec 0 (expansionDepth state)) as [Hd | Hd].
  - apply expandFromSeeds_In.
    destruct (0 <? List.length (allowedNodeTypes state))%nat.
    + injection E1 as <- <-. rewrite new_Set_In in Hx0. apply filter_In in Hx0. tauto.
    + injection E1 as <- <-. assumption.
  - injection E1 as <- <-. rewrite new_Set_In in Hx0.
    replace (Z.to_nat (expansionDepth state)) with O by lia. exact Hx0.
Qed.

(** X21.  In a query that searches, every returned node is at most
    [expansionDepth] expansion steps away from a node that matched the
    search (with a depth of zero or less it matched the search itself). *)
Theorem buildNetwork_search_within_depth (nb : NetworkBuilder)
  (state : NetworkBuilderState) (searchLogic : SearchLogic)
  (nodeRankingMode : RankingMode) (node : GraphNode) :
  searchTerms state <> [] -> searchFields state <> [] ->
  In node (nodes (fst (buildNetwork nb state searchLogic nodeRankingMode))) ->
  within nb (maxNodesPerExpansion state) (allowedEdgeTypes state)
    (searchNodes nb (searchTerms state) (searchFields state) searchLogic)
    (Z.to_nat (expansionDepth state)) (id node).
Proof.
  intros Ht Hf. pose proof (searchUsed_true state Ht Hf) as Hs.
  unfold buildNetwork.
  destruct (candidateIds nb state searchLogic) as [c |] eqn:Ec; [| simpl; tauto].
  intros Hin. apply (in_map id) in Hin. apply assemble_selection in Hin.
  apply connectedAndTyped_has in Hin. apply candidateNodeMap_has in Hin.
  now apply (candidateIds_search_within nb state searchLogic c).
Qed.

Lemma buildNetwork_search_within_depth_witness :
  within Sample.abc 0 ["reference"; "definition"]
    (searchNodes Sample.abc ["B"] ["entity"] OR) (Z.to_nat 1) "C".
Proof.
  apply (buildNetwork_search_within_depth Sample.abc
           (Sample.query ["B"] ["entity"] allNodeTypes ["reference"; "definition"] 1 10)
           OR RankGlobal
           (assignColor (assignVal (Sample.node "C" "C" "concept") 1)
              "rgb(245, 192, 104)")).
  - discriminate.
  - discriminate.
  - vm_compute. right. right. left. reflexivity.
Defined.

(** * The callers of the engine *)

Lemma buildNetwork_links_closed (nb : NetworkBuilder) (state : NetworkBuilderState)
  (logic : SearchLogic) (mode : RankingMode) (l : GraphLink) :
  In l (links (fst (buildNetwork nb state logic mode))) ->
  In (sourceId l) (map id (nodes (fst (buildNetwork nb state logic mode))))
  /\ In (targetId l) (map id (nodes (fst (buildNetwork nb state logic mode)))).
Proof.
  unfold buildNetwork.
  destruct (candidateIds nb state logic) as [c |]; [| simpl; tauto].
  rewrite assemble_node_ids. unfold assemble. cbv zeta. simpl links.
  unfold finalLinks. intros H. apply in_map_iff in H. destruct H as [l0 [<- H]].
  apply filter_In in H. destruct H as [_ H]. apply andb_true_iff in H.
  destruct H as [Hs Ht]. rewrite map_has_keys in Hs, Ht.
  destruct (freshLink_ends l0) as [-> ->]. split; assumption.
Qed.

Lemma capLinks_incl (limit : Z) (filtered : FilteredGraph) :
  incl (fst (App.capLinks limit filtered)) (links filtered).
Proof.
  unfold App.capLinks. destruct (limit <? Z.of_nat (List.length (links filtered))).
  - cbn [fst]. intros l Hl. apply slice0_incl in Hl.
    eapply Permutation_in; [apply sort_perm | exact Hl].
  - apply incl_refl.
Qed.

Lemma displayGraphOf_connected (limit : Z) (filtered : FilteredGraph)
  (node : GraphNode) :
  In node (nodes (App.displayGraphOf limit filtered)) ->
  hasIncidentLink (id node) (links (App.displayGraphOf limit filtered)) = true.
Proof.
  unfold App.displayGraphOf. cbv zeta. cbn [nodes links]. intros H.
  apply filter_In in H. destruct H as [_ H]. now rewrite nodesWithEdges_incident in H.
Qed.

Lemma displayGraphOf_closed (limit : Z) (filtered : FilteredGraph) (l : GraphLink) :
  (forall l0, In l0 (links filtered) ->
     In (sourceId l0) (map id (nodes filtered))
     /\ In (targetId l0) (map id (nodes filtered))) ->
  In l (links (App.displayGraphOf limit filtered)) ->
  In (sourceId l) (map id (nodes (App.displayGraphOf limit filtered)))
  /\ In (targetId l) (map id (nodes (App.displayGraphOf limit filtered))).
Proof.
  intros Hclosed. unfold App.displayGraphOf. cbv zeta. cbn [nodes links]. intros Hl.
  destruct (Hclosed l (capLinks_incl limit filtered l Hl)) as [Hs Ht].
  assert (Hend : forall e, (sourceId l = e \/ targetId l = e) ->
            In e (map id (nodes filtered)) ->
            In e (map id (filter
                            (fun n => set_has
                                        (nodesWithEdges (fst (App.capLinks limit filtered)))
                                        (id n)) (nodes filtered)))).
  { intros e He Hin. apply in_map_iff in Hin. destruct Hin as [n [<- Hn]].
    apply in_map. apply filter_In. split; [assumption |].
    rewrite nodesWithEdges_incident. apply hasIncidentLink_exists. exists l. auto. }
  split; apply Hend; auto.
Qed.

(** X22.  The graph that [executeBottomUpSearch] displays is closed and
    connected, whatever the query and the link limit: every displayed node
    is an end of a displayed link and the two ends of every displayed link
    are displayed nodes.  (The nodes that [buildNetwork] may return without
    a link are dropped here.) *)
Theorem executeBottomUpSearch_closed_and_connected
  (builder : option NetworkBuilder) (limit : Z) (params : App.BottomUpParams)
  (g : FilteredGraph) (nb' : NetworkBuilder) :
  App.executeBottomUpSearch builder limit params = Some (g, nb') ->
  (forall node, In node (nodes g) -> hasIncidentLink (id node) (links g) = true)
  /\ (forall l, In l (links g) ->
        In (sourceId l) (map id (nodes g)) /\ In (targetId l) (map id (nodes g))).
Proof.
  unfold App.executeBottomUpSearch. destruct builder as [nb |]; [| discriminate].
  destruct (List.length (App.searchFields params) =? 0)%nat; [discriminate |].
  cbv zeta. intros [= <- <-]. split.
  - intros node. apply displayGraphOf_connected.
  - intros l. apply displayGraphOf_closed. intros l0.
    apply buildNetwork_links_closed.
Qed.

Lemma executeBottomUpSearch_closed_and_connected_witness :
  hasIncidentLink "B"
    (links (App.displayGraphOf 4000
       (fst (buildNetwork Sample.abc
               (Build_NetworkBuilderState ["B"] ["entity"] allNodeTypes
                  ["reference"; "definition"] 1 100 10) OR RankGlobal)))) = true.
Proof.
  apply (proj1 (executeBottomUpSearch_closed_and_connected (Some Sample.abc) 4000
    {| App.keywords := " B ,, "; App.expansionDegree := 1; App.maxNodes := 10;
       App.nodeTypes := allNodeTypes; App.edgeTypes := ["reference"; "definition"];
       App.searchFields := ["entity"]; App.searchLogic := OR;
       App.nodeRankingMode := RankGlobal |} _ _ eq_refl)
    (assignColor (assignVal (Sample.node "B" "B" "entity") 2) "rgb(240, 167, 52)")).
  vm_compute. right. left. reflexivity.
Defined.

(** X23.  The link limit of [executeBottomUpSearch], for a non-negative
    limit: [min limit n] of the [n] links of the engine's result are
    displayed; the flag [truncated] is raised when the engine raised it or
    when links were cut; [matchedCount] is passed on; and no link that was
    cut has a greater degree sum of its two ends (degrees counted over the
    engine's links) than a link that is displayed. *)
Theorem displayGraphOf_link_limit (limit : Z) (filtered : FilteredGraph) :
  0 <= limit ->
  Z.of_nat (List.length (links (App.displayGraphOf limit filtered)))
  = Z.min limit (Z.of_nat (List.length (links filtered)))
  /\ truncated (App.displayGraphOf limit filtered)
     = (truncated filtered || (limit <? Z.of_nat (List.length (links filtered))))%bool
  /\ matchedCount (App.displayGraphOf limit filtered) = matchedCount filtered
  /\ (forall a b,
        In a (links (App.displayGraphOf limit filtered)) ->
        In b (links filtered) ->
        ~ In b (links (App.displayGraphOf limit filtered)) ->
        degreeIn (sourceId b) (links filtered) + degreeIn (targetId b) (links filtered)
        <= degreeIn (sourceId a) (links filtered)
           + degreeIn (targetId a) (links filtered)).
Proof.
  intros Hl. unfold App.displayGraphOf, App.capLinks. cbv zeta.
  destruct (Z.ltb_spec limit (Z.of_nat (List.length (links filtered)))) as [Hlt | Hge];
    cbn [fst snd links truncated matchedCount].
  - split; [| split; [reflexivity | split; [reflexivity |]]].
    + rewrite slice0_length; try lia.
      rewrite (Permutation_length (sort_perm _ _)). lia.
    + intros a b Ha Hb Hnb. rewrite <- !countDegrees_degreeIn.
      apply (top_by_key (App.linkDegree (countDegrees (links filtered)))
               (links filtered) limit a b Ha Hb Hnb).
  - split; [lia |]. split; [reflexivity |]. split; [reflexivity |].
    intros a b _ Hb Hnb. contradiction.
Qed.

Lemma displayGraphOf_link_limit_witness :
  Z.of_nat (List.length (links (App.displayGraphOf 1
     (fst (buildNetwork Sample.abc
             (Sample.query [] [] [] ["reference"; "definition"] 0 10)
             OR RankGlobal)))))
  = Z.min 1 (Z.of_nat (List.length (links
     (fst (buildNetwork Sample.abc
             (Sample.query [] [] [] ["reference"; "definition"] 0 10)
             OR RankGlobal))))).
Proof.
  apply (displayGraphOf_link_limit 1
           (fst (buildNetwork Sample.abc
                   (Sample.query [] [] [] ["reference"; "definition"] 0 10)
                   OR RankGlobal))).
  lia.
Defined.

Lemma firstn_full {A : Type} (k : nat) (l : list A) :
  List.length (firstn k l) = List.length l -> firstn k l = l.
Proof.
  intros H. rewrite length_firstn in H. apply firstn_all2. lia.
Qed.

Lemma slice0_full {A : Type} (l : list A) (n : Z) :
  List.length (slice0 l n) = List.length l -> slice0 l n = l.
Proof.
  unfold slice0. destruct (n <? 0); apply firstn_full.
Qed.

(** X24.  [filteredDisplayGraph] in bottom-up mode recomputes [val] from
    the links it keeps: every node it returns is an end of a returned link
    and carries as [val] its degree in the returned links (the fallback 1
    is never used); and when node types are enabled, the two ends of every
    returned link are returned nodes. *)
Theorem filteredDisplayGraph_degrees (enabledCategories enabledNodeTypes : JsSet)
  (displayGraph : FilteredGraph) :
  (forall node,
     In node (nodes (App.filteredDisplayGraph "bottomUp" enabledCategories
                       enabledNodeTypes displayGraph)) ->
     1 <= degreeIn (id node)
            (links (App.filteredDisplayGraph "bottomUp" enabledCategories
                      enabledNodeTypes displayGraph))
     /\ val node
        = Some (degreeIn (id node)
                  (links (App.filteredDisplayGraph "bottomUp" enabledCategories
                            enabledNodeTypes displayGraph))))
  /\ (enabledNodeTypes <> [] ->
      forall l,
        In l (links (App.filteredDisplayGraph "bottomUp" enabledCategories
                       enabledNodeTypes displayGraph)) ->
        In (sourceId l)
          (map id (nodes (App.filteredDisplayGraph "bottomUp" enabledCategories
                            enabledNodeTypes displayGraph)))
        /\ In (targetId l)
             (map id (nodes (App.filteredDisplayGraph "bottomUp" enabledCategories
                               enabledNodeTypes displayGraph)))).
Proof.
  unfold App.filteredDisplayGraph. cbn [String.eqb Ascii.eqb Bool.eqb negb andb].
  cbv zeta. cbn [nodes links].
  set (byCategory := if ((0 <? List.length enabledCategories)%nat
                         && (List.length enabledCategories <? 3)%nat)%bool
                     then _ else _).
  set (filteredLinks := if (0 <? List.length enabledNodeTypes)%nat then _ else _).
  split.
  - intros node Hin. apply in_map_iff in Hin. destruct Hin as [n [<- Hn]].
    apply filter_In in Hn. destruct Hn as [Hn Hc].
    rewrite nodesWithEdges_incident in Hc.
    rewrite <- (hasIncidentLink_freshLink (id n) filteredLinks) in Hc.
    apply degreeIn_positive_incident in Hc. cbn [App.withVal id val].
    split; [lia |]. f_equal.
    rewrite displayDegree_degreeOf, countDegrees_degreeIn.
    destruct (Z.eqb_spec (degreeIn (id n) (map freshLink filteredLinks)) 0);
      [lia | reflexivity].
  - intros Hne l Hl. apply in_map_iff in Hl. destruct Hl as [l0 [<- Hl0]].
    destruct (freshLink_ends l0) as [-> ->].
    assert (Hact : (0 <? List.length enabledNodeTypes)%nat = true)
      by (destruct enabledNodeTypes; [congruence | reflexivity]).
    assert (Hends : App.enabledEnd enabledNodeTypes (nodes displayGraph) (sourceId l0)
                    = true
                    /\ App.enabledEnd enabledNodeTypes (nodes displayGraph) (targetId l0)
                       = true).
    { subst filteredLinks. rewrite Hact in Hl0. apply filter_In in Hl0.
      destruct Hl0 as [_ H]. now apply andb_true_iff in H. }
    assert (Hend : forall e, (sourceId l0 = e \/ targetId l0 = e) ->
              App.enabledEnd enabledNodeTypes (nodes displayGraph) e = true ->
              In e (map id
                      (map (fun node =>
                              App.withVal node
                                (displayDegree (countDegrees (map freshLink filteredLinks))
                                   (id node)))
                         (filter (fun n => set_has (nodesWithEdges filteredLinks) (id n))
                            (nodes displayGraph))))).
    { intros e He Hen. unfold App.enabledEnd in Hen.
      destruct (find (fun n => String.eqb (id n) e) (nodes displayGraph)) as [n |] eqn:Ef;
        [| discriminate].
      apply find_some in Ef. destruct Ef as [Hn Hid]. apply String.eqb_eq in Hid.
      rewrite map_map. apply in_map_iff. exists n. split; [exact Hid |].
      apply filter_In. split; [assumption |].
      rewrite nodesWithEdges_incident, Hid. apply hasIncidentLink_exists.
      exists l0. auto. }
    destruct Hends as [Hs Ht]. split; apply Hend; auto.
Qed.

Lemma filteredDisplayGraph_degrees_witness :
  In "B"
    (map id (nodes (App.filteredDisplayGraph "bottomUp" [] ["entity"; "concept"]
                      (fst (buildNetwork Sample.abc
                              (Sample.query [] [] [] ["reference"; "definition"] 0 10)
                              OR RankGlobal)))))
  /\ In "C"
       (map id (nodes (App.filteredDisplayGraph "bottomUp" [] ["entity"; "concept"]
                         (fst (buildNetwork Sample.abc
                                 (Sample.query [] [] [] ["reference"; "definition"] 0 10)
                                 OR RankGlobal))))).
Proof.
  apply (proj2 (filteredDisplayGraph_degrees [] ["entity"; "concept"]
                  (fst (buildNetwork Sample.abc
                          (Sample.query [] [] [] ["reference"; "definition"] 0 10)
                          OR RankGlobal)))
           ltac:(discriminate) (Sample.link "B" "C" "definition")).
  vm_compute. left. reflexivity.
Defined.

(** X25.  The bottom-up display without keywords.  Every link shown has
    both ends among the nodes shown; [matchedCount] is the number of nodes
    shown; with a non-negative limit at most [limit] links are shown, and
    with a non-negative [maxHops] at most [maxHops] nodes; and when
    [truncated] is false nothing was cut: the nodes are all the nodes of
    the scope and the links all its links between them. *)
Theorem noSearchDisplayGraph_caps (maxHops : option Z) (limit : Z)
  (fullNodes : list GraphNode) (fullLinks : list GraphLink) :
  (forall l, In l (links (App.noSearchDisplayGraph maxHops limit fullNodes fullLinks)) ->
     In (sourceId l)
       (map id (nodes (App.noSearchDisplayGraph maxHops limit fullNodes fullLinks)))
     /\ In (targetId l)
          (map id (nodes (App.noSearchDisplayGraph maxHops limit fullNodes fullLinks))))
  /\ matchedCount (App.noSearchDisplayGraph maxHops limit fullNodes fullLinks)
     = List.length (nodes (App.noSearchDisplayGraph maxHops limit fullNodes fullLinks))
  /\ (0 <= limit ->
      Z.of_nat (List.length
                  (links (App.noSearchDisplayGraph maxHops limit fullNodes fullLinks)))
      <= limit)
  /\ (forall h, maxHops = Some h -> 0 <= h ->
        Z.of_nat (List.length
                    (nodes (App.noSearchDisplayGraph maxHops limit fullNodes fullLinks)))
        <= h)
  /\ (truncated (App.noSearchDisplayGraph maxHops limit fullNodes fullLinks) = false ->
      nodes (App.noSearchDisplayGraph maxHops limit fullNodes fullLinks) = fullNodes
      /\ links (App.noSearchDisplayGraph maxHops limit fullNodes fullLinks)
         = filter (fun l => (set_has (map id fullNodes) (sourceId l)
                             && set_has (map id fullNodes) (targetId l))%bool)
             fullLinks).
Proof.
  unfold App.noSearchDisplayGraph. cbv zeta. cbn [nodes links truncated matchedCount].
  set (cappedNodes := match maxHops with Some h => _ | None => _ end).
  set (closed := filter _ fullLinks).
  split; [| split; [reflexivity | split; [| split]]].
  - intros l Hl.
    assert (Hc : In l closed)
      by (destruct (limit <? Z.of_nat (List.length closed));
          [now apply slice0_incl in Hl | assumption]).
    subst closed. apply filter_In in Hc. destruct Hc as [_ Hc].
    apply andb_true_iff in Hc. now rewrite !set_has_In, !new_Set_In in Hc.
  - intros Hl. destruct (Z.ltb_spec limit (Z.of_nat (List.length closed))); [| lia].
    rewrite slice0_length; lia.
  - intros h -> Hh. subst cappedNodes.
    destruct (Z.ltb_spec h (Z.of_nat (List.length fullNodes))); [| lia].
    rewrite slice0_length; lia.
  - intros Ht. apply orb_false_iff in Ht. destruct Ht as [Hn Hl].
    apply negb_false_iff, Nat.eqb_eq in Hn.
    assert (En : cappedNodes = fullNodes).
    { subst cappedNodes. destruct maxHops as [h |]; [| reflexivity].
      destruct (h <? Z.of_nat (List.length fullNodes)); [| reflexivity].
      now apply slice0_full. }
    split; [exact En |]. rewrite Hl. subst closed. rewrite En.
    apply filter_ext. intros l.
    assert (Hs : forall k, set_has (new_Set (map id fullNodes)) k
                           = set_has (map id fullNodes) k).
    { intros k. apply eq_true_iff_eq. now rewrite !set_has_In, new_Set_In. }
    now rewrite !Hs.
Qed.

Lemma noSearchDisplayGraph_caps_witness :
  Z.of_nat (List.length
              (nodes (App.noSearchDisplayGraph (Some 2) 1
                        (allNodes Sample.star) (allLinks Sample.star)))) <= 2.
Proof.
  apply (proj1 (proj2 (proj2 (proj2 (noSearchDisplayGraph_caps (Some 2) 1
                  (allNodes Sample.star) (allLinks Sample.star))))) 2 eq_refl).
  lia.
Defined.

(** ** The keywords of a bottom-up search *)

Lemma hasNonSpace_app (l1 l2 : list ascii) :
  hasNonSpace (l1 ++ l2) = (hasNonSpace l1 || hasNonSpace l2)%bool.
Proof. unfold hasNonSpace. apply existsb_app. Qed.

Lemma hasNonSpace_rev (l : list ascii) : hasNonSpace (rev l) = hasNonSpace l.
Proof.
  induction l as [|c l IH]; [reflexivity|].
  simpl rev. rewrite hasNonSpace_app, IH. unfold hasNonSpace. simpl.
  rewrite orb_false_r. apply orb_comm.
Qed.

Lemma hasNonSpace_trimStart (l : list ascii) :
  hasNonSpace (trimStart l) = hasNonSpace l.
Proof.
  induction l as [|c l IH]; [reflexivity|].
  simpl trimStart. destruct (is_space c) eqn:E.
  - rewrite IH. unfold hasNonSpace. simpl. rewrite E. reflexivity.
  - reflexivity.
Qed.

Lemma trimStart_nonempty (l : list ascii) :
  trimStart l <> [] -> hasNonSpace l = true.
Proof.
  induction l as [|c l IH]; [intros H; contradiction|].
  simpl trimStart. unfold hasNonSpace. simpl. destruct (is_space c); simpl.
  - exact IH.
  - reflexivity.
Qed.

Lemma trimStart_head (l l' : list ascii) (c : ascii) :
  trimStart l = c :: l' -> is_space c = false.
Proof.
  induction l as [|a l IH]; [discriminate|].
  simpl. destruct (is_space a) eqn:E; [exact IH|].
  intros H. injection H as -> _. exact E.
Qed.

Lemma trimStart_fixed (l : list ascii) (c : ascii) :
  is_space c = false -> trimStart (c :: l) = c :: l.
Proof. intros H. simpl. rewrite H. reflexivity. Qed.

(** [trim] leaves something exactly when the string has a character that is
    not white space. *)
Lemma trim_nonempty (s : string) :
  trim s <> "" <-> hasNonSpace (list_ascii_of_string s) = true.
Proof.
  unfold trim.
  set (l := list_ascii_of_string s).
  assert (Hh : hasNonSpace (rev (trimStart (rev (trimStart l)))) = hasNonSpace l)
    by (rewrite hasNonSpace_rev, hasNonSpace_trimStart, hasNonSpace_rev,
          hasNonSpace_trimStart; reflexivity).
  split.
  - intros H. rewrite <- Hh.
    destruct (rev (trimStart (rev (trimStart l)))) as [|c r] eqn:E.
    + exfalso. apply H. reflexivity.
    + rewrite <- E, hasNonSpace_rev, hasNonSpace_trimStart.
      apply trimStart_nonempty.
      intros E'. rewrite E' in E. discriminate.
  - intros H. rewrite <- Hh in H.
    destruct (rev (trimStart (rev (trimStart l)))) as [|c r].
    + discriminate.
    + simpl. discriminate.
Qed.

Lemma is_space_lower_ascii (c : ascii) : is_space (lower_ascii c) = is_space c.
Proof.
  destruct c as [[] [] [] [] [] [] [] []]; reflexivity.
Qed.

Lemma hasNonSpace_toLowerCase (s : string) :
  hasNonSpace (list_ascii_of_string (toLowerCase s))
  = hasNonSpace (list_ascii_of_string s).
Proof.
  induction s as [|c s IH]; [reflexivity|].
  unfold hasNonSpace in *. simpl. rewrite is_space_lower_ascii, IH. reflexivity.
Qed.

(** What [trim] returns neither starts nor ends with white space, so that
    trimming it again changes nothing. *)
Lemma trimStart_rev_trimStart (l : list ascii) :
  trimStart (rev (trimStart (rev (trimStart l))))
  = rev (trimStart (rev (trimStart l))).
Proof.
  set (m := trimStart l).
  assert (Hm : m = [] \/ exists c m', m = c :: m' /\ is_space c = false).
  { destruct m as [|c m'] eqn:E; [left; reflexivity|].
    right. exists c, m'. split; [reflexivity|].
    apply (trimStart_head l m'). exact E. }
  destruct Hm as [-> | (c & m' & -> & Hc)]; [reflexivity|].
  assert (Hk : forall k, exists r, rev (trimStart (k ++ [c])) = c :: r).
  { induction k as [|a k IH].
    - simpl. rewrite Hc. exists []. reflexivity.
    - simpl. destruct (is_space a).
      + exact IH.
      + exists (rev k ++ [a]). simpl. rewrite rev_app_distr. reflexivity. }
  simpl rev. destruct (Hk (rev m')) as [r Hr]. rewrite Hr.
  apply trimStart_fixed. exact Hc.
Qed.

Lemma trim_trim (s : string) : trim (trim s) = trim s.
Proof.
  unfold trim. rewrite list_ascii_of_string_of_list_ascii.
  set (l := list_ascii_of_string s).
  rewrite (trimStart_rev_trimStart l), rev_involutive.
  assert (H : trimStart (trimStart (rev (trimStart l))) = trimStart (rev (trimStart l))).
  { destruct (trimStart (rev (trimStart l))) as [|c r] eqn:E; [reflexivity|].
    apply trimStart_fixed. apply (trimStart_head _ _ _ E). }
  rewrite H. reflexivity.
Qed.

Lemma trimStart_incl (l : list ascii) : incl (trimStart l) l.
Proof.
  induction l as [| c l IH]; [intros x Hx; exact Hx |].
  simpl. destruct (is_space c).
  - intros x Hx. right. now apply IH.
  - intros x Hx. exact Hx.
Qed.

Lemma trim_chars (s : string) :
  incl (list_ascii_of_string (trim s)) (list_ascii_of_string s).
Proof.
  unfold trim. rewrite list_ascii_of_string_of_list_ascii.
  intros x Hx. apply in_rev in Hx. apply trimStart_incl in Hx.
  apply in_rev in Hx. now apply trimStart_incl in Hx.
Qed.

Lemma split_chars (sep : ascii) (s piece : string) :
  In piece (App.split sep s) ->
  incl (list_ascii_of_string piece) (list_ascii_of_string s).
Proof.
  revert piece. induction s as [| c s IH]; intros piece Hin.
  - simpl in Hin. destruct Hin as [<- | []]. intros x Hx. exact Hx.
  - simpl in Hin. destruct (Ascii.eqb c sep).
    + destruct Hin as [<- | Hin]; [intros x [] |].
      intros x Hx. right. exact (IH _ Hin x Hx).
    + destruct (App.split sep s) as [| t ts] eqn:E.
      * destruct Hin as [<- | []]. intros x Hx. simpl in Hx.
        destruct Hx as [<- | []]. now left.
      * destruct Hin as [<- | Hin].
        -- intros x Hx. simpl in Hx. destruct Hx as [<- | Hx]; [now left |].
           right. exact (IH t (or_introl eq_refl) x Hx).
        -- intros x Hx. right. exact (IH piece (or_intror Hin) x Hx).
Qed.

Lemma isAscii_incl (s s' : string) :
  incl (list_ascii_of_string s') (list_ascii_of_string s) ->
  isAscii s = true -> isAscii s' = true.
Proof.
  unfold isAscii. rewrite !forallb_forall. intros Hincl H c Hc.
  apply H, Hincl, Hc.
Qed.

(** X26.  The terms that a bottom-up search hands to the engine, for
    keywords of ASCII characters: each is a piece of the keywords between
    commas, trimmed and not empty, and is ASCII itself; trimming it again
    changes nothing, and the engine's own normalisation (lower case, trim)
    never turns it into the blank term. *)
Theorem searchTermsOf_no_blank (keywords0 t : string) :
  isAscii keywords0 = true ->
  In t (App.searchTermsOf keywords0) ->
  isAscii t = true /\ t <> "" /\ trim t = t /\ trim (toLowerCase t) <> ""
  /\ exists piece, In piece (App.split "," keywords0) /\ t = trim piece.
Proof.
  unfold App.searchTermsOf. intros Hascii H.
  apply filter_In in H. destruct H as [Hin Hne].
  apply in_map_iff in Hin. destruct Hin as (piece & <- & Hp).
  assert (Hnz : trim piece <> "").
  { intros E. rewrite E in Hne. discriminate. }
  split.
  { apply (isAscii_incl keywords0); [| exact Hascii].
    intros x Hx. apply trim_chars in Hx. exact (split_chars _ _ _ Hp x Hx). }
  split; [exact Hnz|].
  split; [apply trim_trim|].
  split.
  - apply trim_nonempty. rewrite hasNonSpace_toLowerCase.
    apply trim_nonempty. rewrite trim_trim. exact Hnz.
  - exists piece. split; [exact Hp | reflexivity].
Qed.

Lemma searchTermsOf_no_blank_witness :
  isAscii "Tax" = true /\ "Tax" <> "" /\ trim "Tax" = "Tax"
  /\ trim (toLowerCase "Tax") <> ""
  /\ exists piece, In piece (App.split "," " Tax , ,income") /\ "Tax" = trim piece.
Proof.
  apply (searchTermsOf_no_blank " Tax , ,income" "Tax").
  - reflexivity.
  - vm_compute. left. reflexivity.
Defined.

(** * The graph queries of the side panels *)

(** ** Statistics *)

Lemma edgeTypeCounts_from (ls : list GraphLink) (m : JsMap Z) (c : string) :
  degreeOf
    (fold_left
       (fun m link => map_set m (edge_type link) (degreeOf m (edge_type link) + 1))
       ls m) c
  = degreeOf m c + Z.of_nat (linksOfType c ls).
Proof.
  revert m. induction ls as [|l ls IH]; intros m.
  - unfold linksOfType. simpl. lia.
  - simpl fold_left. rewrite IH, degreeOf_map_set.
    unfold linksOfType in *. simpl filter.
    rewrite (String.eqb_sym (edge_type l) c).
    destruct (String.eqb c (edge_type l)) eqn:E.
    + apply String.eqb_eq in E. subst c. simpl List.length. lia.
    + lia.
Qed.

Lemma edgeTypeCounts_keys_from (ls : list GraphLink) (m : JsMap Z) (c : string) :
  In c (map_keys
          (fold_left
             (fun m link => map_set m (edge_type link) (degreeOf m (edge_type link) + 1))
             ls m))
  <-> In c (map_keys m) \/ exists l, In l ls /\ edge_type l = c.
Proof.
  revert m. induction ls as [|l ls IH]; intros m.
  - simpl. split; [tauto|]. intros [H | (l & [] & _)]. exact H.
  - simpl fold_left. rewrite IH, map_set_keys_In. split.
    + intros [[H | ->] | (l' & Hl & He)].
      * left. exact H.
      * right. exists l. split; [left; reflexivity | reflexivity].
      * right. exists l'. split; [right; exact Hl | exact He].
    + intros [H | (l' & [<- | Hl] & He)].
      * left. left. exact H.
      * left. right. symmetry. exact He.
      * right. exists l'. split; assumption.
Qed.

Lemma edgeTypeCounts_NoDup_from (ls : list GraphLink) (m : JsMap Z) :
  NoDup (map_keys m) ->
  NoDup (map_keys
           (fold_left
              (fun m link => map_set m (edge_type link) (degreeOf m (edge_type link) + 1))
              ls m)).
Proof.
  revert m. induction ls as [|l ls IH]; intros m H; [exact H|].
  simpl. apply IH. apply map_set_keys_NoDup. exact H.
Qed.

Lemma totalCount_increment (m : JsMap Z) (k : string) :
  totalCount (map_set m k (degreeOf m k + 1)) = totalCount m + 1.
Proof.
  unfold totalCount, map_values, degreeOf.
  induction m as [|[k' v'] m IH]; simpl.
  - lia.
  - destruct (String.eqb k k') eqn:E; simpl.
    + lia.
    + rewrite IH. lia.
Qed.

Lemma totalCount_from (ls : list GraphLink) (m : JsMap Z) :
  totalCount
    (fold_left
       (fun m link => map_set m (edge_type link) (degreeOf m (edge_type link) + 1))
       ls m)
  = totalCount m + Z.of_nat (List.length ls).
Proof.
  revert m. induction ls as [|l ls IH]; intros m.
  - simpl. lia.
  - simpl fold_left. rewrite IH, totalCount_increment. simpl List.length. lia.
Qed.

Lemma linksOfType_pos (c : string) (ls : list GraphLink) (l : GraphLink) :
  In l ls -> edge_type l = c -> (0 < linksOfType c ls)%nat.
Proof.
  intros Hl He. unfold linksOfType.
  assert (H : In l (filter (fun l0 => String.eqb (edge_type l0) c) ls)).
  { apply filter_In. split; [exact Hl|]. apply String.eqb_eq. exact He. }
  destruct (filter (fun l0 => String.eqb (edge_type l0) c) ls); [contradiction|].
  simpl. lia.
Qed.

(** X27.  The statistics of a graph whose links carry the edge types of
    [GraphLink]: every edge type that occurs gets one category, its count
    is the number of links of that type, the counts add up to the number
    of triples, and there are at most three categories. *)
Theorem fetchStats_categories (ns : list GraphNode) (ls : list GraphLink) :
  Forall (fun l => In (edge_type l) allEdgeTypes) ls ->
  let stats := Api.fetchStats ns ls in
  NoDup (map_keys (Api.categories stats))
  /\ (forall c, In c (map_keys (Api.categories stats))
                <-> exists l, In l ls /\ edge_type l = c)
  /\ (forall c n, In (c, n) (Api.categories stats) ->
                  n = Z.of_nat (linksOfType c ls) /\ 0 < n)
  /\ totalCount (Api.categories stats) = Z.of_nat (Api.totalTriples stats)
  /\ (List.length (Api.categories stats) <= 3)%nat.
Proof.
  intros Hty. cbv zeta. unfold Api.fetchStats. simpl Api.categories.
  simpl Api.totalTriples. unfold Api.edgeTypeCounts.
  assert (Hnd : NoDup (map_keys
           (fold_left
              (fun m link => map_set m (edge_type link) (degreeOf m (edge_type link) + 1))
              ls []))) by (apply edgeTypeCounts_NoDup_from; constructor).
  assert (Hkeys : forall c,
             In c (map_keys
                     (fold_left
                        (fun m link =>
                           map_set m (edge_type link) (degreeOf m (edge_type link) + 1))
                        ls []))
             <-> exists l, In l ls /\ edge_type l = c).
  { intros c. rewrite edgeTypeCounts_keys_from. simpl. tauto. }
  split; [exact Hnd|].
  split; [exact Hkeys|].
  split; [|split].
  - intros c n Hin.
    assert (Hn : n = Z.of_nat (linksOfType c ls)).
    { pose proof (map_get_of_In _ _ _ Hnd Hin) as Hg.
      pose proof (edgeTypeCounts_from ls [] c) as Hc.
      unfold degreeOf at 1 in Hc. rewrite Hg in Hc.
      unfold degreeOf in Hc. simpl in Hc. lia. }
    split; [exact Hn|].
    assert (Hk : In c (map_keys
                         (fold_left
                            (fun m link =>
                               map_set m (edge_type link)
                                 (degreeOf m (edge_type link) + 1))
                            ls []))).
    { unfold map_keys. change c with (fst (c, n)). apply in_map. exact Hin. }
    apply Hkeys in Hk. destruct Hk as (l & Hl & He).
    pose proof (linksOfType_pos c ls l Hl He). lia.
  - rewrite totalCount_from. unfold totalCount. simpl. lia.
  - rewrite <- (length_map fst). fold (@map_keys Z).
    change 3%nat with (List.length allEdgeTypes).
    apply NoDup_incl_length; [exact Hnd|].
    intros c Hc. apply Hkeys in Hc. destruct Hc as (l & Hl & <-).
    rewrite Forall_forall in Hty. apply Hty. exact Hl.
Qed.

Lemma fetchStats_categories_witness :
  let stats := Api.fetchStats ApiSample.nodes ApiSample.links in
  NoDup (map_keys (Api.categories stats))
  /\ (forall c, In c (map_keys (Api.categories stats))
                <-> exists l, In l ApiSample.links /\ edge_type l = c)
  /\ (forall c n, In (c, n) (Api.categories stats) ->
                  n = Z.of_nat (linksOfType c ApiSample.links) /\ 0 < n)
  /\ totalCount (Api.categories stats) = Z.of_nat (Api.totalTriples stats)
  /\ (List.length (Api.categories stats) <= 3)%nat.
Proof.
  apply (fetchStats_categories ApiSample.nodes ApiSample.links).
  apply Forall_forall. intros l Hl. vm_compute in Hl.
  repeat (destruct Hl as [<- | Hl]; [simpl; tauto|]). contradiction.
Defined.

(** ** The relationships of a node *)

Lemma find_existsb {A : Type} (f : A -> bool) (l : list A) :
  existsb f l = match find f l with Some _ => true | None => false end.
Proof.
  induction l as [|a l IH]; [reflexivity|].
  simpl. destruct (f a); [reflexivity | exact IH].
Qed.

Lemma Array_includes_In (xs : list string) (x : string) :
  Array_includes xs x = true -> In x xs.
Proof.
  unfold Array_includes. intros H. apply existsb_exists in H.
  destruct H as (y & Hy & E). apply String.eqb_eq in E. subst y. exact Hy.
Qed.

Lemma mapWithIndex_length {A B : Type} (f : nat -> A -> B) (l : list A) :
  List.length (Api.mapWithIndex f l) = List.length l.
Proof.
  unfold Api.mapWithIndex.
  rewrite length_map, length_combine, length_seq. apply Nat.min_id.
Qed.

Lemma mapWithIndex_In {A B : Type} (f : nat -> A -> B) (l : list A) (b : B) :
  In b (Api.mapWithIndex f l) -> exists i a, In a l /\ b = f i a.
Proof.
  unfold Api.mapWithIndex. intros H.
  apply in_map_iff in H. destruct H as ([i a] & <- & Hin).
  exists i, a. split; [|reflexivity].
  apply in_combine_r in Hin. exact Hin.
Qed.

Lemma toRelationship_ids_from (nm : JsMap GraphNode) (timeScope : string)
  (l : list GraphLink) (s : nat) :
  map Api.id
    (map (fun p => Api.toRelationship nm timeScope (fst p) (snd p))
       (combine (seq s (List.length l)) l))
  = seq s (List.length l).
Proof.
  revert s. induction l as [|a l IH]; intros s; [reflexivity|].
  simpl. rewrite IH. reflexivity.
Qed.

Lemma relatedLinksOf_In (ls : list GraphLink) (timeScope x : string)
  (link : GraphLink) :
  In link (Api.relatedLinksOf ls timeScope x) <->
  In link ls /\ time link = Some timeScope
  /\ (sourceId link = x \/ targetId link = x).
Proof.
  unfold Api.relatedLinksOf. rewrite filter_In, andb_true_iff, orb_true_iff.
  rewrite !String.eqb_eq. unfold Api.linkInScope.
  destruct (time link) as [t|].
  - rewrite String.eqb_eq. split.
    + intros (H & -> & Hx). auto.
    + intros (H & [= ->] & Hx). auto.
  - split.
    + intros (_ & H & _). discriminate.
    + intros (_ & H & _). discriminate.
Qed.

(** The two optional filters of [fetchActorRelationships] keep a part of
    the related links, in their order. *)
Lemma fetchActorRelationships_unfold (ns : list GraphNode) (ls : list GraphLink)
  (actorId : string) (categories0 : list string) (timeScope : string)
  (enabledNodeTypes : option (list string)) :
  (exists kept,
      Api.fetchActorRelationships ns ls actorId categories0 timeScope enabledNodeTypes
      = (Api.mapWithIndex (Api.toRelationship (Api.nodeMap ns) timeScope) kept,
         if existsb (fun n => (String.eqb (id n) actorId
                               && Api.nodeInScope timeScope n)%bool) ns
         then List.length (Api.relatedLinksOf ls timeScope actorId) else 0%nat)
      /\ (List.length kept
          <= if existsb (fun n => (String.eqb (id n) actorId
                                   && Api.nodeInScope timeScope n)%bool) ns
             then List.length (Api.relatedLinksOf ls timeScope actorId)
             else 0)%nat
      /\ (forall link, In link kept ->
            In link (Api.relatedLinksOf ls timeScope actorId)
            /\ (List.length categories0 = 0%nat
                \/ (3 <= List.length categories0)%nat
                \/ In (edge_type link) categories0))).
Proof.
  unfold Api.fetchActorRelationships, Api.nodeId, Api.linkEdgeType.
  rewrite find_existsb.
  destruct (find (fun n => (String.eqb (id n) actorId
                            && Api.nodeInScope timeScope n)%bool) ns)
    as [actorNode|] eqn:Ef.
  - apply find_some in Ef. destruct Ef as [_ Ef].
    apply andb_true_iff in Ef. destruct Ef as [Ef _].
    apply String.eqb_eq in Ef. rewrite Ef.
    set (rel0 := Api.relatedLinksOf ls timeScope actorId).
    set (rel1 := if ((0 <? List.length categories0)%nat
                     && (List.length categories0 <? 3)%nat)%bool
                 then filter (fun link => Array_includes categories0 (edge_type link)) rel0
                 else rel0).
    assert (H1 : (List.length rel1 <= List.length rel0)%nat
                 /\ forall link, In link rel1 ->
                      In link rel0
                      /\ (List.length categories0 = 0%nat
                          \/ (3 <= List.length categories0)%nat
                          \/ In (edge_type link) categories0)).
    { unfold rel1.
      destruct (0 <? List.length categories0)%nat eqn:E0; simpl.
      - destruct (List.length categories0 <? 3)%nat eqn:E3.
        + split; [apply filter_length_le|].
          intros link Hl. apply filter_In in Hl. destruct Hl as [Hl Hc].
          split; [exact Hl|]. right. right.
          apply Array_includes_In. exact Hc.
        + apply Nat.ltb_ge in E3. split; [lia|]. intros link Hl. auto.
      - apply Nat.ltb_ge in E0. split; [lia|]. intros link Hl.
        split; [exact Hl|]. left. lia. }
    destruct H1 as [Hlen1 Hin1].
    match goal with
    | |- exists kept, (Api.mapWithIndex _ ?K, _) = _ /\ _ =>
        exists K; split; [reflexivity|]
    end.
    destruct enabledNodeTypes as [types|].
    + destruct ((0 <? List.length types)%nat && (List.length types <? 3)%nat)%bool.
      * split.
        -- etransitivity; [apply filter_length_le | exact Hlen1].
        -- intros link Hl. apply filter_In in Hl. apply Hin1. apply Hl.
      * split; [exact Hlen1 | exact Hin1].
    + split; [exact Hlen1 | exact Hin1].
  - exists []. split; [reflexivity|]. split; [simpl; lia|].
    intros link [].
Qed.

(** X28.  The rows of [fetchActorRelationships]: there are at most
    [totalBeforeFilter] of them, which is the number of links of the time
    scope that touch the actor when the actor is a node of that scope, and 0
    otherwise; the rows are numbered from 0 in their order; each row is made
    of a link of the time scope that has the actor at one end, and when one
    or two categories are selected its edge type is one of them. *)
Theorem fetchActorRelationships_rows (ns : list GraphNode) (ls : list GraphLink)
  (actorId : string) (categories0 : list string) (timeScope : string)
  (enabledNodeTypes : option (list string)) :
  let result :=
    Api.fetchActorRelationships ns ls actorId categories0 timeScope enabledNodeTypes in
  (List.length (fst result) <= snd result)%nat
  /\ snd result
     = (if existsb (fun n => (String.eqb (id n) actorId
                              && Api.nodeInScope timeScope n)%bool) ns
        then List.length (Api.relatedLinksOf ls timeScope actorId) else 0%nat)
  /\ map Api.id (fst result) = seq 0 (List.length (fst result))
  /\ forall r, In r (fst result) ->
       (Api.actor_id r = actorId \/ Api.target_id r = actorId)
       /\ (List.length categories0 = 0%nat
           \/ (3 <= List.length categories0)%nat
           \/ exists c, In c categories0 /\ Api.edge_type r = Some c)
       /\ exists link,
            In link ls /\ time link = Some timeScope
            /\ Api.actor_id r = sourceId link /\ Api.target_id r = targetId link
            /\ Api.doc_id r = sourceId link
            /\ Api.edge_type r = Some (edge_type link)
            /\ Api.action r = action link.
Proof.
  cbv zeta.
  destruct (fetchActorRelationships_unfold ns ls actorId categories0 timeScope
              enabledNodeTypes) as (kept & -> & Hlen & Hin).
  simpl fst. simpl snd.
  split; [rewrite mapWithIndex_length; exact Hlen|].
  split; [reflexivity|].
  split.
  - rewrite mapWithIndex_length. unfold Api.mapWithIndex.
    apply toRelationship_ids_from.
  - intros r Hr. apply mapWithIndex_In in Hr. destruct Hr as (i & link & Hl & ->).
    destruct (Hin link Hl) as [Hrel Hcat].
    apply relatedLinksOf_In in Hrel. destruct Hrel as (Hls & Ht & Hx).
    simpl. split; [exact Hx|]. split.
    + destruct Hcat as [H | [H | H]]; [left; exact H | right; left; exact H |].
      right. right. exists (edge_type link). split; [exact H | reflexivity].
    + exists link. repeat split; assumption.
Qed.

(** X29.  The thresholds of the two filters of [fetchActorRelationships]:
    with three or more categories and three or more node types selected,
    neither filter is applied; the result is that of
    [fetchNodeRelationships] without categories, and every link of the
    actor gives a row. *)
Theorem fetchActorRelationships_filters_off (ns : list GraphNode)
  (ls : list GraphLink) (actorId : string) (categories0 types : list string)
  (timeScope : string) :
  (3 <= List.length categories0)%nat ->
  (3 <= List.length types)%nat ->
  Api.fetchActorRelationships ns ls actorId categories0 timeScope (Some types)
  = Api.fetchNodeRelationships ns ls actorId [] timeScope
  /\ List.length
       (fst (Api.fetchActorRelationships ns ls actorId categories0 timeScope
               (Some types)))
     = snd (Api.fetchActorRelationships ns ls actorId categories0 timeScope
              (Some types)).
Proof.
  intros Hc Ht.
  unfold Api.fetchNodeRelationships, Api.fetchActorRelationships.
  destruct (find (fun n => (String.eqb (Api.nodeId n) actorId
                            && Api.nodeInScope timeScope n)%bool) ns)
    as [actorNode|]; [|split; reflexivity].
  assert (E3 : (List.length categories0 <? 3)%nat = false)
    by (apply Nat.ltb_ge; exact Hc).
  assert (E3' : (List.length types <? 3)%nat = false)
    by (apply Nat.ltb_ge; exact Ht).
  rewrite E3, E3', !andb_false_r. simpl.
  split; [reflexivity|]. apply mapWithIndex_length.
Qed.

Lemma fetchActorRelationships_filters_off_witness :
  Api.fetchActorRelationships ApiSample.nodes ApiSample.links "A"
    ["definition"; "definition"; "definition"] "2024"
    (Some ["concept"; "concept"; "concept"])
  = Api.fetchNodeRelationships ApiSample.nodes ApiSample.links "A" [] "2024"
  /\ List.length
       (fst (Api.fetchActorRelationships ApiSample.nodes ApiSample.links "A"
               ["definition"; "definition"; "definition"] "2024"
               (Some ["concept"; "concept"; "concept"])))
     = snd (Api.fetchActorRelationships ApiSample.nodes ApiSample.links "A"
              ["definition"; "definition"; "definition"] "2024"
              (Some ["concept"; "concept"; "concept"])).
Proof.
  apply (fetchActorRelationships_filters_off ApiSample.nodes ApiSample.links "A"
           ["definition"; "definition"; "definition"]
           ["concept"; "concept"; "concept"] "2024");
    simpl; lia.
Defined.

(** ** The text of a node *)

Lemma truthy_or (a b : Js.value) :
  truthy (Js.or a b) = (truthy a || truthy b)%bool.
Proof. unfold Js.or. destruct (truthy a) eqn:E; [exact E | reflexivity]. Qed.

Lemma or_cases (a b : Js.value) : Js.or a b = a \/ Js.or a b = b.
Proof. unfold Js.or. destruct (truthy a); [left | right]; reflexivity. Qed.

(** X30.  [fetchDocumentText] never gives an empty text: what it returns is
    truthy, and it is either the fixed notice or one of the five text
    properties of a node with the asked id in the time scope. *)
Theorem fetchDocumentText_never_empty (ns : list GraphNode) (docId timeScope : string) :
  truthy (Api.fetchDocumentText ns docId timeScope) = true
  /\ (Api.fetchDocumentText ns docId timeScope = Str "No text available for this node."
      \/ exists node,
           In node ns /\ id node = docId /\ Api.nodeInScope timeScope node = true
           /\ In (Api.fetchDocumentText ns docId timeScope)
                [prop node "text"; of_option (text node);
                 of_option (section_text node); prop node "full_name";
                 of_option (full_name node)]).
Proof.
  unfold Api.fetchDocumentText.
  destruct (find (fun n => (String.eqb (id n) docId
                            && Api.nodeInScope timeScope n)%bool) ns)
    as [node|] eqn:Ef.
  - split.
    + rewrite truthy_or. apply orb_true_r.
    + apply find_some in Ef. destruct Ef as [Hin Ef].
      apply andb_true_iff in Ef. destruct Ef as [Eid Esc].
      apply String.eqb_eq in Eid.
      destruct (or_cases
                  (Js.or (Js.or (Js.or (Js.or (prop node "text") (of_option (text node)))
                                   (of_option (section_text node)))
                            (prop node "full_name"))
                     (of_option (full_name node)))
                  (Str "No text available for this node.")) as [E | E];
        rewrite E; [|left; reflexivity].
      right. exists node. repeat (split; [assumption|]).
      simpl.
      destruct (or_cases
                  (Js.or (Js.or (Js.or (prop node "text") (of_option (text node)))
                            (of_option (section_text node)))
                     (prop node "full_name"))
                  (of_option (full_name node))) as [E1 | E1];
        rewrite E1; [|tauto].
      destruct (or_cases
                  (Js.or (Js.or (prop node "text") (of_option (text node)))
                     (of_option (section_text node)))
                  (prop node "full_name")) as [E2 | E2];
        rewrite E2; [|tauto].
      destruct (or_cases
                  (Js.or (prop node "text") (of_option (text node)))
                  (of_option (section_text node))) as [E3 | E3];
        rewrite E3; [|tauto].
      destruct (or_cases (prop node "text") (of_option (text node))) as [E4 | E4];
        rewrite E4; tauto.
  - split; [reflexivity | left; reflexivity].
Qed.
